(** * 3PL billing core: invoice generator, settlement workflow, price resolver

    A shallow embedding of the billing routes (src/routes/billingEngine.js,
    the settlement routes that follow it in the same file) and of the
    billing service (apps/api/src/services/billing.js).

    Conventions of the embedding
    - A MySQL table is a list of rows; a soft-deleted row keeps its place with
      its [deleted] flag set ([deleted_at IS NOT NULL]).
    - An AUTO_INCREMENT key is one more than the largest key of the table.
    - A JavaScript number is an exact rational ([Q]) or integer ([Z]); the
      rounding error of IEEE doubles is not modelled.
    - Columns that no modelled statement reads (timestamps, remarks, e-mail
      addresses) are left out of the rows. *)

From Stdlib Require Import ZArith QArith Qround List String Ascii Bool Lia.
From Stdlib Require Import DecimalString DecimalPos.
Import ListNotations.
Local Open Scope string_scope.
Local Open Scope Z_scope.

Set Implicit Arguments.

(* ------------------------------------------------------------------ *)
(** ** JavaScript string and number helpers *)

Module Js.

(** [String(n)] for an integer [n]. *)
Definition toString (n : Z) : string := NilZero.string_of_int (Z.to_int n).

Fixpoint zeros (k : nat) : string :=
  match k with
  | O => EmptyString
  | S k' => String "0" (zeros k')
  end.

(** [s.padStart(width, "0")]. *)
Definition padStart (width : nat) (s : string) : string :=
  zeros (width - String.length s) ++ s.

(** [s.replace("-", "")]: only the first occurrence is removed. *)
Fixpoint replaceDash (s : string) : string :=
  match s with
  | EmptyString => EmptyString
  | String c rest =>
      if Ascii.eqb c "-" then rest else String c (replaceDash rest)
  end.

(** [s.split("-")]. *)
Fixpoint split (s : string) : list string :=
  match s with
  | EmptyString => [EmptyString]
  | String c rest =>
      if Ascii.eqb c "-" then EmptyString :: split rest
      else match split rest with
           | [] => [String c EmptyString]
           | h :: t => String c h :: t
           end
  end.

(** [Number(s)] on a string of decimal digits; [None] stands for NaN.
    The request schemas only let digit strings reach it. *)
Definition Number (s : string) : option Z :=
  option_map (fun u => Z.of_N (N.of_uint u)) (NilEmpty.uint_of_string s).

(** Template-literal rendering of a number that may be NaN. *)
Definition show (n : option Z) : string :=
  match n with
  | Some z => toString z
  | None => "NaN"
  end.

(** [x || 0] followed by [Number(...)], for a nullable numeric column. *)
Definition orZero (v : option Q) : Q :=
  match v with
  | Some q => q
  | None => 0%Q
  end.

End Js.

(* ------------------------------------------------------------------ *)
(** ** Dates *)

Record Date := mkDate { year : Z; month : Z; day : Z }.

Definition date_compare (a b : Date) : comparison :=
  match year a ?= year b with
  | Eq => match month a ?= month b with
          | Eq => day a ?= day b
          | c => c
          end
  | c => c
  end.

Definition date_leb (a b : Date) : bool :=
  match date_compare a b with Gt => false | _ => true end.

Definition date_ltb (a b : Date) : bool :=
  match date_compare a b with Lt => true | _ => false end.

(** The order of the calendar. *)
Definition date_before (a b : Date) : Prop :=
  year a < year b
  \/ (year a = year b /\ (month a < month b \/ (month a = month b /\ day a < day b))).

(** How the database reads a ['Y-M-D'] string parameter that is compared
    with a DATE column: three numeric fields. *)
Definition sql_date (s : string) : option Date :=
  match Js.split s with
  | [y; m; d] =>
      match Js.Number y, Js.Number m, Js.Number d with
      | Some y', Some m', Some d' => Some (mkDate y' m' d')
      | _, _, _ => None
      end
  | _ => None
  end.

(** [col >= from AND col < to]; a parameter that is not a date matches no row. *)
Definition date_in_range (from to : string) (d : Date) : bool :=
  match sql_date from, sql_date to with
  | Some f, Some t => date_leb f d && date_ltb d t
  | _, _ => false
  end.

(** [col <= bound]. *)
Definition date_on_or_before (bound : string) (d : Date) : bool :=
  match sql_date bound with
  | Some b => date_leb d b
  | None => false
  end.

(* ------------------------------------------------------------------ *)
(** ** billingEngine.js: pure helpers *)

(** [trunc100]: [Math.floor(value / 100) * 100]. *)
Definition trunc100 (input : Q) : Z := Qfloor (input / 100) * 100.

Record MonthRange := mkRange { from : string; to : string }.

(** [monthRange]; the settlement routes carry a second copy with the same
    body (the bound is called [next] there). *)
Definition monthRange (invoiceMonth : string) : MonthRange :=
  let from_ := invoiceMonth ++ "-01" in
  let parts := map Js.Number (Js.split invoiceMonth) in
  let year_ := nth 0 parts None in
  let month_ := nth 1 parts None in
  let to_ :=
    match month_ with
    | Some 12 => Js.show (option_map (fun y => y + 1) year_) ++ "-01-01"
    | _ =>
        Js.show year_ ++ "-"
          ++ Js.padStart 2 (Js.show (option_map (fun m => m + 1) month_))
          ++ "-01"
    end in
  mkRange from_ to_.

(** What [req.user] carries after authentication. *)
Record User := mkUser { sub : option Z; role : string }.

Record Request := mkRequest { user : option User }.

(** [Number(req.user?.sub || 0)], kept when finite and positive, else 1. *)
Definition authUserId (req : Request) : Z :=
  match user req with
  | Some u => match sub u with
              | Some a => if 0 <? a then a else 1
              | None => 1
              end
  | None => 1
  end.

(** [parseCreator]: the payload value when truthy, else the authenticated
    user's id, else 1. *)
Definition parseCreator (req : Request) (payloadCreatedBy : option Z) : Z :=
  match payloadCreatedBy with
  | Some c => if c =? 0 then authUserId req else c
  | None => authUserId req
  end.

(** [requireAdmin]. *)
Definition requireAdmin (req : Request) : bool :=
  match user req with
  | Some u => String.eqb (role u) "admin"
  | None => false
  end.

(* ------------------------------------------------------------------ *)
(** ** Tables *)

Inductive InvoiceStatus := draft | issued | paid.
Inductive EventStatus := PENDING | INVOICED.
Inductive PricingPolicy := THB_BASED | KRW_FIXED.
Inductive RateStatus := rate_draft | rate_active | rate_superseded.
Inductive BatchStatus := calculating | reviewed | open | closed.
Inductive ReopenStatus := requested | approved | rejected.

Definition InvoiceStatus_eqb (a b : InvoiceStatus) : bool :=
  match a, b with
  | draft, draft | issued, issued | paid, paid => true
  | _, _ => false
  end.

Record Invoice := mkInvoice {
  inv_id : Z;
  inv_settlement_batch_id : option Z;
  inv_client_id : Z;
  inv_invoice_month : option string;
  inv_invoice_no : string;
  inv_status : InvoiceStatus;
  inv_issue_date : option string;
  inv_invoice_date : option string;
  inv_due_date : option string;
  inv_currency : string;
  inv_fx_rate_thbkrw : option Q;
  inv_subtotal_krw : option Z;
  inv_vat_krw : option Z;
  inv_total_krw : option Z;
  inv_total_amount : Q;
  inv_created_by : Z;
  inv_deleted : bool
}.

Record InvoiceItem := mkItem {
  item_id : Z;
  item_invoice_id : Z;
  item_service_code : string;
  item_description : string;
  item_qty : Q;
  item_unit_price_krw : Z;
  item_amount_krw : Z;
  item_deleted : bool
}.

Record BillingEvent := mkEvent {
  be_id : Z;
  be_client_id : Z;
  be_service_code : string;
  be_event_date : Date;
  be_qty : Q;
  be_pricing_policy : PricingPolicy;
  be_unit_price_thb : option Q;
  be_amount_thb : option Q;
  be_unit_price_krw : option Q;
  be_amount_krw : option Q;
  be_fx_rate_thbkrw : option Q;
  be_status : EventStatus;
  be_invoice_id : option Z;
  be_deleted : bool
}.

Record ExchangeRate := mkRate {
  er_id : Z;
  er_rate_date : Date;
  er_base_currency : string;
  er_quote_currency : string;
  er_rate : Q;
  er_source : string;
  er_locked : Z;
  er_status : RateStatus;
  er_deleted : bool
}.

Record InvoiceSequence := mkSeq {
  seq_id : Z;
  seq_client_id : Z;
  seq_yyyymm : string;
  seq_last_seq : Z;
  seq_deleted : bool
}.

Record ServiceCatalog := mkService {
  sc_id : Z;
  sc_service_code : string;
  sc_service_name : option string;
  sc_service_name_kr : option string;
  sc_billing_basis : string;
  sc_active : bool;
  sc_deleted : bool
}.

Record SettlementBatch := mkBatch {
  sb_id : Z;
  sb_client_id : Z;
  sb_billing_month : string;
  sb_exchange_rate_id : Z;
  sb_status : BatchStatus;
  sb_total_krw : Q;
  sb_closed_by : option Z;
  sb_deleted : bool
}.

Record SettlementLine := mkLine {
  sl_id : Z;
  sl_settlement_batch_id : Z;
  sl_service_id : Z;
  sl_qty : Q;
  sl_currency : string;
  sl_unit_price : Q;
  sl_amount : Q;
  sl_source_service_event_id : Z;
  sl_deleted : bool
}.

Record InvoiceLine := mkInvoiceLine {
  il_id : Z;
  il_invoice_id : Z;
  il_settlement_line_id : Z;
  il_service_id : Z;
  il_qty : Q;
  il_currency : string;
  il_unit_price : Q;
  il_amount : Q
}.

Record ReopenRequest := mkReopen {
  rr_id : Z;
  rr_settlement_batch_id : Z;
  rr_requested_by : Z;
  rr_reason : string;
  rr_status : ReopenStatus;
  rr_approved_by : option Z;
  rr_deleted : bool
}.

Record ReopenLog := mkLog {
  log_id : Z;
  log_settlement_batch_id : Z;
  log_request_id : option Z;
  log_actor_id : Z;
  log_action : string;
  log_reason : option string
}.

Record PricePolicy := mkPolicy {
  pp_id : Z;
  pp_client_id : Z;
  pp_service_id : Z;
  pp_unit_price : Q;
  pp_currency : string;
  pp_effective_from : Date;
  pp_effective_to : option Date;
  pp_active : bool;
  pp_deleted : bool
}.

Record ServiceEvent := mkServiceEvent {
  se_id : Z;
  se_client_id : Z;
  se_service_id : Z;
  se_outbound_order_id : Z;
  se_stock_transaction_id : Z;
  se_source_type : string;
  se_basis_applied : string;
  se_qty : Q;
  se_box_count : Q;
  se_unit_price : Q;
  se_amount : Q;
  se_currency : string;
  se_deleted : bool
}.

Record Db := mkDb {
  invoices : list Invoice;
  invoice_items : list InvoiceItem;
  billing_events : list BillingEvent;
  exchange_rates : list ExchangeRate;
  invoice_sequences : list InvoiceSequence;
  service_catalog : list ServiceCatalog;
  settlement_batches : list SettlementBatch;
  settlement_lines : list SettlementLine;
  invoice_lines : list InvoiceLine;
  settlement_reopen_requests : list ReopenRequest;
  settlement_reopen_logs : list ReopenLog;
  price_policies : list PricePolicy;
  service_events : list ServiceEvent
}.

Definition with_invoices (f : list Invoice -> list Invoice) (db : Db) : Db :=
  mkDb (f (invoices db)) (invoice_items db) (billing_events db)
       (exchange_rates db) (invoice_sequences db) (service_catalog db)
       (settlement_batches db) (settlement_lines db) (invoice_lines db)
       (settlement_reopen_requests db) (settlement_reopen_logs db)
       (price_policies db) (service_events db).

Definition with_invoice_items (f : list InvoiceItem -> list InvoiceItem) (db : Db) : Db :=
  mkDb (invoices db) (f (invoice_items db)) (billing_events db)
       (exchange_rates db) (invoice_sequences db) (service_catalog db)
       (settlement_batches db) (settlement_lines db) (invoice_lines db)
       (settlement_reopen_requests db) (settlement_reopen_logs db)
       (price_policies db) (service_events db).

Definition with_billing_events (f : list BillingEvent -> list BillingEvent) (db : Db) : Db :=
  mkDb (invoices db) (invoice_items db) (f (billing_events db))
       (exchange_rates db) (invoice_sequences db) (service_catalog db)
       (settlement_batches db) (settlement_lines db) (invoice_lines db)
       (settlement_reopen_requests db) (settlement_reopen_logs db)
       (price_policies db) (service_events db).

Definition with_exchange_rates (f : list ExchangeRate -> list ExchangeRate) (db : Db) : Db :=
  mkDb (invoices db) (invoice_items db) (billing_events db)
       (f (exchange_rates db)) (invoice_sequences db) (service_catalog db)
       (settlement_batches db) (settlement_lines db) (invoice_lines db)
       (settlement_reopen_requests db) (settlement_reopen_logs db)
       (price_policies db) (service_events db).

Definition with_invoice_sequences (f : list InvoiceSequence -> list InvoiceSequence) (db : Db) : Db :=
  mkDb (invoices db) (invoice_items db) (billing_events db)
       (exchange_rates db) (f (invoice_sequences db)) (service_catalog db)
       (settlement_batches db) (settlement_lines db) (invoice_lines db)
       (settlement_reopen_requests db) (settlement_reopen_logs db)
       (price_policies db) (service_events db).

Definition with_settlement_batches (f : list SettlementBatch -> list SettlementBatch) (db : Db) : Db :=
  mkDb (invoices db) (invoice_items db) (billing_events db)
       (exchange_rates db) (invoice_sequences db) (service_catalog db)
       (f (settlement_batches db)) (settlement_lines db) (invoice_lines db)
       (settlement_reopen_requests db) (settlement_reopen_logs db)
       (price_policies db) (service_events db).

Definition with_invoice_lines (f : list InvoiceLine -> list InvoiceLine) (db : Db) : Db :=
  mkDb (invoices db) (invoice_items db) (billing_events db)
       (exchange_rates db) (invoice_sequences db) (service_catalog db)
       (settlement_batches db) (settlement_lines db) (f (invoice_lines db))
       (settlement_reopen_requests db) (settlement_reopen_logs db)
       (price_policies db) (service_events db).

Definition with_reopen_requests (f : list ReopenRequest -> list ReopenRequest) (db : Db) : Db :=
  mkDb (invoices db) (invoice_items db) (billing_events db)
       (exchange_rates db) (invoice_sequences db) (service_catalog db)
       (settlement_batches db) (settlement_lines db) (invoice_lines db)
       (f (settlement_reopen_requests db)) (settlement_reopen_logs db)
       (price_policies db) (service_events db).

Definition with_reopen_logs (f : list ReopenLog -> list ReopenLog) (db : Db) : Db :=
  mkDb (invoices db) (invoice_items db) (billing_events db)
       (exchange_rates db) (invoice_sequences db) (service_catalog db)
       (settlement_batches db) (settlement_lines db) (invoice_lines db)
       (settlement_reopen_requests db) (f (settlement_reopen_logs db))
       (price_policies db) (service_events db).

Definition with_service_events (f : list ServiceEvent -> list ServiceEvent) (db : Db) : Db :=
  mkDb (invoices db) (invoice_items db) (billing_events db)
       (exchange_rates db) (invoice_sequences db) (service_catalog db)
       (settlement_batches db) (settlement_lines db) (invoice_lines db)
       (settlement_reopen_requests db) (settlement_reopen_logs db)
       (price_policies db) (f (service_events db)).

(** [insertId] of the next INSERT into a table with the given keys. *)
Definition next_id (ids : list Z) : Z := fold_right Z.max 0 ids + 1.

(** [ORDER BY key DESC LIMIT 1] over the rows that pass the WHERE clause. *)
Fixpoint last_by {A : Type} (better : A -> A -> bool) (rows : list A) : option A :=
  match rows with
  | [] => None
  | r :: rest =>
      match last_by better rest with
      | Some r' => if better r' r then Some r' else Some r
      | None => Some r
      end
  end.

(** [ORDER BY id ASC]: insertion sort on the key. *)
Fixpoint insert_by {A : Type} (key : A -> Z) (r : A) (sorted : list A) : list A :=
  match sorted with
  | [] => [r]
  | r' :: rest => if key r <=? key r' then r :: sorted else r' :: insert_by key r rest
  end.

Definition order_by {A : Type} (key : A -> Z) (rows : list A) : list A :=
  fold_right (insert_by key) [] rows.

(* ------------------------------------------------------------------ *)
(** ** Transactions *)

(** What a transaction callback does on a connection: it returns a value,
    leaving the connection's uncommitted state, or throws. *)
Inductive Outcome (A : Type) :=
| Return (a : A) (db : Db)
| Throw (error : string).

Arguments Throw {A} error.

Definition Tx (A : Type) := Db -> Outcome A.

Definition ret {A : Type} (a : A) : Tx A := fun db => Return a db.

Definition bind {A B : Type} (m : Tx A) (k : A -> Tx B) : Tx B :=
  fun db =>
    match m db with
    | Return a db' => k a db'
    | Throw e => Throw e
    end.

Notation "x <- m ;; k" := (bind m (fun x => k))
  (at level 61, m at next level, right associativity).
Notation "m ;;; k" := (bind m (fun _ => k))
  (at level 61, right associativity).

(** [conn.query] of a SELECT. *)
Definition query {A : Type} (q : Db -> A) : Tx A := fun db => Return (q db) db.

(** [conn.query] of an INSERT or UPDATE. *)
Definition exec (w : Db -> Db) : Tx unit := fun db => Return tt (w db).

(** Modelled from the spec: [withTransaction] of services/stock.js, which is
    not among the sources. The spec makes each workflow one all-or-nothing
    transaction that is rolled back when a step fails; the callers hand it a
    callback, take the callback's own value back and catch what it throws.
    So: the callback returning commits the connection's state, the callback
    throwing restores the state from before and passes the error on. *)
Definition withTransaction {A : Type} (work : Tx A) (db : Db) : Db * (A + string) :=
  match work db with
  | Return a db' => (db', inl a)
  | Throw e => (db, inr e)
  end.

(** The [{ ok, data }] and [{ ok: false, code, message }] values that the
    callbacks of the billing routes return. *)
Inductive Result (A : Type) :=
| Ok (data : A)
| Fail (code : string).

Arguments Fail {A} code.

(** The HTTP answer: status and either the data or the error code (the
    message when the body carries no code). *)
Inductive Response (A : Type) :=
| Success (http : Z) (data : A)
| Failure (http : Z) (code : string).

Arguments Failure {A} http code.

(** The tail shared by the transactional routes:
    [if (!result.ok) return res.status(400).json(result); return res.json(result)]
    inside [try], and [res.status(500)] in [catch]. *)
Definition respond {A : Type} (okStatus : Z) (r : Db * (Result A + string)) : Db * Response A :=
  match r with
  | (db, inl (Ok d)) => (db, Success okStatus d)
  | (db, inl (Fail code)) => (db, Failure 400 code)
  | (db, inr e) => (db, Failure 500 e)
  end.

(** The [validate] middleware: a body that the schema refuses is answered
    with 400 VALIDATION_ERROR before the route runs; otherwise the route
    runs on the parsed body. *)
Definition validate {B P A : Type} (schema : B -> option P)
           (route : P -> Db -> Db * Response A) (body : B) (db : Db) : Db * Response A :=
  match schema body with
  | None => (db, Failure 400 "VALIDATION_ERROR")
  | Some payload => route payload db
  end.

(* ------------------------------------------------------------------ *)
(** ** Request validation (zod schemas behind the [validate] middleware) *)

Module Schema.

(** [\d]. *)
Definition is_digit (c : ascii) : bool :=
  match c with
  | "0" | "1" | "2" | "3" | "4" | "5" | "6" | "7" | "8" | "9" => true
  | _ => false
  end%char.

(** A pattern is a string in which ["d"] stands for [\d] and any other
    character for itself; the match is anchored at both ends. *)
Fixpoint matches (pattern s : string) : bool :=
  match pattern, s with
  | EmptyString, EmptyString => true
  | String p pattern', String c s' =>
      (if Ascii.eqb p "d" then is_digit c else Ascii.eqb p c) && matches pattern' s'
  | _, _ => false
  end.

(** [z.string().regex(/^\d{4}-\d{2}$/)]. *)
Definition month_string (v : option string) : option string :=
  match v with
  | Some s => if matches "dddd-dd" s then Some s else None
  | None => None
  end.

(** [z.string().regex(/^\d{4}-\d{2}-\d{2}$/)]. *)
Definition date_string (v : option string) : option string :=
  match v with
  | Some s => if matches "dddd-dd-dd" s then Some s else None
  | None => None
  end.

(** [z.coerce.number().int().positive()]: a missing value coerces to NaN
    and is refused. *)
Definition positive_int (v : option Z) : option Z :=
  match v with
  | Some n => if 0 <? n then Some n else None
  | None => None
  end.

(** [z.coerce.number().int().positive().optional()]: [Some None] is an
    accepted missing value. *)
Definition optional_positive_int (v : option Z) : option (option Z) :=
  match v with
  | Some n => if 0 <? n then Some (Some n) else None
  | None => Some None
  end.

(** [z.coerce.number().int().min(0).max(1).default(0)]. *)
Definition flag_default0 (v : option Z) : option Z :=
  match v with
  | Some n => if (0 <=? n) && (n <=? 1) then Some n else None
  | None => Some 0
  end.

End Schema.

(* ------------------------------------------------------------------ *)
(** ** The invoice generator (POST /billing/invoices/generate) *)

Record GenerateBody := mkGenerateBody {
  body_client_id : option Z;
  body_invoice_month : option string;
  body_invoice_date : option string;
  body_regenerate_draft : option Z;
  body_created_by : option Z
}.

Record GeneratePayload := mkGeneratePayload {
  client_id : Z;
  invoice_month : string;
  invoice_date : string;
  regenerate_draft : Z;
  created_by : option Z
}.

(** [generateInvoiceSchema]. *)
Definition generateInvoiceSchema (body : GenerateBody) : option GeneratePayload :=
  match Schema.positive_int (body_client_id body),
        Schema.month_string (body_invoice_month body),
        Schema.date_string (body_invoice_date body),
        Schema.flag_default0 (body_regenerate_draft body),
        Schema.optional_positive_int (body_created_by body) with
  | Some c, Some m, Some d, Some r, Some cb => Some (mkGeneratePayload c m d r cb)
  | _, _, _, _, _ => None
  end.

Inductive GenerateData :=
| Reused (invoice_id : Z)
| Generated (invoice : option Invoice) (events_count : nat) (fx_rate_id : Z).

Definition month_is (m : option string) (s : string) : bool :=
  match m with
  | Some m' => String.eqb m' s
  | None => false
  end.

Definition by_id_desc {A : Type} (key : A -> Z) (a b : A) : bool := key b <=? key a.

(** The newest live invoice of the client for the month
    ([ORDER BY id DESC LIMIT 1 FOR UPDATE]). *)
Definition existing_invoice (clientId : Z) (invoiceMonth : string) (db : Db) : option Invoice :=
  last_by (by_id_desc inv_id)
    (filter (fun i => (inv_client_id i =? clientId)
                      && month_is (inv_invoice_month i) invoiceMonth
                      && negb (inv_deleted i))
            (invoices db)).

Definition release_event (e : BillingEvent) : BillingEvent :=
  mkEvent (be_id e) (be_client_id e) (be_service_code e) (be_event_date e) (be_qty e)
          (be_pricing_policy e) (be_unit_price_thb e) (be_amount_thb e)
          (be_unit_price_krw e) (be_amount_krw e) None PENDING None (be_deleted e).

Definition invoice_id_is (v : option Z) (id : Z) : bool :=
  match v with
  | Some i => i =? id
  | None => false
  end.

(** [UPDATE billing_events SET status = 'PENDING', invoice_id = NULL,
    fx_rate_thbkrw = NULL WHERE invoice_id = ? AND deleted_at IS NULL]. *)
Definition release_events_of (invoiceId : Z) : Db -> Db :=
  with_billing_events
    (map (fun e => if invoice_id_is (be_invoice_id e) invoiceId && negb (be_deleted e)
                   then release_event e else e)).

Definition delete_item (i : InvoiceItem) : InvoiceItem :=
  mkItem (item_id i) (item_invoice_id i) (item_service_code i) (item_description i)
         (item_qty i) (item_unit_price_krw i) (item_amount_krw i) true.

Definition tombstone_items_of (invoiceId : Z) : Db -> Db :=
  with_invoice_items
    (map (fun i => if (item_invoice_id i =? invoiceId) && negb (item_deleted i)
                   then delete_item i else i)).

Definition delete_invoice (i : Invoice) : Invoice :=
  mkInvoice (inv_id i) (inv_settlement_batch_id i) (inv_client_id i) (inv_invoice_month i)
            (inv_invoice_no i) (inv_status i) (inv_issue_date i) (inv_invoice_date i)
            (inv_due_date i) (inv_currency i) (inv_fx_rate_thbkrw i) (inv_subtotal_krw i)
            (inv_vat_krw i) (inv_total_krw i) (inv_total_amount i) (inv_created_by i) true.

Definition tombstone_invoice (invoiceId : Z) : Db -> Db :=
  with_invoices (map (fun i => if inv_id i =? invoiceId then delete_invoice i else i)).

Definition rate_newer (a b : ExchangeRate) : bool :=
  match date_compare (er_rate_date a) (er_rate_date b) with
  | Gt => true
  | Eq => er_id b <=? er_id a
  | Lt => false
  end.

(** The latest active THB/KRW rate on or before the invoice date
    ([ORDER BY rate_date DESC, id DESC LIMIT 1 FOR UPDATE]). *)
Definition rate_on_or_before (invoiceDate : string) (db : Db) : option ExchangeRate :=
  last_by rate_newer
    (filter (fun r => String.eqb (er_base_currency r) "THB"
                      && String.eqb (er_quote_currency r) "KRW"
                      && negb (er_deleted r)
                      && match er_status r with rate_active => true | _ => false end
                      && date_on_or_before invoiceDate (er_rate_date r))
            (exchange_rates db)).

Definition lock_rate (r : ExchangeRate) : ExchangeRate :=
  mkRate (er_id r) (er_rate_date r) (er_base_currency r) (er_quote_currency r)
         (er_rate r) (er_source r) 1 (er_status r) (er_deleted r).

(** [UPDATE exchange_rates SET locked = 1 WHERE id = ?]. *)
Definition lock_rate_id (fxRateId : Z) : Db -> Db :=
  with_exchange_rates (map (fun r => if er_id r =? fxRateId then lock_rate r else r)).

(** The PENDING events of the client inside the month window
    ([ORDER BY id ASC FOR UPDATE]). *)
Definition pending_events (clientId : Z) (range : MonthRange) (db : Db) : list BillingEvent :=
  order_by be_id
    (filter (fun e => (be_client_id e =? clientId)
                      && match be_status e with PENDING => true | INVOICED => false end
                      && negb (be_deleted e)
                      && date_in_range (from range) (to range) (be_event_date e))
            (billing_events db)).

Definition same_key (clientId : Z) (yyyymm : string) (r : InvoiceSequence) : bool :=
  (seq_client_id r =? clientId) && String.eqb (seq_yyyymm r) yyyymm && negb (seq_deleted r).

Definition set_last_seq (n : Z) (r : InvoiceSequence) : InvoiceSequence :=
  mkSeq (seq_id r) (seq_client_id r) (seq_yyyymm r) n (seq_deleted r).

(** [resolveInvoiceSequence]. *)
Definition resolveInvoiceSequence (clientId : Z) (yyyymm : string) : Tx Z :=
  seqRows <- query (fun db => find (same_key clientId yyyymm) (invoice_sequences db)) ;;
  match seqRows with
  | None =>
      exec (with_invoice_sequences
              (fun t => (t ++ [mkSeq (next_id (map seq_id t)) clientId yyyymm 1 false])%list)) ;;;
      ret 1
  | Some row =>
      let nextSeq := seq_last_seq row + 1 in
      exec (with_invoice_sequences
              (map (fun r => if seq_id r =? seq_id row then set_last_seq nextSeq r else r))) ;;;
      ret nextSeq
  end.

(** [`KRW-${clientId}-${yyyymm}-${String(nextSeq).padStart(4, "0")}`] and its
    [INV-] sibling of the settlement route. *)
Definition invoice_number (prefix : string) (clientId : Z) (yyyymm : string) (nextSeq : Z) : string :=
  prefix ++ "-" ++ Js.toString clientId ++ "-" ++ yyyymm ++ "-"
         ++ Js.padStart 4 (Js.toString nextSeq).

(** INSERT into invoices; yields [insertId]. *)
Definition insert_invoice (row : Z -> Invoice) : Tx Z :=
  fun db =>
    let id := next_id (map inv_id (invoices db)) in
    Return id (with_invoices (fun t => (t ++ [row id])%list) db).

Definition insert_item (row : Z -> InvoiceItem) : Tx unit :=
  exec (with_invoice_items (fun t => (t ++ [row (next_id (map item_id t))])%list)).

(** [COALESCE(service_name, service_name_kr)]. *)
Definition coalesce_name (s : ServiceCatalog) : option string :=
  match sc_service_name s with
  | Some n => Some n
  | None => sc_service_name_kr s
  end.

(** [serviceNameMap.get(serviceCode) || serviceCode]: the map is built from
    the live catalog rows, a later row replacing an earlier one. *)
Definition service_description (catalog : list ServiceCatalog) (serviceCode : string) : string :=
  match find (fun s => String.eqb (sc_service_code s) serviceCode)
             (rev (filter (fun s => negb (sc_deleted s)) catalog)) with
  | Some s => match coalesce_name s with
              | Some n => if String.eqb n "" then serviceCode else n
              | None => serviceCode
              end
  | None => serviceCode
  end.

(** The per-event normalisation to KRW. *)
Definition normalizedAmount (fx : Q) (event : BillingEvent) : Z :=
  match be_pricing_policy event with
  | THB_BASED =>
      let amountThb :=
        match be_amount_thb event with
        | Some a => a
        | None => (Js.orZero (be_unit_price_thb event) * be_qty event)%Q
        end in
      trunc100 (amountThb * fx)%Q
  | KRW_FIXED =>
      let amountKrw :=
        match be_amount_krw event with
        | Some a => a
        | None => (Js.orZero (be_unit_price_krw event) * be_qty event)%Q
        end in
      trunc100 amountKrw
  end.

Definition mark_invoiced (amount : Z) (fx : Q) (invoiceId : Z) (e : BillingEvent) : BillingEvent :=
  mkEvent (be_id e) (be_client_id e) (be_service_code e) (be_event_date e) (be_qty e)
          (be_pricing_policy e) (be_unit_price_thb e) (be_amount_thb e)
          (be_unit_price_krw e) (Some (inject_Z amount)) (Some fx) INVOICED
          (Some invoiceId) (be_deleted e).

(** One entry of the [grouped] map. *)
Record Agg := mkAgg { agg_qty : Q; agg_amount_krw : Z }.

(** [grouped.has / set / get] followed by the two [+=]; the map keeps its
    keys in insertion order. *)
Fixpoint group_add (serviceCode : string) (qty : Q) (amount : Z)
         (grouped : list (string * Agg)) : list (string * Agg) :=
  match grouped with
  | [] => [(serviceCode, mkAgg (0 + qty)%Q (0 + amount))]
  | (c, a) :: rest =>
      if String.eqb c serviceCode
      then (c, mkAgg (agg_qty a + qty)%Q (agg_amount_krw a + amount)) :: rest
      else (c, a) :: group_add serviceCode qty amount rest
  end.

(** [for (const event of events)]. *)
Fixpoint invoice_events (fx : Q) (invoiceId : Z) (events : list BillingEvent)
         (grouped : list (string * Agg)) : Tx (list (string * Agg)) :=
  match events with
  | [] => ret grouped
  | event :: rest =>
      let amount := normalizedAmount fx event in
      exec (with_billing_events
              (map (fun e => if be_id e =? be_id event
                             then mark_invoiced amount fx invoiceId e else e))) ;;;
      invoice_events fx invoiceId rest
        (group_add (be_service_code event) (be_qty event) amount grouped)
  end.

Definition Qpositive (q : Q) : bool := negb (Qle_bool q 0).

Definition lineAmount (agg : Agg) : Z := trunc100 (inject_Z (agg_amount_krw agg)).

Definition unitDisplay (agg : Agg) : Z :=
  if Qpositive (agg_qty agg)
  then trunc100 (inject_Z (lineAmount agg) / agg_qty agg)%Q
  else lineAmount agg.

Definition service_item (invoiceId : Z) (catalog : list ServiceCatalog)
           (serviceCode : string) (agg : Agg) (id : Z) : InvoiceItem :=
  mkItem id invoiceId serviceCode (service_description catalog serviceCode)
         (agg_qty agg) (unitDisplay agg) (lineAmount agg) false.

(** [for (const [serviceCode, agg] of grouped.entries())]; yields the
    running [subtotalKrw]. *)
Fixpoint insert_items (invoiceId : Z) (catalog : list ServiceCatalog)
         (grouped : list (string * Agg)) (subtotalKrw : Z) : Tx Z :=
  match grouped with
  | [] => ret subtotalKrw
  | (serviceCode, agg) :: rest =>
      insert_item (service_item invoiceId catalog serviceCode agg) ;;;
      insert_items invoiceId catalog rest (subtotalKrw + lineAmount agg)
  end.

Definition vat_item (invoiceId vatKrw : Z) (id : Z) : InvoiceItem :=
  mkItem id invoiceId "VAT_7" "VAT 7%" 1%Q vatKrw vatKrw false.

Definition set_totals (subtotalKrw vatKrw totalKrw : Z) (i : Invoice) : Invoice :=
  mkInvoice (inv_id i) (inv_settlement_batch_id i) (inv_client_id i) (inv_invoice_month i)
            (inv_invoice_no i) (inv_status i) (inv_issue_date i) (inv_invoice_date i)
            (inv_due_date i) (inv_currency i) (inv_fx_rate_thbkrw i) (Some subtotalKrw)
            (Some vatKrw) (Some totalKrw) (inject_Z totalKrw) (inv_created_by i)
            (inv_deleted i).

Definition invoice_by_id (invoiceId : Z) (db : Db) : option Invoice :=
  find (fun i => inv_id i =? invoiceId) (invoices db).

(** The callback from the exchange-rate lookup on: what runs when no live
    invoice exists, or after the old draft has been taken apart. *)
Definition generate_fresh (createdBy : Z) (payload : GeneratePayload) (range : MonthRange)
  : Tx (Result GenerateData) :=
  fxRows <- query (rate_on_or_before (invoice_date payload)) ;;
  match fxRows with
  | None => ret (Fail "FX_NOT_FOUND")
  | Some fxRow =>
      let fxRateId := er_id fxRow in
      let fx := er_rate fxRow in
      exec (lock_rate_id fxRateId) ;;;
      events <- query (pending_events (client_id payload) range) ;;
      match events with
      | [] => ret (Fail "NO_PENDING_EVENTS")
      | _ :: _ =>
          let yyyymm := Js.replaceDash (invoice_month payload) in
          nextSeq <- resolveInvoiceSequence (client_id payload) yyyymm ;;
          let invoiceNo := invoice_number "KRW" (client_id payload) yyyymm nextSeq in
          invoiceId <- insert_invoice (fun id =>
            mkInvoice id None (client_id payload) (Some (invoice_month payload)) invoiceNo
                      draft (Some (invoice_date payload)) (Some (invoice_date payload))
                      (Some (invoice_date payload)) "KRW" (Some fx) (Some 0) (Some 0)
                      (Some 0) 0%Q createdBy false) ;;
          catalog <- query service_catalog ;;
          grouped <- invoice_events fx invoiceId events [] ;;
          subtotal0 <- insert_items invoiceId catalog grouped 0 ;;
          let subtotalKrw := trunc100 (inject_Z subtotal0) in
          let vatKrw := trunc100 (inject_Z subtotalKrw * (7 # 100))%Q in
          let totalKrw := trunc100 (inject_Z (subtotalKrw + vatKrw)) in
          insert_item (vat_item invoiceId vatKrw) ;;;
          exec (with_invoices
                  (map (fun i => if inv_id i =? invoiceId
                                 then set_totals subtotalKrw vatKrw totalKrw i else i))) ;;;
          invoiceRows <- query (invoice_by_id invoiceId) ;;
          ret (Ok (Generated invoiceRows (List.length events) fxRateId))
      end
  end.

(** The transaction callback of the route. *)
Definition generate_work (req : Request) (payload : GeneratePayload) : Tx (Result GenerateData) :=
  let createdBy := parseCreator req (created_by payload) in
  let range := monthRange (invoice_month payload) in
  existingRows <- query (existing_invoice (client_id payload) (invoice_month payload)) ;;
  match existingRows with
  | Some existing =>
      if negb (InvoiceStatus_eqb (inv_status existing) draft)
      then ret (Fail "INVOICE_ALREADY_ISSUED")
      else if regenerate_draft payload =? 0
      then ret (Ok (Reused (inv_id existing)))
      else
        exec (release_events_of (inv_id existing)) ;;;
        exec (tombstone_items_of (inv_id existing)) ;;;
        exec (tombstone_invoice (inv_id existing)) ;;;
        generate_fresh createdBy payload range
  | None => generate_fresh createdBy payload range
  end.

(** POST /billing/invoices/generate, behind [validate(generateInvoiceSchema)]. *)
Definition generate (req : Request) : GenerateBody -> Db -> Db * Response GenerateData :=
  validate generateInvoiceSchema
    (fun payload db => respond 200 (withTransaction (generate_work req payload) db)).


(* ------------------------------------------------------------------ *)
(** ** The generator's loops as table transformers *)

(** The number [resolveInvoiceSequence] hands out next. *)
Definition next_in (clientId : Z) (yyyymm : string) (t : list InvoiceSequence) : Z :=
  match find (same_key clientId yyyymm) t with
  | None => 1
  | Some row => seq_last_seq row + 1
  end.

Definition next_sequence (clientId : Z) (yyyymm : string) (db : Db) : Z :=
  next_in clientId yyyymm (invoice_sequences db).

Definition bump_sequence (clientId : Z) (yyyymm : string) (t : list InvoiceSequence)
  : list InvoiceSequence :=
  match find (same_key clientId yyyymm) t with
  | None => (t ++ [mkSeq (next_id (map seq_id t)) clientId yyyymm 1 false])%list
  | Some row =>
      map (fun r => if seq_id r =? seq_id row
                    then set_last_seq (seq_last_seq row + 1) r else r) t
  end.

Definition grouped_of (fx : Q) (events : list BillingEvent) (grouped : list (string * Agg))
  : list (string * Agg) :=
  fold_left (fun g e => group_add (be_service_code e) (be_qty e) (normalizedAmount fx e) g)
            events grouped.

Fixpoint mark_all (fx : Q) (invoiceId : Z) (events t : list BillingEvent) : list BillingEvent :=
  match events with
  | [] => t
  | event :: rest =>
      mark_all fx invoiceId rest
        (map (fun e => if be_id e =? be_id event
                       then mark_invoiced (normalizedAmount fx event) fx invoiceId e else e) t)
  end.

Definition sum_lines (grouped : list (string * Agg)) : Z :=
  fold_right (fun g acc => lineAmount (snd g) + acc) 0 grouped.

Fixpoint append_items (invoiceId : Z) (catalog : list ServiceCatalog)
         (grouped : list (string * Agg)) (t : list InvoiceItem) : list InvoiceItem :=
  match grouped with
  | [] => t
  | (serviceCode, agg) :: rest =>
      append_items invoiceId catalog rest
        (t ++ [service_item invoiceId catalog serviceCode agg (next_id (map item_id t))])%list
  end.


(** The invoice row that a fresh generation inserts, before its totals. *)
Definition draft_row (createdBy : Z) (payload : GeneratePayload) (fx : Q) (nextSeq : Z)
           (id : Z) : Invoice :=
  mkInvoice id None (client_id payload) (Some (invoice_month payload))
            (invoice_number "KRW" (client_id payload)
                            (Js.replaceDash (invoice_month payload)) nextSeq)
            draft (Some (invoice_date payload)) (Some (invoice_date payload))
            (Some (invoice_date payload)) "KRW" (Some fx) (Some 0) (Some 0)
            (Some 0) 0%Q createdBy false.

(** Subtotal, VAT and total as the route computes them from the groups. *)
Definition subtotal_of (grouped : list (string * Agg)) : Z :=
  trunc100 (inject_Z (0 + sum_lines grouped)).

Definition vat_of (grouped : list (string * Agg)) : Z :=
  trunc100 (inject_Z (subtotal_of grouped) * (7 # 100))%Q.

Definition total_of (grouped : list (string * Agg)) : Z :=
  trunc100 (inject_Z (subtotal_of grouped + vat_of grouped)).

(** The live items of an invoice, as GET /billing/invoices/:id lists them. *)
Definition items_of (invoiceId : Z) (db : Db) : list InvoiceItem :=
  filter (fun i => (item_invoice_id i =? invoiceId) && negb (item_deleted i))
         (invoice_items db).

Definition sum_amounts (items : list InvoiceItem) : Z :=
  fold_right (fun i acc => item_amount_krw i + acc) 0 items.

(** Foreign key of invoice_items: every item belongs to an invoice row. *)
Definition items_belong (db : Db) : Prop :=
  incl (map item_invoice_id (invoice_items db)) (map inv_id (invoices db)).

(** The scenario of the specification: client 7, month 2026-02, one THB
    event of 120 THB, rate 40. *)
Definition scenario_event : BillingEvent :=
  mkEvent 1 7 "TH_SHIPPING" (mkDate 2026 2 3) 1%Q THB_BASED (Some 120%Q) (Some 120%Q)
          None None None PENDING None false.

Definition scenario_rate : ExchangeRate :=
  mkRate 1 (mkDate 2026 2 1) "THB" "KRW" 40%Q "manual" 0 rate_active false.

Definition scenario_db : Db :=
  mkDb [] [] [scenario_event] [scenario_rate] [] [] [] [] [] [] [] [] [].

Definition scenario_body : GenerateBody :=
  mkGenerateBody (Some 7) (Some "2026-02") (Some "2026-02-28") None None.

Definition anonymous : Request := mkRequest None.



(** The scenario once generated, and a request to regenerate its draft with
    an invoice date that precedes every exchange rate. *)
Definition generated_db : Db := fst (generate anonymous scenario_body scenario_db).


(* ------------------------------------------------------------------ *)
(** ** Settlement routes *)

Record IssueBody := mkIssueBody {
  ib_settlement_batch_id : option Z;
  ib_issue_date : option string;
  ib_due_date : option string;
  ib_created_by : option Z
}.

Record IssuePayload := mkIssuePayload {
  settlement_batch_id : Z;
  issue_date : string;
  due_date : string;
  issue_created_by : Z
}.

(** [issueInvoiceSchema]. *)
Definition issueInvoiceSchema (body : IssueBody) : option IssuePayload :=
  match Schema.positive_int (ib_settlement_batch_id body),
        Schema.date_string (ib_issue_date body),
        Schema.date_string (ib_due_date body),
        Schema.positive_int (ib_created_by body) with
  | Some b, Some i, Some d, Some c => Some (mkIssuePayload b i d c)
  | _, _, _, _ => None
  end.

Record IssueData := mkIssueData {
  issued_invoice : option Invoice;
  lines_count : nat;
  reused : bool
}.

Definition live_batch (batchId : Z) (db : Db) : option SettlementBatch :=
  find (fun b => (sb_id b =? batchId) && negb (sb_deleted b)) (settlement_batches db).

Definition invoice_of_batch (batchId : Z) (db : Db) : option Invoice :=
  find (fun i => invoice_id_is (inv_settlement_batch_id i) batchId && negb (inv_deleted i))
       (invoices db).

Definition lines_of_batch (batchId : Z) (db : Db) : list SettlementLine :=
  order_by sl_id
    (filter (fun l => (sl_settlement_batch_id l =? batchId) && negb (sl_deleted l))
            (settlement_lines db)).

Definition invoice_line (invoiceId : Z) (line : SettlementLine) (id : Z) : InvoiceLine :=
  mkInvoiceLine id invoiceId (sl_id line) (sl_service_id line) (sl_qty line)
                (sl_currency line) (sl_unit_price line) (sl_amount line).

(** [for (const line of settlementLines)]. *)
Fixpoint copy_lines (invoiceId : Z) (settlementLines : list SettlementLine) : Tx unit :=
  match settlementLines with
  | [] => ret tt
  | line :: rest =>
      exec (with_invoice_lines
              (fun t => (t ++ [invoice_line invoiceId line (next_id (map il_id t))])%list)) ;;;
      copy_lines invoiceId rest
  end.

(** The callback of POST /invoices/issue. The sequence is allocated by the
    same statements as in [resolveInvoiceSequence], written out in the route. *)
Definition issue_work (payload : IssuePayload) : Tx (Result IssueData) :=
  batchRows <- query (live_batch (settlement_batch_id payload)) ;;
  match batchRows with
  | None => ret (Fail "BATCH_NOT_FOUND")
  | Some batch =>
      existingInvoice <- query (invoice_of_batch (sb_id batch)) ;;
      match existingInvoice with
      | Some existing => ret (Ok (mkIssueData (Some existing) 0 true))
      | None =>
          let yyyymm := Js.replaceDash (sb_billing_month batch) in
          seqRows <- query (fun db => find (same_key (sb_client_id batch) yyyymm)
                                           (invoice_sequences db)) ;;
          nextSeq <-
            match seqRows with
            | None =>
                exec (with_invoice_sequences
                        (fun t => (t ++ [mkSeq (next_id (map seq_id t))
                                               (sb_client_id batch) yyyymm 1 false])%list)) ;;;
                ret 1
            | Some row =>
                exec (with_invoice_sequences
                        (map (fun r => if seq_id r =? seq_id row
                                       then set_last_seq (seq_last_seq row + 1) r else r))) ;;;
                ret (seq_last_seq row + 1)
            end ;;
          let invoiceNo := invoice_number "INV" (sb_client_id batch) yyyymm nextSeq in
          invoiceId <- insert_invoice (fun id =>
            mkInvoice id (Some (sb_id batch)) (sb_client_id batch) None invoiceNo issued
                      (Some (issue_date payload)) None (Some (due_date payload)) "KRW"
                      None None None None (sb_total_krw batch)
                      (issue_created_by payload) false) ;;
          settlementLines <- query (lines_of_batch (sb_id batch)) ;;
          copy_lines invoiceId settlementLines ;;;
          invoiceRows <- query (invoice_by_id invoiceId) ;;
          ret (Ok (mkIssueData invoiceRows (List.length settlementLines) false))
      end
  end.

(** POST /invoices/issue. *)
Definition issue : IssueBody -> Db -> Db * Response IssueData :=
  validate issueInvoiceSchema
    (fun payload db => respond 200 (withTransaction (issue_work payload) db)).

(** A reviewed batch of client 7 for 2026-02 with no invoice yet. *)
Definition batch_db : Db :=
  mkDb [] [] [] [scenario_rate] [] []
       [mkBatch 1 7 "2026-02" 1 reviewed 15300%Q None false]
       [] [] [] [] [] [].

Definition batch_issue_body : IssueBody :=
  mkIssueBody (Some 1) (Some "2026-03-01") (Some "2026-03-31") (Some 9).

(** The rows that [copy_lines] appends to invoice_lines. *)
Fixpoint append_lines (invoiceId : Z) (settlementLines : list SettlementLine)
         (t : list InvoiceLine) : list InvoiceLine :=
  match settlementLines with
  | [] => t
  | line :: rest =>
      append_lines invoiceId rest
        (t ++ [invoice_line invoiceId line (next_id (map il_id t))])%list
  end.

(** The invoice row that the settlement route inserts. *)
Definition issued_row (payload : IssuePayload) (batch : SettlementBatch) (nextSeq : Z)
           (id : Z) : Invoice :=
  mkInvoice id (Some (sb_id batch)) (sb_client_id batch) None
            (invoice_number "INV" (sb_client_id batch)
                            (Js.replaceDash (sb_billing_month batch)) nextSeq)
            issued (Some (issue_date payload)) None (Some (due_date payload)) "KRW"
            None None None None (sb_total_krw batch) (issue_created_by payload) false.

(** A run of allocations, one per key of the list, on the sequence table. *)
Definition allocate_all (keys : list (Z * string)) (t : list InvoiceSequence)
  : list InvoiceSequence :=
  fold_left (fun t' k => bump_sequence (fst k) (snd k) t') keys t.

Definition key_eqb (a b : Z * string) : bool :=
  (fst a =? fst b) && String.eqb (snd a) (snd b).

Definition allocations_of (k : Z * string) (keys : list (Z * string)) : Z :=
  Z.of_nat (List.length (filter (key_eqb k) keys)).

Record CloseBody := mkCloseBody {
  cb_closed_by : option Z;
  cb_reason : option string
}.

Record ClosePayload := mkClosePayload {
  closed_by : Z;
  close_reason : option string
}.

(** [closeBatchSchema]. *)
Definition closeBatchSchema (body : CloseBody) : option ClosePayload :=
  match Schema.positive_int (cb_closed_by body) with
  | Some c => if match cb_reason body with
                 | Some r => (String.length r <=? 2000)%nat
                 | None => true
                 end
              then Some (mkClosePayload c (cb_reason body)) else None
  | None => None
  end.

Record ReopenBody := mkReopenBody {
  rb_requested_by : option Z;
  rb_reason : option string
}.

Record ReopenPayload := mkReopenPayload {
  requested_by : Z;
  reopen_reason : string
}.

(** [reopenRequestSchema]. *)
Definition reopenRequestSchema (body : ReopenBody) : option ReopenPayload :=
  match Schema.positive_int (rb_requested_by body), rb_reason body with
  | Some c, Some r =>
      if (1 <=? String.length r)%nat && (String.length r <=? 2000)%nat
      then Some (mkReopenPayload c r) else None
  | _, _ => None
  end.

Record DecisionBody := mkDecisionBody {
  db_approved_by : option Z;
  db_reason : option string
}.

Record DecisionPayload := mkDecisionPayload {
  approved_by : Z;
  decision_reason : option string
}.

(** [reopenDecisionSchema]. *)
Definition reopenDecisionSchema (body : DecisionBody) : option DecisionPayload :=
  match Schema.positive_int (db_approved_by body) with
  | Some c => if match db_reason body with
                 | Some r => (String.length r <=? 2000)%nat
                 | None => true
                 end
              then Some (mkDecisionPayload c (db_reason body)) else None
  | None => None
  end.

(** [value || null] on a nullable string. *)
Definition or_null (v : option string) : option string :=
  match v with
  | Some s => if String.eqb s "" then None else Some s
  | None => None
  end.

Definition set_batch_status (status : BatchStatus) (closedBy : option Z)
           (b : SettlementBatch) : SettlementBatch :=
  mkBatch (sb_id b) (sb_client_id b) (sb_billing_month b) (sb_exchange_rate_id b)
          status (sb_total_krw b) closedBy (sb_deleted b).

Definition insert_log (batchId : Z) (requestId : option Z) (actor : Z) (action : string)
           (reason : option string) : Tx unit :=
  exec (with_reopen_logs
          (fun t => (t ++ [mkLog (next_id (map log_id t)) batchId requestId actor action
                                 reason])%list)).

(** The callback of POST /settlement-batches/:id/close. *)
Definition close_work (batchId : Z) (payload : ClosePayload)
  : Tx (Result (option SettlementBatch)) :=
  rows <- query (live_batch batchId) ;;
  match rows with
  | None => ret (Fail "BATCH_NOT_FOUND")
  | Some row =>
      match sb_status row with
      | closed => ret (Fail "ALREADY_CLOSED")
      | calculating => ret (Fail "INVALID_STATUS")
      | reviewed | open =>
          exec (with_settlement_batches
                  (map (fun b => if sb_id b =? batchId
                                 then set_batch_status closed (Some (closed_by payload)) b
                                 else b))) ;;;
          insert_log batchId None (closed_by payload) "close" (or_null (close_reason payload)) ;;;
          batchRows <- query (fun db => find (fun b => sb_id b =? batchId)
                                             (settlement_batches db)) ;;
          ret (Ok batchRows)
      end
  end.

Definition close (batchId : Z) : CloseBody -> Db -> Db * Response (option SettlementBatch) :=
  validate closeBatchSchema
    (fun payload db => respond 200 (withTransaction (close_work batchId payload) db)).

Definition is_requested (r : ReopenRequest) : bool :=
  match rr_status r with requested => true | _ => false end.

(** The live requests of a batch that are still waiting for a decision. *)
Definition outstanding (batchId : Z) (db : Db) : list ReopenRequest :=
  filter (fun r => (rr_settlement_batch_id r =? batchId) && is_requested r
                   && negb (rr_deleted r))
         (settlement_reopen_requests db).

Definition request_by_id (requestId : Z) (db : Db) : option ReopenRequest :=
  find (fun r => rr_id r =? requestId) (settlement_reopen_requests db).

(** The callback of POST /settlement-batches/:id/reopen-requests. *)
Definition reopen_request_work (batchId : Z) (payload : ReopenPayload)
  : Tx (Result (option ReopenRequest)) :=
  batchRows <- query (live_batch batchId) ;;
  match batchRows with
  | None => ret (Fail "BATCH_NOT_FOUND")
  | Some batch =>
      match sb_status batch with
      | closed =>
          pendingRows <- query (fun db =>
            find (fun r => (rr_settlement_batch_id r =? batchId) && is_requested r
                           && negb (rr_deleted r))
                 (settlement_reopen_requests db)) ;;
          match pendingRows with
          | Some _ => ret (Fail "REQUEST_EXISTS")
          | None =>
              created <- (fun db =>
                let id := next_id (map rr_id (settlement_reopen_requests db)) in
                Return id
                  (with_reopen_requests
                     (fun t => (t ++ [mkReopen id batchId (requested_by payload)
                                              (reopen_reason payload) requested None
                                              false])%list) db)) ;;
              rows <- query (request_by_id created) ;;
              ret (Ok rows)
          end
      | _ => ret (Fail "INVALID_STATUS")
      end
  end.

Definition reopen_request (batchId : Z)
  : ReopenBody -> Db -> Db * Response (option ReopenRequest) :=
  validate reopenRequestSchema
    (fun payload db => respond 201 (withTransaction (reopen_request_work batchId payload) db)).

Definition live_request (requestId : Z) (db : Db) : option ReopenRequest :=
  find (fun r => (rr_id r =? requestId) && negb (rr_deleted r))
       (settlement_reopen_requests db).

Definition decide_request (status : ReopenStatus) (approvedBy : Z) (r : ReopenRequest)
  : ReopenRequest :=
  mkReopen (rr_id r) (rr_settlement_batch_id r) (rr_requested_by r) (rr_reason r)
           status (Some approvedBy) (rr_deleted r).

(** The callback of POST /settlement-reopen-requests/:id/approve. *)
Definition approve_work (requestId : Z) (payload : DecisionPayload)
  : Tx (Result (option ReopenRequest)) :=
  reqRows <- query (live_request requestId) ;;
  match reqRows with
  | None => ret (Fail "REQUEST_NOT_FOUND")
  | Some reqRow =>
      if negb (is_requested reqRow) then ret (Fail "INVALID_STATUS")
      else
        exec (with_reopen_requests
                (map (fun r => if rr_id r =? requestId
                               then decide_request approved (approved_by payload) r
                               else r))) ;;;
        exec (with_settlement_batches
                (map (fun b => if sb_id b =? rr_settlement_batch_id reqRow
                               then set_batch_status reviewed None b else b))) ;;;
        insert_log (rr_settlement_batch_id reqRow) (Some requestId) (approved_by payload)
                   "reopen"
                   (match or_null (decision_reason payload) with
                    | Some s => Some s
                    | None => or_null (Some (rr_reason reqRow))
                    end) ;;;
        rows <- query (request_by_id requestId) ;;
        ret (Ok rows)
  end.

Definition approve (requestId : Z)
  : DecisionBody -> Db -> Db * Response (option ReopenRequest) :=
  validate reopenDecisionSchema
    (fun payload db => respond 200 (withTransaction (approve_work requestId payload) db)).

(** The callback of POST /settlement-reopen-requests/:id/reject. *)
Definition reject_work (requestId : Z) (payload : DecisionPayload)
  : Tx (Result (option ReopenRequest)) :=
  reqRows <- query (live_request requestId) ;;
  match reqRows with
  | None => ret (Fail "REQUEST_NOT_FOUND")
  | Some reqRow =>
      if negb (is_requested reqRow) then ret (Fail "INVALID_STATUS")
      else
        exec (with_reopen_requests
                (map (fun r => if rr_id r =? requestId
                               then decide_request rejected (approved_by payload) r
                               else r))) ;;;
        rows <- query (request_by_id requestId) ;;
        ret (Ok rows)
  end.

Definition reject (requestId : Z)
  : DecisionBody -> Db -> Db * Response (option ReopenRequest) :=
  validate reopenDecisionSchema
    (fun payload db => respond 200 (withTransaction (reject_work requestId payload) db)).

(** At most one outstanding reopen request per batch. *)
Definition single_outstanding (db : Db) : Prop :=
  forall batchId, (List.length (outstanding batchId db) <= 1)%nat.

(** One call of a route of the settlement workflow; any other operation of
    the system leaves the reopen requests as they are. *)
Inductive workflow_step : Db -> Db -> Prop :=
| step_close (batchId : Z) (body : CloseBody) (db : Db) :
    workflow_step db (fst (close batchId body db))
| step_reopen_request (batchId : Z) (body : ReopenBody) (db : Db) :
    workflow_step db (fst (reopen_request batchId body db))
| step_approve (requestId : Z) (body : DecisionBody) (db : Db) :
    workflow_step db (fst (approve requestId body db))
| step_reject (requestId : Z) (body : DecisionBody) (db : Db) :
    workflow_step db (fst (reject requestId body db))
| step_issue (body : IssueBody) (db : Db) :
    workflow_step db (fst (issue body db))
| step_generate (req : Request) (body : GenerateBody) (db : Db) :
    workflow_step db (fst (generate req body db))
| step_other (db db' : Db) :
    settlement_reopen_requests db' = settlement_reopen_requests db ->
    workflow_step db db'.

(** The states that the routes reach from a database without reopen
    requests. *)
Inductive reachable : Db -> Prop :=
| reach_init (db : Db) : settlement_reopen_requests db = [] -> reachable db
| reach_step (db db' : Db) : reachable db -> workflow_step db db' -> reachable db'.

(** A closed batch (client 7, 2026-02) with a reopen request waiting. *)
Definition closed_db : Db :=
  mkDb [] [] [] [scenario_rate] [] []
       [mkBatch 1 7 "2026-02" 1 closed 15300%Q (Some 9) false]
       [] []
       [mkReopen 1 1 9 "late events" requested None false]
       [mkLog 1 1 None 9 "close" None] [] [].

(* ------------------------------------------------------------------ *)
(** ** POST /billing/events/mark-pending *)

(** [markPendingSchema]: a non-empty array of positive integers. *)
Definition markPendingSchema (ids : list Z) : option (list Z) :=
  match ids with
  | [] => None
  | _ :: _ => if forallb (fun i => 0 <? i) ids then Some ids else None
  end.

Definition id_in (ids : list Z) (id : Z) : bool := existsb (fun i => i =? id) ids.

(** [be.id IN (?) AND be.deleted_at IS NULL]. *)
Definition selected (ids : list Z) (e : BillingEvent) : bool :=
  id_in ids (be_id e) && negb (be_deleted e).

(** [i.status] of the LEFT JOIN: the status of the live invoice that the
    event is linked to, NULL when there is none. *)
Definition invoice_status (db : Db) (e : BillingEvent) : option InvoiceStatus :=
  match be_invoice_id e with
  | Some invoiceId =>
      option_map inv_status
        (find (fun i => (inv_id i =? invoiceId) && negb (inv_deleted i)) (invoices db))
  | None => None
  end.

(** [["issued", "paid"].includes(String(r.invoice_status || "").toLowerCase())]. *)
Definition locks_event (status : option InvoiceStatus) : bool :=
  match status with
  | Some issued | Some paid => true
  | _ => false
  end.

(** The callback of the route; the answer is the number of rows read. *)
Definition mark_pending_work (ids : list Z) : Tx (Result nat) :=
  rows <- query (fun db => map (fun e => (e, invoice_status db e))
                               (filter (selected ids) (billing_events db))) ;;
  match rows with
  | [] => ret (Fail "EVENTS_NOT_FOUND")
  | _ :: _ =>
      match filter (fun r => locks_event (snd r)) rows with
      | _ :: _ => ret (Fail "EVENTS_LOCKED")
      | [] =>
          exec (with_billing_events
                  (map (fun e => if selected ids e then release_event e else e))) ;;;
          ret (Ok (List.length rows))
      end
  end.

Definition mark_pending (req : Request) : list Z -> Db -> Db * Response nat :=
  validate markPendingSchema
    (fun ids db =>
       if requireAdmin req
       then respond 200 (withTransaction (mark_pending_work ids) db)
       else (db, Failure 403 "ADMIN_ONLY")).

Definition admin : Request := mkRequest (Some (mkUser (Some 1) "admin")).

(** The generated scenario with its invoice issued. *)
Definition issued_db : Db :=
  with_invoices
    (map (fun i => mkInvoice (inv_id i) (inv_settlement_batch_id i) (inv_client_id i)
                             (inv_invoice_month i) (inv_invoice_no i) issued
                             (inv_issue_date i) (inv_invoice_date i) (inv_due_date i)
                             (inv_currency i) (inv_fx_rate_thbkrw i) (inv_subtotal_krw i)
                             (inv_vat_krw i) (inv_total_krw i) (inv_total_amount i)
                             (inv_created_by i) (inv_deleted i)))
    generated_db.

(* ------------------------------------------------------------------ *)
(** ** Exchange rates: PUT and DELETE /billing/settings/exchange-rates/:id *)

Record RateBody := mkRateBody {
  xb_rate_date : option string;
  xb_rate : option Q;
  xb_source : option string;
  xb_locked : option Z;
  xb_status : option string;
  xb_entered_by : option Z
}.

Record RatePayload := mkRatePayload {
  rate_date : string;
  rate : Q;
  source : string;
  locked : Z;
  status : RateStatus;
  entered_by : option Z
}.

(** [exchangeRateSchema]. *)
Definition exchangeRateSchema (body : RateBody) : option RatePayload :=
  match Schema.date_string (xb_rate_date body),
        xb_rate body,
        Schema.flag_default0 (xb_locked body),
        Schema.optional_positive_int (xb_entered_by body) with
  | Some d, Some r, Some l, Some e =>
      let src := match xb_source body with Some s => s | None => "manual" end in
      let st := match xb_status body with
                | None => Some rate_active
                | Some s => if String.eqb s "draft" then Some rate_draft
                            else if String.eqb s "active" then Some rate_active
                            else if String.eqb s "superseded" then Some rate_superseded
                            else None
                end in
      match st with
      | Some st' =>
          if Qpositive r && (String.eqb src "manual" || String.eqb src "api")
          then Some (mkRatePayload d r src l st' e) else None
      | None => None
      end
  | _, _, _, _ => None
  end.

Definition fx_equals (v : option Q) (r : Q) : bool :=
  match v with
  | Some fx => Qeq_bool fx r
  | None => false
  end.

Definition has_month (i : Invoice) : bool :=
  match inv_invoice_month i with Some _ => true | None => false end.

(** [getExchangeRateUsageCount]: the invoices joined to the rate rows of the
    given id, kept when the invoice is live, has an invoice month and stores
    the rate's value. *)
Definition getExchangeRateUsageCount (db : Db) (exchangeRateId : Z) : Z :=
  Z.of_nat
    (List.length
       (filter (fun p => (er_id (snd p) =? exchangeRateId)
                         && negb (inv_deleted (fst p))
                         && has_month (fst p)
                         && fx_equals (inv_fx_rate_thbkrw (fst p)) (er_rate (snd p)))
               (list_prod (invoices db) (exchange_rates db)))).

(** [SELECT id, locked FROM exchange_rates WHERE id = ? AND deleted_at IS NULL]. *)
Definition live_rate (id : Z) (db : Db) : option ExchangeRate :=
  find (fun r => (er_id r =? id) && negb (er_deleted r)) (exchange_rates db).

Definition update_rate (date : Date) (payload : RatePayload) (r : ExchangeRate) : ExchangeRate :=
  mkRate (er_id r) date (er_base_currency r) (er_quote_currency r) (rate payload)
         (source payload) (locked payload) (status payload) (er_deleted r).

Definition delete_rate (r : ExchangeRate) : ExchangeRate :=
  mkRate (er_id r) (er_rate_date r) (er_base_currency r) (er_quote_currency r)
         (er_rate r) (er_source r) (er_locked r) (er_status r) true.

Section ExchangeRateRoutes.

(** The unique key of exchange_rates on the rate date is declared in the
    schema, which is not among the sources: whether an UPDATE of the row to a
    date runs into ER_DUP_ENTRY is left as a parameter. *)
Variable rate_date_taken : Db -> Z -> Date -> bool.

(** PUT /billing/settings/exchange-rates/:id. *)
Definition put_exchange_rate (req : Request) (id : Z)
  : RateBody -> Db -> Db * Response (option ExchangeRate) :=
  validate exchangeRateSchema
    (fun payload db =>
       if negb (requireAdmin req) then (db, Failure 403 "ADMIN_ONLY")
       else
         match live_rate id db with
         | None => (db, Failure 404 "Exchange rate not found")
         | Some row =>
             let usedCount := getExchangeRateUsageCount db id in
             if (er_locked row =? 1) || (0 <? usedCount)
             then (db, Failure 409 "EXCHANGE_RATE_LOCKED")
             else
               match sql_date (rate_date payload) with
               | None => (db, Failure 500 "Incorrect date value")
               | Some date =>
                   if rate_date_taken db id date
                   then (db, Failure 409 "Duplicate rate_date for THB/KRW")
                   else
                     let db' :=
                       with_exchange_rates
                         (map (fun r => if (er_id r =? id) && negb (er_deleted r)
                                        then update_rate date payload r else r)) db in
                     (db', Success 200 (live_rate id db'))
               end
         end).

(** DELETE /billing/settings/exchange-rates/:id. *)
Definition delete_exchange_rate (req : Request) (id : Z) (db : Db) : Db * Response unit :=
  if negb (requireAdmin req) then (db, Failure 403 "ADMIN_ONLY")
  else
    match live_rate id db with
    | None => (db, Failure 404 "Exchange rate not found")
    | Some row =>
        let usedCount := getExchangeRateUsageCount db id in
        if (er_locked row =? 1) || (0 <? usedCount)
        then (db, Failure 409 "EXCHANGE_RATE_LOCKED")
        else
          (with_exchange_rates
             (map (fun r => if (er_id r =? id) && negb (er_deleted r)
                            then delete_rate r else r)) db,
           Success 200 tt)
    end.

End ExchangeRateRoutes.

(** An invoice references a rate when it is live, belongs to the invoice
    generator (it has an invoice month) and stores the rate's value. *)
Definition references (inv : Invoice) (r : ExchangeRate) : Prop :=
  inv_deleted inv = false
  /\ inv_invoice_month inv <> None
  /\ exists fx, inv_fx_rate_thbkrw inv = Some fx /\ (fx == er_rate r)%Q.

Definition used_by_invoice (db : Db) (r : ExchangeRate) : Prop :=
  exists inv, In inv (invoices db) /\ references inv r.

(** Whatever invoice stores an exchange rate has an invoice month: the
    generator writes both columns, the settlement route neither. *)
Definition rate_implies_month (db : Db) : Prop :=
  forall inv,
    In inv (invoices db) ->
    inv_fx_rate_thbkrw inv <> None -> inv_invoice_month inv <> None.

Definition new_rate_body : RateBody :=
  mkRateBody (Some "2026-02-01") (Some 41%Q) None None None None.

(* ------------------------------------------------------------------ *)
(** ** The schema of POST /settlement-batches/generate *)

Record BatchGenerateBody := mkBatchGenerateBody {
  gb_client_id : option Z;
  gb_billing_month : option string;
  gb_created_by : option Z;
  gb_exchange_rate_id : option Z;
  gb_is_provisional : option Z
}.

Record BatchGeneratePayload := mkBatchGeneratePayload {
  batch_client_id : Z;
  billing_month : string;
  batch_created_by : Z;
  exchange_rate_id : option Z;
  is_provisional : Z
}.

(** [generateSchema] of the settlement routes. *)
Definition generateSchema (body : BatchGenerateBody) : option BatchGeneratePayload :=
  match Schema.positive_int (gb_client_id body),
        Schema.month_string (gb_billing_month body),
        Schema.positive_int (gb_created_by body),
        Schema.optional_positive_int (gb_exchange_rate_id body),
        match gb_is_provisional body with
        | Some n => if (0 <=? n) && (n <=? 1) then Some n else None
        | None => Some 1
        end with
  | Some c, Some m, Some cb, Some x, Some p => Some (mkBatchGeneratePayload c m cb x p)
  | _, _, _, _, _ => None
  end.

(* ------------------------------------------------------------------ *)
(** ** services/billing.js: price policies and service events *)

(** A row of the policy query: [pp.id, pp.service_id, pp.unit_price,
    pp.currency, sc.billing_basis]. *)
Record PolicyRow := mkPolicyRow {
  policy_id : Z;
  policy_service_id : Z;
  policy_unit_price : Q;
  policy_currency : string;
  policy_billing_basis : string
}.

Definition policy_row (p : PricePolicy * ServiceCatalog) : PolicyRow :=
  mkPolicyRow (pp_id (fst p)) (pp_service_id (fst p)) (pp_unit_price (fst p))
              (pp_currency (fst p)) (sc_billing_basis (snd p)).

(** The WHERE clause over the join of price_policies and service_catalog. *)
Definition eligible (clientId : Z) (orderDate : Date) (p : PricePolicy * ServiceCatalog) : bool :=
  (sc_id (snd p) =? pp_service_id (fst p))
  && (pp_client_id (fst p) =? clientId)
  && pp_active (fst p)
  && negb (pp_deleted (fst p))
  && sc_active (snd p)
  && negb (sc_deleted (snd p))
  && date_leb (pp_effective_from (fst p)) orderDate
  && match pp_effective_to (fst p) with
     | None => true
     | Some t => date_leb orderDate t
     end.

(** [ORDER BY pp.effective_from DESC, pp.id DESC]: [a] comes no later than
    [b] in that order. *)
Definition policy_newer (a b : PricePolicy * ServiceCatalog) : bool :=
  match date_compare (pp_effective_from (fst a)) (pp_effective_from (fst b)) with
  | Gt => true
  | Eq => pp_id (fst b) <=? pp_id (fst a)
  | Lt => false
  end.

Definition active_policies (clientId : Z) (orderDate : Date) (db : Db)
  : list (PricePolicy * ServiceCatalog) :=
  filter (eligible clientId orderDate) (list_prod (price_policies db) (service_catalog db)).

(** [resolveActivePricePolicy]: [rows[0] || null]. *)
Definition resolveActivePricePolicy (clientId : Z) (orderDate : Date) : Tx (option PolicyRow) :=
  query (fun db => option_map policy_row
                     (last_by policy_newer (active_policies clientId orderDate db))).

Record BasisUnits := mkBasisUnits { qtyApplied : Q; boxApplied : Q; basisUnits : Q }.

(** [calcAmountByBasis]. *)
Definition calcAmountByBasis (basis : string) (qty boxCount : Q) : BasisUnits :=
  if String.eqb basis "QTY" then mkBasisUnits qty boxCount qty
  else if String.eqb basis "BOX" then mkBasisUnits qty boxCount boxCount
  else if String.eqb basis "ORDER" then mkBasisUnits qty boxCount 1%Q
  else mkBasisUnits qty boxCount 0%Q.

(** [Number(x.toFixed(4))]: the nearest multiple of 1/10000, the larger one
    on a tie. *)
Definition toFixed4 (x : Q) : Q := (Qfloor (x * 10000 + (1 # 2)) # 10000)%Q.

Record OutboundParams := mkOutboundParams {
  clientId : Z;
  outboundOrderId : Z;
  stockTransactionId : Z;
  orderDate : Date;
  qty : Q;
  boxCount : Q
}.

Definition event_of_movement (stockTxnId : Z) (e : ServiceEvent) : bool :=
  String.eqb (se_source_type e) "outbound_shipped" && (se_stock_transaction_id e =? stockTxnId).

(** [upsertOutboundServiceEvent]. *)
Definition upsertOutboundServiceEvent (params : OutboundParams) : Tx (option Z) :=
  policy <- resolveActivePricePolicy (clientId params) (orderDate params) ;;
  match policy with
  | None => ret None
  | Some policy =>
      let units := calcAmountByBasis (policy_billing_basis policy) (qty params)
                                     (boxCount params) in
      let unitPrice := policy_unit_price policy in
      let amount := toFixed4 (unitPrice * basisUnits units) in
      existing <- query (fun db => find (event_of_movement (stockTransactionId params))
                                        (service_events db)) ;;
      match existing with
      | None =>
          insertId <- (fun db =>
            let id := next_id (map se_id (service_events db)) in
            Return id
              (with_service_events
                 (fun t => (t ++ [mkServiceEvent id (clientId params)
                                    (policy_service_id policy) (outboundOrderId params)
                                    (stockTransactionId params) "outbound_shipped"
                                    (policy_billing_basis policy) (qtyApplied units)
                                    (boxApplied units) unitPrice amount
                                    (policy_currency policy) false])%list) db)) ;;
          ret (Some insertId)
      | Some ex =>
          exec (with_service_events
                  (map (fun e => if se_id e =? se_id ex
                                 then mkServiceEvent (se_id e) (clientId params)
                                        (policy_service_id policy) (outboundOrderId params)
                                        (se_stock_transaction_id e) (se_source_type e)
                                        (policy_billing_basis policy) (qtyApplied units)
                                        (boxApplied units) unitPrice amount
                                        (policy_currency policy) false
                                 else e))) ;;;
          ret (Some (se_id ex))
      end
  end.

(** [softDeleteOutboundServiceEvent]. *)
Definition softDeleteOutboundServiceEvent (stockTxnId : Z) : Tx unit :=
  exec (with_service_events
          (map (fun e => if event_of_movement stockTxnId e && negb (se_deleted e)
                         then mkServiceEvent (se_id e) (se_client_id e) (se_service_id e)
                                (se_outbound_order_id e) (se_stock_transaction_id e)
                                (se_source_type e) (se_basis_applied e) (se_qty e)
                                (se_box_count e) (se_unit_price e) (se_amount e)
                                (se_currency e) true
                         else e))).

(** Two policies of client 7 on one service, the later one from 2026-02-01,
    and a shipment of 2026-02-10. *)
Definition priced_db : Db :=
  mkDb [] [] [] [] []
       [mkService 3 "OUTBOUND_FEE" (Some "Outbound Fee") None "QTY" true false]
       [] [] [] [] []
       [mkPolicy 1 7 3 10%Q "THB" (mkDate 2026 1 1) None true false;
        mkPolicy 2 7 3 12%Q "THB" (mkDate 2026 2 1) None true false]
       [].

Definition shipment : OutboundParams :=
  mkOutboundParams 7 50 900 (mkDate 2026 2 10) 5%Q 1%Q.

(* ------------------------------------------------------------------ *)
(** ** Month strings *)




(** The decimal digits that [String(n)] writes for an integer [n >= 0]. *)
Definition digits_of (n : Z) : Decimal.uint :=
  match n with
  | Z.pos p => Pos.to_uint p
  | _ => Decimal.zero
  end.


(** The years that are written with at most four digits. *)
Fixpoint count_up (n : nat) (z : Z) : list Z :=
  match n with
  | O => []
  | S n' => z :: count_up n' (z + 1)
  end.

Definition all_years : list Z := count_up (Z.to_nat 10000) 0.

Definition four_digits (y : Z) : bool :=
  Schema.matches "dddd" (Js.padStart 4 (Js.toString y)).

(* ------------------------------------------------------------------ *)
(** ** The invoice life cycle: POST /billing/invoices/:id/issue,
       /mark-paid and /duplicate-admin *)

(** [SELECT ... FROM invoices WHERE id = ? AND deleted_at IS NULL LIMIT 1
    FOR UPDATE]. *)
Definition live_invoice (invoiceId : Z) (db : Db) : option Invoice :=
  find (fun i => (inv_id i =? invoiceId) && negb (inv_deleted i)) (invoices db).

Definition set_status (status : InvoiceStatus) (i : Invoice) : Invoice :=
  mkInvoice (inv_id i) (inv_settlement_batch_id i) (inv_client_id i) (inv_invoice_month i)
            (inv_invoice_no i) status (inv_issue_date i) (inv_invoice_date i)
            (inv_due_date i) (inv_currency i) (inv_fx_rate_thbkrw i) (inv_subtotal_krw i)
            (inv_vat_krw i) (inv_total_krw i) (inv_total_amount i) (inv_created_by i)
            (inv_deleted i).

(** [UPDATE invoices SET status = ? WHERE id = ?]. *)
Definition update_status (invoiceId : Z) (status : InvoiceStatus) : Db -> Db :=
  with_invoices (map (fun i => if inv_id i =? invoiceId then set_status status i else i)).

(** The callback of POST /billing/invoices/:id/issue; the answer names the
    id and the new status. *)
Definition issue_invoice_work (invoiceId : Z) : Tx (Result (Z * InvoiceStatus)) :=
  rows <- query (live_invoice invoiceId) ;;
  match rows with
  | None => ret (Fail "NOT_FOUND")
  | Some row =>
      if negb (InvoiceStatus_eqb (inv_status row) draft) then ret (Fail "INVALID_STATUS")
      else
        exec (update_status invoiceId issued) ;;;
        ret (Ok (invoiceId, issued))
  end.

Definition issue_invoice (invoiceId : Z) (db : Db) : Db * Response (Z * InvoiceStatus) :=
  respond 200 (withTransaction (issue_invoice_work invoiceId) db).

(** The callback of POST /billing/invoices/:id/mark-paid. *)
Definition mark_paid_work (invoiceId : Z) : Tx (Result (Z * InvoiceStatus)) :=
  rows <- query (live_invoice invoiceId) ;;
  match rows with
  | None => ret (Fail "NOT_FOUND")
  | Some row =>
      if negb (InvoiceStatus_eqb (inv_status row) issued) then ret (Fail "INVALID_STATUS")
      else
        exec (update_status invoiceId paid) ;;;
        ret (Ok (invoiceId, paid))
  end.

Definition mark_paid (invoiceId : Z) (db : Db) : Db * Response (Z * InvoiceStatus) :=
  respond 200 (withTransaction (mark_paid_work invoiceId) db).

(** [INSERT ... SELECT]: one new row per selected row, in table order, each
    with the next key. *)
Fixpoint append_copies {A : Type} (key : A -> Z) (copy : A -> Z -> A)
         (rows t : list A) : list A :=
  match rows with
  | [] => t
  | r :: rest => append_copies key copy rest (t ++ [copy r (next_id (map key t))])%list
  end.

(** The row that the item copy of duplicate-admin selects for an item. *)
Definition copy_item (newInvoiceId : Z) (i : InvoiceItem) (id : Z) : InvoiceItem :=
  mkItem id newInvoiceId (item_service_code i) (item_description i) (item_qty i)
         (item_unit_price_krw i) (item_amount_krw i) false.

(** [String(source.invoice_month)]: a NULL month prints as [null]. *)
Definition month_or_null (m : option string) : string :=
  match m with
  | Some s => s
  | None => "null"
  end.

Section DuplicateAdmin.

(** The copy writes the source's [total_krw] into [total_amount]. What that
    column holds when [total_krw] is NULL is a matter of the table
    definition, which is not among the sources. *)
Variable null_total_amount : Q.

(** The row that the invoice copy selects for a source row. *)
Definition copy_invoice (invoiceNo : string) (source : Invoice) (id : Z) : Invoice :=
  mkInvoice id None (inv_client_id source) (inv_invoice_month source) invoiceNo draft
            (inv_issue_date source) (inv_invoice_date source) (inv_due_date source) "KRW"
            (inv_fx_rate_thbkrw source) (inv_subtotal_krw source) (inv_vat_krw source)
            (inv_total_krw source)
            (match inv_total_krw source with
             | Some t => inject_Z t
             | None => null_total_amount
             end)
            (inv_created_by source) false.

(** [INSERT INTO invoices (...) SELECT ... FROM invoices WHERE id = ?];
    yields [insertId], the key of the first row written. *)
Definition insert_invoice_copy (invoiceNo : string) (sourceInvoiceId : Z) : Tx Z :=
  fun db =>
    let rows := filter (fun i => inv_id i =? sourceInvoiceId) (invoices db) in
    let id := match rows with
              | [] => 0
              | _ :: _ => next_id (map inv_id (invoices db))
              end in
    Return id (with_invoices (append_copies inv_id (copy_invoice invoiceNo) rows) db).

(** [INSERT INTO invoice_items (...) SELECT ?, ... FROM invoice_items
    WHERE invoice_id = ? AND deleted_at IS NULL]. *)
Definition insert_item_copies (newInvoiceId sourceInvoiceId : Z) : Db -> Db :=
  with_invoice_items
    (fun t => append_copies item_id (copy_item newInvoiceId)
                (filter (fun i => (item_invoice_id i =? sourceInvoiceId)
                                  && negb (item_deleted i)) t) t).

(** The callback of POST /billing/invoices/:id/duplicate-admin. *)
Definition duplicate_admin_work (sourceInvoiceId : Z) : Tx (Result (option Invoice)) :=
  invoiceRows <- query (live_invoice sourceInvoiceId) ;;
  match invoiceRows with
  | None => ret (Fail "NOT_FOUND")
  | Some source =>
      if InvoiceStatus_eqb (inv_status source) draft then ret (Fail "INVALID_STATUS")
      else
        let yyyymm := Js.replaceDash (month_or_null (inv_invoice_month source)) in
        nextSeq <- resolveInvoiceSequence (inv_client_id source) yyyymm ;;
        let newInvoiceNo := invoice_number "KRW" (inv_client_id source) yyyymm nextSeq in
        newInvoiceId <- insert_invoice_copy newInvoiceNo sourceInvoiceId ;;
        exec (insert_item_copies newInvoiceId sourceInvoiceId) ;;;
        newRows <- query (invoice_by_id newInvoiceId) ;;
        ret (Ok newRows)
  end.

Definition duplicate_admin (req : Request) (sourceInvoiceId : Z) (db : Db)
  : Db * Response (option Invoice) :=
  if negb (requireAdmin req) then (db, Failure 403 "ADMIN_ONLY")
  else respond 200 (withTransaction (duplicate_admin_work sourceInvoiceId) db).

End DuplicateAdmin.

(* ------------------------------------------------------------------ *)
(** ** POST /billing/events *)

Record EventBody := mkEventBody {
  eb_client_id : option Z;
  eb_service_code : option string;
  eb_reference_type : option string;
  eb_reference_id : option string;
  eb_event_date : option string;
  eb_qty : option Q;
  eb_pricing_policy : option string;
  eb_unit_price_thb : option Q;
  eb_amount_thb : option Q;
  eb_unit_price_krw : option Q;
  eb_amount_krw : option Q
}.

Record EventPayload := mkEventPayload {
  ev_client_id : Z;
  ev_service_code : string;
  ev_reference_type : string;
  ev_reference_id : option string;
  ev_event_date : string;
  ev_qty : Q;
  ev_pricing_policy : PricingPolicy;
  ev_unit_price_thb : option Q;
  ev_amount_thb : option Q;
  ev_unit_price_krw : option Q;
  ev_amount_krw : option Q
}.

(** [z.string().min(lo).max(hi)]. *)
Definition bounded_string (lo hi : nat) (v : option string) : option string :=
  match v with
  | Some s => if (lo <=? String.length s)%nat && (String.length s <=? hi)%nat
              then Some s else None
  | None => None
  end.

(** [z.coerce.number().nonnegative().nullable().optional()]. *)
Definition nonnegative_or_null (v : option Q) : option (option Q) :=
  match v with
  | Some q => if Qle_bool 0 q then Some (Some q) else None
  | None => Some None
  end.

(** [z.enum(PRICING_POLICIES)]. *)
Definition pricing_policy_of (v : option string) : option PricingPolicy :=
  match v with
  | Some s => if String.eqb s "THB_BASED" then Some THB_BASED
              else if String.eqb s "KRW_FIXED" then Some KRW_FIXED
              else None
  | None => None
  end.

(** [billingEventSchema]. *)
Definition billingEventSchema (body : EventBody) : option EventPayload :=
  match Schema.positive_int (eb_client_id body),
        bounded_string 1 80 (eb_service_code body),
        bounded_string 1 40 (eb_reference_type body),
        Schema.date_string (eb_event_date body),
        pricing_policy_of (eb_pricing_policy body) with
  | Some c, Some code, Some rt, Some d, Some p =>
      match nonnegative_or_null (eb_unit_price_thb body),
            nonnegative_or_null (eb_amount_thb body),
            nonnegative_or_null (eb_unit_price_krw body),
            nonnegative_or_null (eb_amount_krw body) with
      | Some upt, Some at_, Some upk, Some ak =>
          let q := match eb_qty body with Some q => q | None => 0%Q end in
          if Qle_bool 0 q
             && match eb_reference_id body with
                | Some r => (String.length r <=? 120)%nat
                | None => true
                end
          then Some (mkEventPayload c code rt (eb_reference_id body) d q p upt at_ upk ak)
          else None
      | _, _, _, _ => None
      end
  | _, _, _, _, _ => None
  end.

(** [value || null] on a nullable number. *)
Definition number_or_null (v : option Q) : option Q :=
  match v with
  | Some q => if Qeq_bool q 0 then None else Some q
  | None => None
  end.

(** [payload.amount_thb ?? (payload.unit_price_thb ?? 0) * (payload.qty ?? 0)]
    and its KRW sibling. *)
Definition amountThb (payload : EventPayload) : Q :=
  match ev_amount_thb payload with
  | Some a => a
  | None => (Js.orZero (ev_unit_price_thb payload) * ev_qty payload)%Q
  end.

Definition amountKrw (payload : EventPayload) : Q :=
  match ev_amount_krw payload with
  | Some a => a
  | None => (Js.orZero (ev_unit_price_krw payload) * ev_qty payload)%Q
  end.

Section CreateEvent.

(** The INSERT names no status: the row takes the column's default, which
    the table definition (not among the sources) fixes. *)
Variable default_status : EventStatus.

(** What the DATE column makes of the event date it is handed as a string:
    the date it stores, or the message of the error with which the statement
    fails. The server and its SQL mode decide, neither being among the
    sources. *)
Variable stored_date : string -> Date + string.

(** The row that the INSERT writes. The reference columns are written too;
    no modelled statement reads them. *)
Definition event_row (payload : EventPayload) (date : Date) (id : Z) : BillingEvent :=
  mkEvent id (ev_client_id payload) (ev_service_code payload) date (ev_qty payload)
          (ev_pricing_policy payload)
          (number_or_null (ev_unit_price_thb payload))
          (match ev_pricing_policy payload with
           | THB_BASED => Some (amountThb payload)
           | KRW_FIXED => None
           end)
          (number_or_null (ev_unit_price_krw payload))
          (match ev_pricing_policy payload with
           | KRW_FIXED => Some (inject_Z (trunc100 (amountKrw payload)))
           | THB_BASED => None
           end)
          None default_status None false.

(** POST /billing/events, behind [validate(billingEventSchema)]. *)
Definition create_event : EventBody -> Db -> Db * Response (option BillingEvent) :=
  validate billingEventSchema
    (fun payload db =>
       match stored_date (ev_event_date payload) with
       | inl date =>
           let id := next_id (map be_id (billing_events db)) in
           let db' := with_billing_events
                        (fun t => (t ++ [event_row payload date id])%list) db in
           (db', Success 201 (find (fun e => be_id e =? id) (billing_events db')))
       | inr message => (db, Failure 500 message)
       end).

End CreateEvent.

(** A server for the examples: it stores every date that parses. *)
Definition stores_parsed (s : string) : Date + string :=
  match sql_date s with
  | Some date => inl date
  | None => inr "Incorrect date value"
  end.

(* ------------------------------------------------------------------ *)
(** ** Listing routes: how the WHERE clause and its parameters are built *)

(** A value bound to a placeholder: a number (NaN is [None]) or a string. *)
Inductive SqlParam :=
| PNumber (n : option Q)
| PString (s : string).

(** Truthiness of a value of [req.query]: present and not empty. *)
Definition truthy (v : option string) : bool :=
  match v with
  | Some s => negb (String.eqb s EmptyString)
  | None => false
  end.

Definition text_of (v : option string) : string :=
  match v with
  | Some s => s
  | None => EmptyString
  end.

(** [if (cond) { where += clause; params.push(value); }]. *)
Definition and_where (cond : bool) (clause : string) (value : SqlParam)
           (q : string * list SqlParam) : string * list SqlParam :=
  if cond then (fst q ++ clause, (snd q ++ [value])%list) else q.

(** The number of [?] placeholders of a statement. *)
Fixpoint placeholders (s : string) : nat :=
  match s with
  | EmptyString => O
  | String c rest => ((if Ascii.eqb c "?" then 1 else 0) + placeholders rest)%nat
  end.

(** A statement under construction binds each of its placeholders. *)
Definition binds_all (q : string * list SqlParam) : Prop :=
  placeholders (fst q) = List.length (snd q).

Record EventsQuery := mkEventsQuery {
  q_client_id : option string;
  q_status : option string;
  q_service_code : option string;
  q_invoice_month : option string
}.

Record InvoicesQuery := mkInvoicesQuery {
  iq_client_id : option string;
  iq_invoice_month : option string;
  iq_status : option string
}.

Section Listings.

(** [Number(s)], [s.toUpperCase()] and [s.toLowerCase()] on whatever string
    the query string carries. *)
Variable toNumber : string -> option Q.
Variable toUpperCase : string -> string.
Variable toLowerCase : string -> string.

(** [buildBillingEventsWhere]. *)
Definition buildBillingEventsWhere (query : EventsQuery) : string * list SqlParam :=
  let q0 := (" WHERE be.deleted_at IS NULL", []) in
  let q1 := and_where (truthy (q_client_id query)) " AND be.client_id = ?"
                      (PNumber (toNumber (text_of (q_client_id query)))) q0 in
  let q2 := and_where (truthy (q_status query)) " AND be.status = ?"
                      (PString (toUpperCase (text_of (q_status query)))) q1 in
  let q3 := and_where (truthy (q_service_code query)) " AND be.service_code = ?"
                      (PString (text_of (q_service_code query))) q2 in
  and_where (truthy (q_invoice_month query)
             && Schema.matches "dddd-dd" (text_of (q_invoice_month query)))
            " AND DATE_FORMAT(be.event_date, '%Y-%m') = ?"
            (PString (text_of (q_invoice_month query))) q3.

(** [normalizeInvoiceStatus]; [None] is null. *)
Definition normalizeInvoiceStatus (status : option string) : option string :=
  if truthy status then
    let value := toLowerCase (text_of status) in
    if String.eqb value "draft" || String.eqb value "issued" || String.eqb value "paid"
    then Some value else None
  else None.

(** The statement of GET /billing/invoices from its WHERE clause on, and its
    parameters. *)
Definition invoices_listing (query : InvoicesQuery) : string * list SqlParam :=
  let status := normalizeInvoiceStatus (iq_status query) in
  let q0 := (" WHERE i.deleted_at IS NULL AND i.invoice_month IS NOT NULL", []) in
  let q1 := and_where (truthy (iq_client_id query)) " AND i.client_id = ?"
                      (PString (text_of (iq_client_id query))) q0 in
  let q2 := and_where (truthy (iq_invoice_month query)) " AND i.invoice_month = ?"
                      (PString (text_of (iq_invoice_month query))) q1 in
  let q3 := and_where (truthy status) " AND i.status = ?" (PString (text_of status)) q2 in
  (fst q3 ++ " ORDER BY i.invoice_month DESC, i.id DESC", snd q3).

End Listings.

Record ServiceEventsQuery := mkServiceEventsQuery {
  sq_client_id : option string;
  sq_outbound_order_id : option string;
  sq_stock_transaction_id : option string;
  sq_source_type : option string;
  sq_date_from : option string;
  sq_date_to : option string
}.

(** The statement of GET /service-events from its WHERE clause on, and its
    parameters. *)
Definition service_events_listing (query : ServiceEventsQuery) : string * list SqlParam :=
  let q0 := (" WHERE deleted_at IS NULL", []) in
  let q1 := and_where (truthy (sq_client_id query)) " AND client_id = ?"
                      (PString (text_of (sq_client_id query))) q0 in
  let q2 := and_where (truthy (sq_outbound_order_id query)) " AND outbound_order_id = ?"
                      (PString (text_of (sq_outbound_order_id query))) q1 in
  let q3 := and_where (truthy (sq_stock_transaction_id query)) " AND stock_transaction_id = ?"
                      (PString (text_of (sq_stock_transaction_id query))) q2 in
  let q4 := and_where (truthy (sq_source_type query)) " AND source_type = ?"
                      (PString (text_of (sq_source_type query))) q3 in
  let q5 := and_where (truthy (sq_date_from query)) " AND event_date >= ?"
                      (PString (text_of (sq_date_from query))) q4 in
  let q6 := and_where (truthy (sq_date_to query))
                      " AND event_date < DATE_ADD(?, INTERVAL 1 DAY)"
                      (PString (text_of (sq_date_to query))) q5 in
  (fst q6 ++ " ORDER BY event_date DESC, id DESC", snd q6).

(* ------------------------------------------------------------------ *)
(** ** middleware/rbac.js and the service catalog's billing basis *)

(** [canWrite]: the role may be undefined. *)
Definition canWrite (role : option string) : bool :=
  match role with
  | Some r => String.eqb r "admin" || String.eqb r "manager" || String.eqb r "warehouse"
  | None => false
  end.

(** What a middleware does with a request: pass it on or answer it. *)
Inductive Middleware :=
| Next
| Refuse (http : Z) (code : string).

(** [enforceWriteAccess]. *)
Definition enforceWriteAccess (method : string) (req : Request) : Middleware :=
  if String.eqb method "GET" then Next
  else if negb (canWrite (option_map role (user req))) then Refuse 403 "FORBIDDEN"
  else Next.

(** [mapBillingBasisFromUnit]. *)
Definition mapBillingBasisFromUnit (unit : string) : string :=
  if String.eqb unit "ORDER" then "ORDER"
  else if String.eqb unit "BOX" then "BOX"
  else if String.eqb unit "SKU" then "QTY"
  else "MANUAL".

(** [BILLING_UNITS]. *)
Definition BILLING_UNITS : list string :=
  ["ORDER"; "SKU"; "BOX"; "CBM"; "PALLET"; "EVENT"; "MONTH"].

(* ------------------------------------------------------------------ *)
(** ** What the generator leaves on the events, as one pass over the table *)

(** An event row after the loop over the selected events: every selected
    event of the same id has stamped it in turn. *)
Definition mark_row (fx : Q) (invoiceId : Z) (events : list BillingEvent)
           (r : BillingEvent) : BillingEvent :=
  fold_left (fun r' event => if be_id r' =? be_id event
                             then mark_invoiced (normalizedAmount fx event) fx invoiceId r'
                             else r')
            events r.



(** The state on which the generator starts its fresh run: the database as
    it is, or with the old draft taken apart. *)
Definition regenerate_base (payload : GeneratePayload) (db : Db) : Db :=
  match existing_invoice (client_id payload) (invoice_month payload) db with
  | Some existing =>
      tombstone_invoice (inv_id existing)
        (tombstone_items_of (inv_id existing) (release_events_of (inv_id existing) db))
  | None => db
  end.


(** An event row as the generator stamps it for an invoice: INVOICED, linked
    to the invoice, with the rate, and with the KRW amount of one of the
    selected events of its id. *)
Definition stamped (fx : Q) (invoiceId : Z) (events : list BillingEvent)
           (e : BillingEvent) : Prop :=
  be_status e = INVOICED
  /\ be_invoice_id e = Some invoiceId
  /\ be_fx_rate_thbkrw e = Some fx
  /\ exists event,
      In event events /\ be_id event = be_id e
      /\ be_amount_krw e = Some (inject_Z (normalizedAmount fx event)).


(** A request to regenerate the scenario's draft. *)
Definition regenerate_body : GenerateBody :=
  mkGenerateBody (Some 7) (Some "2026-02") (Some "2026-02-28") (Some 1) None.

(** The WHERE clause of the generator's exchange-rate query. *)
Definition rate_eligible (invoiceDate : string) (r : ExchangeRate) : bool :=
  String.eqb (er_base_currency r) "THB"
  && String.eqb (er_quote_currency r) "KRW"
  && negb (er_deleted r)
  && match er_status r with rate_active => true | _ => false end
  && date_on_or_before invoiceDate (er_rate_date r).

(** The month key under which duplicate-admin numbers the copy. *)
Definition duplicate_yyyymm (source : Invoice) : string :=
  Js.replaceDash (month_or_null (inv_invoice_month source)).

(* ------------------------------------------------------------------ *)
(** ** The settlement routes as table transformers *)

(** The database after the settlement route has issued the invoice of a
    batch. *)
Definition issued_state (payload : IssuePayload) (batch : SettlementBatch) (db : Db) : Db :=
  let yyyymm := Js.replaceDash (sb_billing_month batch) in
  let invoiceId := next_id (map inv_id (invoices db)) in
  with_invoice_lines (append_lines invoiceId (lines_of_batch (sb_id batch) db))
    (with_invoices
       (fun t => (t ++ [issued_row payload batch
                          (next_sequence (sb_client_id batch) yyyymm db) invoiceId])%list)
       (with_invoice_sequences (bump_sequence (sb_client_id batch) yyyymm) db)).

(** The log row of a close and of an approved reopen. *)
Definition close_log (batchId : Z) (payload : ClosePayload) (db : Db) : ReopenLog :=
  mkLog (next_id (map log_id (settlement_reopen_logs db))) batchId None
        (closed_by payload) "close" (or_null (close_reason payload)).

Definition reopen_log (reqRow : ReopenRequest) (payload : DecisionPayload) (db : Db)
  : ReopenLog :=
  mkLog (next_id (map log_id (settlement_reopen_logs db)))
        (rr_settlement_batch_id reqRow) (Some (rr_id reqRow)) (approved_by payload) "reopen"
        (match or_null (decision_reason payload) with
         | Some s => Some s
         | None => or_null (Some (rr_reason reqRow))
         end).

(** The database after a close, a new reopen request, an approval and a
    rejection that go through. *)
Definition closed_state (batchId : Z) (payload : ClosePayload) (db : Db) : Db :=
  with_reopen_logs (fun t => (t ++ [close_log batchId payload db])%list)
    (with_settlement_batches
       (map (fun b => if sb_id b =? batchId
                      then set_batch_status closed (Some (closed_by payload)) b else b))
       db).

Definition new_request (batchId : Z) (payload : ReopenPayload) (db : Db) : ReopenRequest :=
  mkReopen (next_id (map rr_id (settlement_reopen_requests db))) batchId
           (requested_by payload) (reopen_reason payload) requested None false.

Definition requested_state (batchId : Z) (payload : ReopenPayload) (db : Db) : Db :=
  with_reopen_requests (fun t => (t ++ [new_request batchId payload db])%list) db.

Definition decided_state (status : ReopenStatus) (requestId : Z) (payload : DecisionPayload)
           (db : Db) : Db :=
  with_reopen_requests
    (map (fun r => if rr_id r =? requestId
                   then decide_request status (approved_by payload) r else r))
    db.

Definition approved_state (reqRow : ReopenRequest) (payload : DecisionPayload) (db : Db)
  : Db :=
  with_reopen_logs (fun t => (t ++ [reopen_log reqRow payload db])%list)
    (with_settlement_batches
       (map (fun b => if sb_id b =? rr_settlement_batch_id reqRow
                      then set_batch_status reviewed None b else b))
       (decided_state approved (rr_id reqRow) payload db)).

(** [SELECT ... FROM settlement_batches WHERE id = ?], as the close route
    reads the batch back. *)
Definition batch_by_id (batchId : Z) (db : Db) : option SettlementBatch :=
  find (fun b => sb_id b =? batchId) (settlement_batches db).

(** A reviewed batch of client 7 with two settlement lines and no invoice,
    and the bodies of a close, a reopen request and a decision on it. *)
Definition lines_db : Db :=
  mkDb [] [] [] [scenario_rate] [] []
       [mkBatch 1 7 "2026-02" 1 reviewed 15300%Q None false]
       [mkLine 1 1 3 5%Q "KRW" 2400%Q 12000%Q 11 false;
        mkLine 2 1 4 1%Q "KRW" 3300%Q 3300%Q 12 false;
        mkLine 3 1 4 1%Q "KRW" 9900%Q 9900%Q 13 true]
       [] [] [] [] [].

Definition close_body : CloseBody := mkCloseBody (Some 9) (Some "month end").

Definition reopen_body : ReopenBody := mkReopenBody (Some 9) (Some "late events").

Definition decision_body : DecisionBody := mkDecisionBody (Some 2) None.

(* ------------------------------------------------------------------ *)
(** ** services/billing.js: the service event of a movement *)

(** The service event that [upsertOutboundServiceEvent] writes under a
    policy, with the given key. *)
Definition priced_event (params : OutboundParams) (policy : PolicyRow) (id : Z)
  : ServiceEvent :=
  let units := calcAmountByBasis (policy_billing_basis policy) (qty params)
                                 (boxCount params) in
  mkServiceEvent id (clientId params) (policy_service_id policy) (outboundOrderId params)
                 (stockTransactionId params) "outbound_shipped"
                 (policy_billing_basis policy) (qtyApplied units) (boxApplied units)
                 (policy_unit_price policy)
                 (toFixed4 (policy_unit_price policy * basisUnits units))
                 (policy_currency policy) false.

(** The same shipment shipped again with other quantities. *)
Definition reshipment : OutboundParams :=
  mkOutboundParams 7 50 900 (mkDate 2026 2 10) 8%Q 2%Q.

(* ------------------------------------------------------------------ *)
(** ** Sequences of calls *)

(** The order of the invoice life cycle. *)
Definition status_rank (s : InvoiceStatus) : Z :=
  match s with
  | draft => 0
  | issued => 1
  | paid => 2
  end.

Section Calls.

Variable null_total_amount : Q.
Variable default_status : EventStatus.
Variable stored_date : string -> Date + string.
Variable rate_date_taken : Db -> Z -> Date -> bool.

(** One call of a modelled route, whatever its answer. *)
Inductive billing_step : Db -> Db -> Prop :=
| call_generate (req : Request) (body : GenerateBody) (db : Db) :
    billing_step db (fst (generate req body db))
| call_issue_invoice (invoiceId : Z) (db : Db) :
    billing_step db (fst (issue_invoice invoiceId db))
| call_mark_paid (invoiceId : Z) (db : Db) :
    billing_step db (fst (mark_paid invoiceId db))
| call_duplicate_admin (req : Request) (sourceInvoiceId : Z) (db : Db) :
    billing_step db (fst (duplicate_admin null_total_amount req sourceInvoiceId db))
| call_mark_pending (req : Request) (ids : list Z) (db : Db) :
    billing_step db (fst (mark_pending req ids db))
| call_create_event (body : EventBody) (db : Db) :
    billing_step db (fst (create_event default_status stored_date body db))
| call_put_exchange_rate (req : Request) (id : Z) (body : RateBody) (db : Db) :
    billing_step db (fst (put_exchange_rate rate_date_taken req id body db))
| call_delete_exchange_rate (req : Request) (id : Z) (db : Db) :
    billing_step db (fst (delete_exchange_rate req id db))
| call_issue (body : IssueBody) (db : Db) :
    billing_step db (fst (issue body db))
| call_close (batchId : Z) (body : CloseBody) (db : Db) :
    billing_step db (fst (close batchId body db))
| call_reopen_request (batchId : Z) (body : ReopenBody) (db : Db) :
    billing_step db (fst (reopen_request batchId body db))
| call_approve (requestId : Z) (body : DecisionBody) (db : Db) :
    billing_step db (fst (approve requestId body db))
| call_reject (requestId : Z) (body : DecisionBody) (db : Db) :
    billing_step db (fst (reject requestId body db)).

(** Any number of calls, one after the other. *)
Inductive billing_steps : Db -> Db -> Prop :=
| calls_none (db : Db) : billing_steps db db
| calls_more (db db1 db2 : Db) :
    billing_steps db db1 -> billing_step db1 db2 -> billing_steps db db2.

End Calls.

(** What a call may do to an invoice that is not a draft: keep every column
    but the status, and move the status forward or leave it. *)
Definition kept_invoice (i i' : Invoice) : Prop :=
  set_status draft i' = set_status draft i
  /\ status_rank (inv_status i) <= status_rank (inv_status i').

Definition invoices_kept (db db' : Db) : Prop :=
  forall i,
    In i (invoices db) -> inv_status i <> draft ->
    (exists i', In i' (invoices db') /\ kept_invoice i i')
    /\ forall it,
        In it (invoice_items db) -> item_invoice_id it = inv_id i ->
        In it (invoice_items db').

(* ------------------------------------------------------------------ *)
(** ** The exchange rate of a settlement batch *)

(** [col < bound]; a parameter that is not a date matches no row. *)
Definition date_before_bound (bound : string) (d : Date) : bool :=
  match sql_date bound with
  | Some b => date_ltb d b
  | None => false
  end.

(** The WHERE clause of the default query of [resolveFx]. *)
Definition settlement_rate_eligible (rangeTo : string) (r : ExchangeRate) : bool :=
  match er_status r with rate_active => true | _ => false end
  && negb (er_deleted r)
  && String.eqb (er_base_currency r) "THB"
  && String.eqb (er_quote_currency r) "KRW"
  && date_before_bound rangeTo (er_rate_date r).

(** [resolveFx]: [rows[0] || null]. *)
Definition resolveFx (payload : BatchGeneratePayload) (rangeTo : string)
  : Tx (option ExchangeRate) :=
  match exchange_rate_id payload with
  | Some id =>
      if id =? 0
      then query (fun db => last_by rate_newer
                              (filter (settlement_rate_eligible rangeTo) (exchange_rates db)))
      else query (fun db =>
                    find (fun r => (er_id r =? id)
                                   && match er_status r with rate_active => true | _ => false end
                                   && negb (er_deleted r))
                         (exchange_rates db))
  | None =>
      query (fun db => last_by rate_newer
                         (filter (settlement_rate_eligible rangeTo) (exchange_rates db)))
  end.
(* ------------------------------------------------------------------ *)
(** ** Running the callbacks: what each loop and helper leaves behind *)

Unset Implicit Arguments.

Ltac run_tx := unfold bind, query, exec, ret; cbn beta.

Lemma db_eta (db : Db) :
  mkDb (invoices db) (invoice_items db) (billing_events db) (exchange_rates db)
       (invoice_sequences db) (service_catalog db) (settlement_batches db)
       (settlement_lines db) (invoice_lines db) (settlement_reopen_requests db)
       (settlement_reopen_logs db) (price_policies db) (service_events db) = db.
Proof. destruct db; reflexivity. Qed.

Lemma next_id_gt (ids : list Z) (x : Z) : In x ids -> x < next_id ids.
Proof.
  unfold next_id. induction ids as [|y ys IH]; simpl; [tauto|].
  intros [->|H]; [lia|]. specialize (IH H). lia.
Qed.

Lemma next_id_pos (ids : list Z) : 0 < next_id ids.
Proof.
  unfold next_id. induction ids as [|y ys IH]; simpl; lia.
Qed.

Lemma resolveInvoiceSequence_run (clientId : Z) (yyyymm : string) (db : Db) :
  resolveInvoiceSequence clientId yyyymm db
  = Return (next_sequence clientId yyyymm db)
           (with_invoice_sequences (bump_sequence clientId yyyymm) db).
Proof.
  unfold resolveInvoiceSequence, next_sequence, next_in, with_invoice_sequences, bump_sequence.
  run_tx. destruct (find _ (invoice_sequences db)); reflexivity.
Qed.

Lemma invoice_events_run (fx : Q) (invoiceId : Z) (events : list BillingEvent) :
  forall grouped db,
    invoice_events fx invoiceId events grouped db
    = Return (grouped_of fx events grouped)
             (with_billing_events (mark_all fx invoiceId events) db).
Proof.
  induction events as [|event rest IH]; intros grouped db.
  - simpl. unfold ret, with_billing_events. simpl. now rewrite db_eta.
  - simpl. run_tx. rewrite IH. reflexivity.
Qed.

Lemma insert_items_run (invoiceId : Z) (catalog : list ServiceCatalog)
      (grouped : list (string * Agg)) :
  forall subtotalKrw db,
    insert_items invoiceId catalog grouped subtotalKrw db
    = Return (subtotalKrw + sum_lines grouped)
             (with_invoice_items (append_items invoiceId catalog grouped) db).
Proof.
  induction grouped as [|[serviceCode agg] rest IH]; intros subtotalKrw db.
  - simpl. unfold ret, with_invoice_items. simpl. rewrite db_eta. f_equal. lia.
  - simpl. unfold insert_item. run_tx. rewrite IH. simpl. f_equal. lia.
Qed.

(** The rows that the item loop appends: one per group, on the new invoice,
    carrying the truncated line amount. *)
Lemma append_items_rows (invoiceId : Z) (catalog : list ServiceCatalog)
      (grouped : list (string * Agg)) :
  forall t, exists rows,
    append_items invoiceId catalog grouped t = (t ++ rows)%list
    /\ map item_amount_krw rows = map (fun g => lineAmount (snd g)) grouped
    /\ map item_service_code rows = map fst grouped
    /\ Forall (fun r => item_invoice_id r = invoiceId /\ item_deleted r = false) rows.
Proof.
  induction grouped as [|[serviceCode agg] rest IH]; intros t.
  - exists []. simpl. rewrite app_nil_r. repeat split; constructor.
  - simpl.
    destruct (IH (t ++ [service_item invoiceId catalog serviceCode agg
                                     (next_id (map item_id t))])%list)
      as (rows & Happ & Hamt & Hcode & Hall).
    exists (service_item invoiceId catalog serviceCode agg (next_id (map item_id t)) :: rows).
    rewrite Happ, <- app_assoc. simpl. rewrite Hamt, Hcode.
    repeat split. constructor; [split; reflexivity | exact Hall].
Qed.

(** A fresh generation that succeeds: the rate and the events it used, and
    the invoice and item tables it leaves. *)
Lemma generate_fresh_generated (createdBy : Z) (payload : GeneratePayload)
      (range : MonthRange) (db db' : Db) (o : option Invoice) (n : nat) (fxid : Z) :
  generate_fresh createdBy payload range db = Return (Ok (Generated o n fxid)) db' ->
  exists fxRow events,
    rate_on_or_before (invoice_date payload) db = Some fxRow
    /\ fxid = er_id fxRow
    /\ events = pending_events (client_id payload) range (lock_rate_id fxid db)
    /\ events <> []
    /\ n = List.length events
    /\ let invoiceId := next_id (map inv_id (invoices db)) in
       let grouped := grouped_of (er_rate fxRow) events [] in
       let nextSeq := next_sequence (client_id payload)
                                    (Js.replaceDash (invoice_month payload)) db in
       invoices db'
       = map (fun i => if inv_id i =? invoiceId
                       then set_totals (subtotal_of grouped) (vat_of grouped)
                                       (total_of grouped) i
                       else i)
             (invoices db ++ [draft_row createdBy payload (er_rate fxRow) nextSeq invoiceId])%list
       /\ invoice_items db'
          = (let t := append_items invoiceId (service_catalog db) grouped (invoice_items db) in
             t ++ [vat_item invoiceId (vat_of grouped) (next_id (map item_id t))])%list
       /\ o = invoice_by_id invoiceId db'
       /\ invoice_sequences db'
          = bump_sequence (client_id payload) (Js.replaceDash (invoice_month payload))
                          (invoice_sequences db).
Proof.
  unfold generate_fresh. run_tx.
  destruct (rate_on_or_before (invoice_date payload) db) as [fxRow|] eqn:Hfx; [|discriminate].
  destruct (pending_events (client_id payload) range (lock_rate_id (er_id fxRow) db))
    as [|e es] eqn:Hev; [discriminate|].
  rewrite resolveInvoiceSequence_run. unfold insert_invoice. cbn beta zeta.
  rewrite invoice_events_run. rewrite insert_items_run. unfold insert_item. run_tx.
  intros H. injection H as Ho Hn Hfxid Hdb.
  exists fxRow, (e :: es). subst fxid. rewrite Hev.
  split; [reflexivity|]. split; [reflexivity|]. split; [reflexivity|].
  split; [discriminate|]. split; [symmetry; exact Hn|].
  subst db'. cbn. repeat split. symmetry. exact Ho.
Qed.

(* ------------------------------------------------------------------ *)
(** ** Truncation *)

Lemma trunc100_Z (z : Z) : trunc100 (inject_Z z) = z / 100 * 100.
Proof.
  unfold trunc100. f_equal. symmetry. exact (Zdiv_Qdiv z 100).
Qed.

Lemma trunc100_divide (x : Q) : (100 | trunc100 x).
Proof. unfold trunc100. exists (Qfloor (x / 100)). reflexivity. Qed.

Lemma trunc100_fixed (z : Z) : (100 | z) -> trunc100 (inject_Z z) = z.
Proof.
  intros [k ->]. rewrite trunc100_Z. now rewrite Z.div_mul by lia.
Qed.

(** [trunc100] rounds toward negative infinity: the result is the largest
    multiple of 100 that does not exceed the value. *)
Lemma trunc100_floor (x : Q) :
  (inject_Z (trunc100 x) <= x)%Q /\ (x < inject_Z (trunc100 x + 100))%Q.
Proof.
  unfold trunc100.
  assert (Hx : (x == (x / 100) * 100)%Q) by (field).
  pose proof (Qfloor_le (x / 100)) as Hle.
  pose proof (Qlt_floor (x / 100)) as Hlt.
  split.
  - rewrite inject_Z_mult. rewrite Hx at 2.
    apply Qmult_le_compat_r; [exact Hle | discriminate].
  - replace (Qfloor (x / 100) * 100 + 100) with ((Qfloor (x / 100) + 1) * 100) by lia.
    rewrite inject_Z_mult. rewrite Hx at 1.
    apply Qmult_lt_compat_r; [reflexivity | exact Hlt].
Qed.





(* ------------------------------------------------------------------ *)
(** ** Fresh keys *)

Lemma update_fresh_row (f : Invoice -> Invoice) (t : list Invoice) (x : Invoice) :
  inv_id x = next_id (map inv_id t) ->
  map (fun i => if inv_id i =? inv_id x then f i else i) (t ++ [x])%list
  = (t ++ [f x])%list.
Proof.
  intros Hx. rewrite map_app. simpl. rewrite Z.eqb_refl. f_equal.
  rewrite <- (map_id t) at 2. apply map_ext_in. intros i Hi.
  assert (inv_id i < inv_id x) by (rewrite Hx; apply next_id_gt, in_map, Hi).
  destruct (Z.eqb_spec (inv_id i) (inv_id x)); [lia | reflexivity].
Qed.

Lemma find_fresh_row (t : list Invoice) (x : Invoice) :
  inv_id x = next_id (map inv_id t) ->
  find (fun i => inv_id i =? inv_id x) (t ++ [x])%list = Some x.
Proof.
  intros Hx.
  assert (Hlt : forall i, In i t -> inv_id i < inv_id x)
    by (intros i Hi; rewrite Hx; apply next_id_gt, in_map, Hi).
  clear Hx. induction t as [|i t IH]; simpl.
  - now rewrite Z.eqb_refl.
  - destruct (Z.eqb_spec (inv_id i) (inv_id x)) as [E|_].
    + specialize (Hlt i (or_introl eq_refl)). lia.
    + apply IH. intros j Hj. apply Hlt. now right.
Qed.

Lemma items_of_fresh (t rows : list InvoiceItem) (invoiceId : Z) :
  (forall i, In i t -> item_invoice_id i <> invoiceId) ->
  Forall (fun r => item_invoice_id r = invoiceId /\ item_deleted r = false) rows ->
  filter (fun i => (item_invoice_id i =? invoiceId) && negb (item_deleted i)) (t ++ rows)%list
  = rows.
Proof.
  intros Hold Hnew. rewrite filter_app.
  replace (filter _ t) with (@nil InvoiceItem).
  - simpl. induction Hnew as [|r rows [Hid Hdel] _ IH]; simpl; [reflexivity|].
    rewrite Hid, Z.eqb_refl, Hdel. simpl. now rewrite IH.
  - symmetry. induction t as [|i t IH]; simpl; [reflexivity|].
    destruct (Z.eqb_spec (item_invoice_id i) invoiceId) as [E|_].
    + exfalso. apply (Hold i); [now left | exact E].
    + simpl. apply IH. intros j Hj. apply Hold. now right.
Qed.




(* ------------------------------------------------------------------ *)
(** ** The generator callback *)

(** A generation that produces an invoice ran [generate_fresh], either on the
    state it was given or on that state with the old draft taken apart; the
    keys of the invoice and item tables and the sequence table are the same
    in both. *)
Lemma generate_work_generated (req : Request) (payload : GeneratePayload)
      (db db' : Db) (o : option Invoice) (n : nat) (fxid : Z) :
  generate_work req payload db = Return (Ok (Generated o n fxid)) db' ->
  exists db1,
    generate_fresh (parseCreator req (created_by payload)) payload
                   (monthRange (invoice_month payload)) db1
    = Return (Ok (Generated o n fxid)) db'
    /\ map inv_id (invoices db1) = map inv_id (invoices db)
    /\ map item_invoice_id (invoice_items db1) = map item_invoice_id (invoice_items db)
    /\ invoice_sequences db1 = invoice_sequences db.
Proof.
  unfold generate_work. run_tx.
  destruct (existing_invoice (client_id payload) (invoice_month payload) db) as [existing|].
  - destruct (negb (InvoiceStatus_eqb (inv_status existing) draft)); [discriminate|].
    destruct (regenerate_draft payload =? 0); [discriminate|].
    intros H. eexists. split; [exact H|]. cbn.
    repeat split.
    + rewrite map_map. apply map_ext. intros i.
      destruct (inv_id i =? inv_id existing); reflexivity.
    + rewrite map_map. apply map_ext. intros i.
      destruct ((item_invoice_id i =? inv_id existing) && negb (item_deleted i)); reflexivity.
  - intros H. exists db. repeat split. exact H.
Qed.

Lemma generate_inv (req : Request) (body : GenerateBody) (db db' : Db)
      (d : GenerateData) :
  generate req body db = (db', Success 200 d) ->
  exists payload,
    generateInvoiceSchema body = Some payload
    /\ generate_work req payload db = Return (Ok d) db'.
Proof.
  unfold generate, validate, respond, withTransaction.
  destruct (generateInvoiceSchema body) as [payload|]; [|discriminate].
  destruct (generate_work req payload db) as [[d'|code] db1|e] eqn:E; try discriminate.
  intros H. injection H as -> ->. exists payload. split; [reflexivity | exact E].
Qed.




(* ------------------------------------------------------------------ *)
(** ** Reuse of the draft *)

Lemma last_by_newest {A : Type} (key : A -> Z) (t : list A) (x : A) :
  (forall a, In a t -> key a < key x) ->
  last_by (by_id_desc key) (t ++ [x])%list = Some x.
Proof.
  induction t as [|a t IH]; intros Hlt; simpl; [reflexivity|].
  rewrite IH by (intros b Hb; apply Hlt; now right).
  unfold by_id_desc. specialize (Hlt a (or_introl eq_refl)).
  destruct (Z.leb_spec (key a) (key x)); [reflexivity | lia].
Qed.

Lemma generate_reuses_draft (req : Request) (payload : GeneratePayload) (db : Db)
      (existing : Invoice) :
  regenerate_draft payload = 0 ->
  existing_invoice (client_id payload) (invoice_month payload) db = Some existing ->
  inv_status existing = draft ->
  generate_work req payload db = Return (Ok (Reused (inv_id existing))) db.
Proof.
  intros Hre Hex Hst. unfold generate_work. run_tx.
  rewrite Hex, Hst, Hre. reflexivity.
Qed.

(** After a fresh generation the new draft is the invoice that the next
    lookup for the client and month finds. *)
Lemma generated_is_existing (req : Request) (payload : GeneratePayload) (db db' : Db)
      (o : option Invoice) (n : nat) (fxid : Z) :
  generate_work req payload db = Return (Ok (Generated o n fxid)) db' ->
  exists inv,
    o = Some inv
    /\ existing_invoice (client_id payload) (invoice_month payload) db' = Some inv
    /\ inv_status inv = draft.
Proof.
  intros Hwork.
  destruct (generate_work_generated _ _ _ _ _ _ _ Hwork) as (db1 & Hfresh & _).
  destruct (generate_fresh_generated _ _ _ _ _ _ _ _ Hfresh)
    as (fxRow & events & _ & _ & _ & _ & _ & Hinv & _ & Ho & _).
  cbv zeta in Hinv, Ho.
  set (invoiceId := next_id (map inv_id (invoices db1))) in *.
  set (grouped := grouped_of (er_rate fxRow) events []) in *.
  set (row := draft_row _ _ _ _ invoiceId) in *.
  assert (Hrow : inv_id row = next_id (map inv_id (invoices db1))) by reflexivity.
  change invoiceId with (inv_id row) in Hinv at 1.
  rewrite (update_fresh_row _ _ _ Hrow) in Hinv.
  set (inv := set_totals (subtotal_of grouped) (vat_of grouped) (total_of grouped) row) in *.
  exists inv. split.
  { rewrite Ho. unfold invoice_by_id. rewrite Hinv.
    apply (find_fresh_row (invoices db1) inv). exact Hrow. }
  split; [|reflexivity].
  unfold existing_invoice. rewrite Hinv, filter_app. simpl.
  rewrite Z.eqb_refl, String.eqb_refl. simpl.
  apply last_by_newest. intros a Ha. apply filter_In in Ha. destruct Ha as [Ha _].
  change (inv_id inv) with invoiceId. apply next_id_gt, in_map, Ha.
Qed.



(* ------------------------------------------------------------------ *)
(** ** Failed generations *)

(** No failing generation adds an invoice row: the keys of the invoice table
    are the ones from before. *)
Lemma generate_failure_adds_no_invoice (req : Request) (body : GenerateBody)
      (db db' : Db) (http : Z) (code : string) :
  generate req body db = (db', Failure http code) ->
  map inv_id (invoices db') = map inv_id (invoices db).
Proof.
  unfold generate, validate, respond, withTransaction.
  destruct (generateInvoiceSchema body) as [payload|];
    [|intros H; injection H as <- _ _; reflexivity].
  destruct (generate_work req payload db) as [[d|c] db1|e] eqn:Hwork; try discriminate;
    [|intros H; injection H as <- _ _; reflexivity].
  intros H. injection H as <- _ _. clear http code.
  assert (Hfresh : forall s s' c', generate_fresh (parseCreator req (created_by payload)) payload
                                  (monthRange (invoice_month payload)) s = Return (Fail c') s' ->
                                map inv_id (invoices s') = map inv_id (invoices s)).
  { intros s s' c'. unfold generate_fresh. run_tx.
    destruct (rate_on_or_before _ s); [|intros H; injection H as _ <-; reflexivity].
    destruct (pending_events _ _ _); [intros H; injection H as _ <-; reflexivity|].
    rewrite resolveInvoiceSequence_run. unfold insert_invoice. cbn beta zeta.
    rewrite invoice_events_run, insert_items_run. discriminate. }
  revert Hwork. unfold generate_work. run_tx.
  destruct (existing_invoice _ _ db) as [existing|]; [|apply Hfresh].
  destruct (negb _); [intros H; injection H as _ <-; reflexivity|].
  destruct (_ =? 0); [discriminate|].
  intros H. rewrite (Hfresh _ _ _ H). cbn. rewrite map_map. apply map_ext.
  intros i. destruct (inv_id i =? inv_id existing); reflexivity.
Qed.


(* ------------------------------------------------------------------ *)
(** ** The sequence counter *)

Lemma same_key_set_last_seq (c : Z) (ym : string) (n : Z) (r : InvoiceSequence) :
  same_key c ym (set_last_seq n r) = same_key c ym r.
Proof. reflexivity. Qed.

Lemma find_map_same {A : Type} (p : A -> bool) (f : A -> A) (t : list A) :
  (forall a, p (f a) = p a) ->
  find p (map f t) = option_map f (find p t).
Proof.
  intros Hp. induction t as [|a t IH]; simpl; [reflexivity|].
  rewrite Hp. destruct (p a); [reflexivity | exact IH].
Qed.

Lemma find_app_none {A : Type} (p : A -> bool) (t : list A) (x : A) :
  find p t = None -> find p (t ++ [x])%list = if p x then Some x else None.
Proof.
  induction t as [|a t IH]; simpl; [reflexivity|].
  destruct (p a); [discriminate | exact IH].
Qed.

Lemma find_app_some {A : Type} (p : A -> bool) (t u : list A) (a : A) :
  find p t = Some a -> find p (t ++ u)%list = Some a.
Proof.
  induction t as [|b t IH]; simpl; [discriminate|].
  destruct (p b); [trivial | exact IH].
Qed.

(** An allocation moves the counter of its key up by one. *)
Lemma next_in_bumped (c : Z) (ym : string) (t : list InvoiceSequence) :
  next_in c ym (bump_sequence c ym t) = next_in c ym t + 1.
Proof.
  unfold next_in, bump_sequence.
  destruct (find (same_key c ym) t) as [row|] eqn:Hfind.
  - rewrite find_map_same, Hfind.
    + simpl. rewrite Z.eqb_refl. reflexivity.
    + intros a. destruct (seq_id a =? seq_id row); reflexivity.
  - rewrite (find_app_none _ _ _ Hfind). unfold same_key. simpl.
    rewrite Z.eqb_refl, String.eqb_refl. reflexivity.
Qed.

Lemma unique_key_row {A : Type} (key : A -> Z) (t : list A) (a b : A) :
  NoDup (map key t) -> In a t -> In b t -> key a = key b -> a = b.
Proof.
  induction t as [|x t IH]; simpl; [tauto|].
  intros Hnd Ha Hb E. inversion Hnd as [|? ? Hnotin Hnd']; subst.
  destruct Ha as [->|Ha], Hb as [->|Hb]; [reflexivity| | |now apply IH].
  - exfalso. apply Hnotin. rewrite E. now apply in_map.
  - exfalso. apply Hnotin. rewrite <- E. now apply in_map.
Qed.

Lemma same_key_differs (c c' : Z) (ym ym' : string) (r : InvoiceSequence) :
  key_eqb (c', ym') (c, ym) = false ->
  same_key c ym r = true -> same_key c' ym' r = true -> False.
Proof.
  unfold key_eqb, same_key. simpl. intros Hne H H'.
  apply andb_prop in H. destruct H as [H _]. apply andb_prop in H. destruct H as [Hc Hy].
  apply andb_prop in H'. destruct H' as [H' _]. apply andb_prop in H'. destruct H' as [Hc' Hy'].
  apply Z.eqb_eq in Hc, Hc'. apply String.eqb_eq in Hy, Hy'. subst.
  rewrite Z.eqb_refl, String.eqb_refl in Hne. discriminate.
Qed.

(** With unique row ids, an allocation leaves the counters of the other
    keys alone. *)
Lemma next_in_other (c c' : Z) (ym ym' : string) (t : list InvoiceSequence) :
  NoDup (map seq_id t) ->
  key_eqb (c', ym') (c, ym) = false ->
  next_in c' ym' (bump_sequence c ym t) = next_in c' ym' t.
Proof.
  intros Hnd Hne. unfold next_in, bump_sequence.
  destruct (find (same_key c ym) t) as [row|] eqn:Hfind.
  - rewrite find_map_same
      by (intros a; destruct (seq_id a =? seq_id row); reflexivity).
    destruct (find (same_key c' ym') t) as [row'|] eqn:Hfind'; [|reflexivity].
    simpl. destruct (Z.eqb_spec (seq_id row') (seq_id row)) as [E|_]; [|reflexivity].
    apply find_some in Hfind, Hfind'. destruct Hfind as [Hin Hk], Hfind' as [Hin' Hk'].
    assert (row' = row) by (now apply (unique_key_row seq_id t)). subst row'.
    destruct (same_key_differs _ _ _ _ _ Hne Hk Hk').
  - destruct (find (same_key c' ym') t) as [row'|] eqn:Hfind'.
    + now rewrite (find_app_some _ _ _ _ Hfind').
    + rewrite (find_app_none _ _ _ Hfind'). unfold same_key. simpl.
      unfold key_eqb in Hne. simpl in Hne. rewrite Z.eqb_sym, String.eqb_sym in Hne.
      rewrite Hne. reflexivity.
Qed.

Lemma bump_sequence_unique (c : Z) (ym : string) (t : list InvoiceSequence) :
  NoDup (map seq_id t) -> NoDup (map seq_id (bump_sequence c ym t)).
Proof.
  intros Hnd. unfold bump_sequence. destruct (find (same_key c ym) t) as [row|].
  - replace (map seq_id (map _ t)) with (map seq_id t); [exact Hnd|].
    rewrite map_map. apply map_ext. intros a.
    destruct (seq_id a =? seq_id row); reflexivity.
  - rewrite map_app. simpl. apply NoDup_app; [exact Hnd | repeat constructor; intros [] | ].
    intros x Hx [<-|[]]. apply next_id_gt in Hx. lia.
Qed.

(** Over any run of allocations the counter of a key has moved up by the
    number of allocations made for that key: the numbers handed out for one
    (client, yyyymm) are consecutive, whatever is allocated in between. *)
Lemma counter_after_allocations (k : Z * string) (keys : list (Z * string)) :
  forall t,
    NoDup (map seq_id t) ->
    next_in (fst k) (snd k) (allocate_all keys t)
    = next_in (fst k) (snd k) t + allocations_of k keys.
Proof.
  unfold allocate_all, allocations_of.
  induction keys as [|k' keys IH]; intros t Hnd; simpl; [lia|].
  rewrite IH by (now apply bump_sequence_unique).
  destruct (key_eqb k k') eqn:E.
  - unfold key_eqb in E. apply andb_prop in E. destruct E as [Ec Ey].
    apply Z.eqb_eq in Ec. apply String.eqb_eq in Ey. rewrite <- Ec, <- Ey.
    rewrite next_in_bumped. simpl List.length. lia.
  - destruct k as [c ym], k' as [c' ym']. simpl fst. simpl snd.
    rewrite (next_in_other _ _ _ _ _ Hnd E). reflexivity.
Qed.

(* ------------------------------------------------------------------ *)
(** ** Invoice numbers *)

Lemma copy_lines_run (invoiceId : Z) (settlementLines : list SettlementLine) :
  forall db,
    copy_lines invoiceId settlementLines db
    = Return tt (with_invoice_lines (append_lines invoiceId settlementLines) db).
Proof.
  induction settlementLines as [|line rest IH]; intros db.
  - simpl. unfold ret, with_invoice_lines. simpl. now rewrite db_eta.
  - simpl. run_tx. rewrite IH. reflexivity.
Qed.

(** A settlement issue that creates an invoice: the batch it read, and the
    invoice and sequence tables it leaves. *)
Lemma issue_work_issued (payload : IssuePayload) (db db' : Db)
      (o : option Invoice) (k : nat) :
  issue_work payload db = Return (Ok (mkIssueData o k false)) db' ->
  exists batch,
    live_batch (settlement_batch_id payload) db = Some batch
    /\ let yyyymm := Js.replaceDash (sb_billing_month batch) in
       let invoiceId := next_id (map inv_id (invoices db)) in
       invoices db'
       = (invoices db
            ++ [issued_row payload batch (next_sequence (sb_client_id batch) yyyymm db)
                           invoiceId])%list
       /\ o = invoice_by_id invoiceId db'
       /\ invoice_sequences db'
          = bump_sequence (sb_client_id batch) yyyymm (invoice_sequences db).
Proof.
  unfold issue_work. run_tx.
  destruct (live_batch (settlement_batch_id payload) db) as [batch|]; [|discriminate].
  destruct (invoice_of_batch (sb_id batch) db); [discriminate|].
  intros H. exists batch. split; [reflexivity|]. revert H.
  unfold next_sequence, next_in, bump_sequence, insert_invoice.
  destruct (find _ (invoice_sequences db)) as [row|]; cbn beta zeta;
    rewrite copy_lines_run; intros H; injection H as Ho _ Hdb; subst db'; cbn;
    (split; [reflexivity | split; [symmetry; exact Ho | reflexivity]]).
Qed.

Lemma issue_inv (body : IssueBody) (db db' : Db) (d : IssueData) :
  issue body db = (db', Success 200 d) ->
  exists payload,
    issueInvoiceSchema body = Some payload
    /\ issue_work payload db = Return (Ok d) db'.
Proof.
  unfold issue, validate, respond, withTransaction.
  destruct (issueInvoiceSchema body) as [payload|]; [|discriminate].
  destruct (issue_work payload db) as [[d'|code] db1|e] eqn:E; try discriminate.
  intros H. injection H as -> ->. exists payload. split; [reflexivity | exact E].
Qed.

(** C4 (amended). An invoice of the generator is numbered
    KRW-{clientId}-{yyyymm}-{seq4}; an invoice issued from a settlement batch
    is numbered INV-{clientId}-{yyyymm}-{seq4}, its currency being KRW all the
    same. On both routes seq is the next value of the counter of
    (client, yyyymm), padded to four digits, and the counter has moved up by
    one once the invoice is created. *)
Theorem invoice_number_format (db db' : Db) :
  (forall req body o n fxid,
      generate req body db = (db', Success 200 (Generated o n fxid)) ->
      exists payload inv,
        generateInvoiceSchema body = Some payload
        /\ o = Some inv
        /\ let yyyymm := Js.replaceDash (invoice_month payload) in
           let seq := next_sequence (client_id payload) yyyymm db in
           inv_invoice_no inv
           = "KRW-" ++ Js.toString (client_id payload) ++ "-" ++ yyyymm ++ "-"
                    ++ Js.padStart 4 (Js.toString seq)
           /\ inv_currency inv = "KRW"
           /\ next_sequence (client_id payload) yyyymm db' = seq + 1)
  /\ (forall body o k,
         issue body db = (db', Success 200 (mkIssueData o k false)) ->
         exists payload batch inv,
           issueInvoiceSchema body = Some payload
           /\ live_batch (settlement_batch_id payload) db = Some batch
           /\ o = Some inv
           /\ let yyyymm := Js.replaceDash (sb_billing_month batch) in
              let seq := next_sequence (sb_client_id batch) yyyymm db in
              inv_invoice_no inv
              = "INV-" ++ Js.toString (sb_client_id batch) ++ "-" ++ yyyymm ++ "-"
                       ++ Js.padStart 4 (Js.toString seq)
              /\ inv_currency inv = "KRW"
              /\ next_sequence (sb_client_id batch) yyyymm db' = seq + 1).
Proof.
  split.
  - intros req body o n fxid Hgen.
    destruct (generate_inv _ _ _ _ _ Hgen) as (payload & Hschema & Hwork).
    destruct (generate_work_generated _ _ _ _ _ _ _ Hwork) as (db1 & Hfresh & _ & _ & Hseq).
    destruct (generate_fresh_generated _ _ _ _ _ _ _ _ Hfresh)
      as (fxRow & events & _ & _ & _ & _ & _ & Hinv & _ & Ho & Hbump).
    cbv zeta in Hinv, Ho.
    set (invoiceId := next_id (map inv_id (invoices db1))) in *.
    set (grouped := grouped_of (er_rate fxRow) events []) in *.
    set (row := draft_row _ _ _ _ invoiceId) in *.
    assert (Hrow : inv_id row = next_id (map inv_id (invoices db1))) by reflexivity.
    change invoiceId with (inv_id row) in Hinv at 1.
    rewrite (update_fresh_row _ _ _ Hrow) in Hinv.
    set (inv := set_totals (subtotal_of grouped) (vat_of grouped) (total_of grouped) row) in *.
    exists payload, inv. split; [exact Hschema|]. split.
    { rewrite Ho. unfold invoice_by_id. rewrite Hinv.
      apply (find_fresh_row (invoices db1) inv). exact Hrow. }
    cbv zeta. split; [|split; [reflexivity|]].
    + unfold inv, row. simpl. unfold next_sequence. rewrite Hseq. reflexivity.
    + unfold next_sequence. rewrite Hbump, Hseq. apply next_in_bumped.
  - intros body o k Hissue.
    destruct (issue_inv _ _ _ _ Hissue) as (payload & Hschema & Hwork).
    destruct (issue_work_issued _ _ _ _ _ Hwork) as (batch & Hbatch & Hinv & Ho & Hbump).
    set (row := issued_row _ _ _ _) in *.
    exists payload, batch, row. split; [exact Hschema|]. split; [exact Hbatch|]. split.
    { rewrite Ho. unfold invoice_by_id. rewrite Hinv.
      apply (find_fresh_row (invoices db) row). reflexivity. }
    cbv zeta. split; [reflexivity|]. split; [reflexivity|].
    unfold next_sequence. rewrite Hbump. apply next_in_bumped.
Qed.

Lemma invoice_number_format_witness :
  exists db' o,
    issue batch_issue_body batch_db = (db', Success 200 (mkIssueData o 0 false))
    /\ exists payload batch inv,
      issueInvoiceSchema batch_issue_body = Some payload
      /\ live_batch (settlement_batch_id payload) batch_db = Some batch
      /\ o = Some inv
      /\ let yyyymm := Js.replaceDash (sb_billing_month batch) in
         let seq := next_sequence (sb_client_id batch) yyyymm batch_db in
         inv_invoice_no inv
         = "INV-" ++ Js.toString (sb_client_id batch) ++ "-" ++ yyyymm ++ "-"
                  ++ Js.padStart 4 (Js.toString seq)
         /\ inv_currency inv = "KRW"
         /\ next_sequence (sb_client_id batch) yyyymm db' = seq + 1.
Proof.
  eexists. eexists. split.
  - vm_compute. reflexivity.
  - apply (proj2 (invoice_number_format batch_db _) batch_issue_body _ O).
    vm_compute. reflexivity.
Defined.

(** C4 as worded, on the settlement route: the invoice issued from the batch
    of client 7 for 2026-02 has currency KRW and number INV-7-202602-0001,
    which does not start with its currency. *)
Lemma settlement_invoice_number_has_no_currency :
  exists db' inv,
    issue batch_issue_body batch_db = (db', Success 200 (mkIssueData (Some inv) 0 false))
    /\ inv_currency inv = "KRW"
    /\ inv_invoice_no inv = "INV-7-202602-0001"
    /\ inv_invoice_no inv
       <> inv_currency inv ++ "-" ++ Js.toString 7 ++ "-" ++ "202602" ++ "-"
                           ++ Js.padStart 4 (Js.toString 1).
Proof.
  eexists. eexists. split; [vm_compute; reflexivity|].
  vm_compute. repeat split. discriminate.
Qed.

(* ------------------------------------------------------------------ *)
(** ** Settlement batches: close and reopen *)

Lemma generate_keeps_requests (req : Request) (body : GenerateBody) (db : Db) :
  settlement_reopen_requests (fst (generate req body db)) = settlement_reopen_requests db.
Proof.
  unfold generate, validate, respond, withTransaction.
  destruct (generateInvoiceSchema body) as [payload|]; [|reflexivity].
  assert (Hfresh : forall s r s',
             generate_fresh (parseCreator req (created_by payload)) payload
                            (monthRange (invoice_month payload)) s = Return r s' ->
             settlement_reopen_requests s' = settlement_reopen_requests s).
  { intros s r s'. unfold generate_fresh. run_tx.
    destruct (rate_on_or_before _ s); [|intros H; injection H as _ <-; reflexivity].
    destruct (pending_events _ _ _); [intros H; injection H as _ <-; reflexivity|].
    rewrite resolveInvoiceSequence_run. unfold insert_invoice. cbn beta zeta.
    rewrite invoice_events_run, insert_items_run. unfold insert_item. run_tx.
    intros H. injection H as _ <-. reflexivity. }
  destruct (generate_work req payload db) as [r db1|e] eqn:Hwork; [|reflexivity].
  assert (settlement_reopen_requests db1 = settlement_reopen_requests db).
  { revert Hwork. unfold generate_work. run_tx.
    destruct (existing_invoice _ _ db) as [existing|]; [|apply Hfresh].
    destruct (negb _); [intros H; injection H as _ <-; reflexivity|].
    destruct (_ =? 0); [intros H; injection H as _ <-; reflexivity|].
    intros H. rewrite (Hfresh _ _ _ H). reflexivity. }
  destruct r; assumption.
Qed.

Lemma issue_keeps_requests (body : IssueBody) (db : Db) :
  settlement_reopen_requests (fst (issue body db)) = settlement_reopen_requests db.
Proof.
  unfold issue, validate, respond, withTransaction.
  destruct (issueInvoiceSchema body) as [payload|]; [|reflexivity].
  destruct (issue_work payload db) as [r db1|e] eqn:Hwork; [|reflexivity].
  assert (settlement_reopen_requests db1 = settlement_reopen_requests db).
  { revert Hwork. unfold issue_work. run_tx.
    destruct (live_batch _ db) as [batch|]; [|intros H; injection H as _ <-; reflexivity].
    destruct (invoice_of_batch _ db); [intros H; injection H as _ <-; reflexivity|].
    unfold insert_invoice.
    destruct (find _ (invoice_sequences db)); cbn beta zeta;
      rewrite copy_lines_run; intros H; injection H as _ <-; reflexivity. }
  destruct r; assumption.
Qed.

Lemma close_keeps_requests (batchId : Z) (body : CloseBody) (db : Db) :
  settlement_reopen_requests (fst (close batchId body db)) = settlement_reopen_requests db.
Proof.
  unfold close, validate, respond, withTransaction, close_work, insert_log. run_tx.
  destruct (closeBatchSchema body) as [payload|]; [|reflexivity].
  destruct (live_batch batchId db) as [row|]; [|reflexivity].
  destruct (sb_status row); reflexivity.
Qed.

Lemma find_none_filter {A : Type} (p : A -> bool) (t : list A) :
  find p t = None -> filter p t = [].
Proof.
  induction t as [|a t IH]; simpl; [reflexivity|].
  destruct (p a); [discriminate | exact IH].
Qed.

Lemma filter_map_shrinks {A : Type} (p : A -> bool) (f : A -> A) (t : list A) :
  (forall a, p (f a) = true -> p a = true) ->
  (List.length (filter p (map f t)) <= List.length (filter p t))%nat.
Proof.
  intros Hp. induction t as [|a t IH]; simpl; [lia|].
  destruct (p (f a)) eqn:E.
  - rewrite (Hp a E). simpl. lia.
  - destruct (p a); simpl; lia.
Qed.

Lemma reopen_request_single (batchId : Z) (body : ReopenBody) (db : Db) :
  single_outstanding db -> single_outstanding (fst (reopen_request batchId body db)).
Proof.
  intros Hone. unfold reopen_request, validate, respond, withTransaction,
    reopen_request_work. run_tx.
  destruct (reopenRequestSchema body) as [payload|]; [|exact Hone].
  destruct (live_batch batchId db) as [batch|]; [|exact Hone].
  destruct (sb_status batch); try exact Hone.
  destruct (find _ (settlement_reopen_requests db)) eqn:Hfind; [exact Hone|].
  simpl. intros b. unfold outstanding. simpl. rewrite filter_app, length_app. simpl.
  destruct (Z.eqb_spec batchId b) as [->|Hne]; simpl.
  - rewrite (find_none_filter _ _ Hfind). simpl. lia.
  - specialize (Hone b). unfold outstanding in Hone. lia.
Qed.

Lemma decision_single (status : ReopenStatus) (requestId approvedBy : Z) (db : Db) :
  status <> requested ->
  single_outstanding db ->
  single_outstanding
    (with_reopen_requests
       (map (fun r => if rr_id r =? requestId
                      then decide_request status approvedBy r else r)) db).
Proof.
  intros Hst Hone b. unfold outstanding. simpl.
  eapply Nat.le_trans; [|exact (Hone b)].
  apply filter_map_shrinks. intros r.
  destruct (rr_id r =? requestId); [|trivial].
  unfold is_requested. simpl. destruct status; try congruence;
    rewrite andb_false_r; discriminate.
Qed.

Lemma approve_single (requestId : Z) (body : DecisionBody) (db : Db) :
  single_outstanding db -> single_outstanding (fst (approve requestId body db)).
Proof.
  intros Hone. unfold approve, validate, respond, withTransaction, approve_work, insert_log.
  run_tx.
  destruct (reopenDecisionSchema body) as [payload|]; [|exact Hone].
  destruct (live_request requestId db) as [reqRow|]; [|exact Hone].
  destruct (negb (is_requested reqRow)); [exact Hone|].
  simpl. intros b.
  exact (decision_single approved requestId (approved_by payload) db
                         ltac:(discriminate) Hone b).
Qed.

Lemma reject_single (requestId : Z) (body : DecisionBody) (db : Db) :
  single_outstanding db -> single_outstanding (fst (reject requestId body db)).
Proof.
  intros Hone. unfold reject, validate, respond, withTransaction, reject_work. run_tx.
  destruct (reopenDecisionSchema body) as [payload|]; [|exact Hone].
  destruct (live_request requestId db) as [reqRow|]; [|exact Hone].
  destruct (negb (is_requested reqRow)); [exact Hone|].
  simpl. intros b.
  exact (decision_single rejected requestId (approved_by payload) db
                         ltac:(discriminate) Hone b).
Qed.

Lemma single_outstanding_same_requests (db db' : Db) :
  settlement_reopen_requests db' = settlement_reopen_requests db ->
  single_outstanding db -> single_outstanding db'.
Proof.
  intros E Hone b. unfold outstanding. rewrite E. exact (Hone b).
Qed.

Lemma workflow_step_single (db db' : Db) :
  workflow_step db db' -> single_outstanding db -> single_outstanding db'.
Proof.
  intros Hstep. destruct Hstep.
  - apply single_outstanding_same_requests, close_keeps_requests.
  - apply reopen_request_single.
  - apply approve_single.
  - apply reject_single.
  - apply single_outstanding_same_requests, issue_keeps_requests.
  - apply single_outstanding_same_requests, generate_keeps_requests.
  - now apply single_outstanding_same_requests.
Qed.

(** C8. Closing a batch that is closed is refused with ALREADY_CLOSED and
    changes nothing; a reopen request for a batch that has a live request in
    status requested is refused and changes nothing (with REQUEST_EXISTS when
    the batch is there and closed); and in every state that the routes reach
    from a database without reopen requests, no batch has more than one
    outstanding request. *)
Theorem settlement_close_reopen_guards (db : Db) :
  (forall batchId body payload batch,
      closeBatchSchema body = Some payload ->
      live_batch batchId db = Some batch ->
      sb_status batch = closed ->
      close batchId body db = (db, Failure 400 "ALREADY_CLOSED"))
  /\ (forall batchId body payload r,
         reopenRequestSchema body = Some payload ->
         In r (settlement_reopen_requests db) ->
         rr_settlement_batch_id r = batchId ->
         rr_status r = requested ->
         rr_deleted r = false ->
         exists code,
           reopen_request batchId body db = (db, Failure 400 code)
           /\ (forall batch,
                  live_batch batchId db = Some batch -> sb_status batch = closed ->
                  code = "REQUEST_EXISTS"))
  /\ (reachable db -> single_outstanding db).
Proof.
  split; [|split].
  - intros batchId body payload batch Hschema Hbatch Hst.
    unfold close, validate, respond, withTransaction, close_work. run_tx.
    rewrite Hschema, Hbatch, Hst. reflexivity.
  - intros batchId body payload r Hschema Hin Hb Hst Hdel.
    unfold reopen_request, validate, respond, withTransaction, reopen_request_work. run_tx.
    rewrite Hschema.
    destruct (live_batch batchId db) as [batch|].
    + destruct (sb_status batch) eqn:Hbst;
        try (eexists; split; [reflexivity | intros b Hb' Hc; injection Hb' as <-; congruence]).
      destruct (find _ (settlement_reopen_requests db)) eqn:Hfind.
      * eexists. split; [reflexivity | reflexivity].
      * exfalso. pose proof (find_none _ _ Hfind r Hin) as Hno. simpl in Hno.
        unfold is_requested in Hno. rewrite Hb, Hst, Hdel, Z.eqb_refl in Hno.
        discriminate.
    + eexists. split; [reflexivity | discriminate].
  - intros Hreach. induction Hreach as [db Hinit | db db' _ IH Hstep].
    + intros b. unfold outstanding. rewrite Hinit. simpl. lia.
    + exact (workflow_step_single db db' Hstep IH).
Qed.

Lemma settlement_close_reopen_guards_witness :
  close 1 (mkCloseBody (Some 9) None) closed_db = (closed_db, Failure 400 "ALREADY_CLOSED")
  /\ (exists code,
         reopen_request 1 (mkReopenBody (Some 9) (Some "again")) closed_db
         = (closed_db, Failure 400 code)
         /\ (forall batch,
                live_batch 1 closed_db = Some batch -> sb_status batch = closed ->
                code = "REQUEST_EXISTS")).
Proof.
  split.
  - exact (proj1 (settlement_close_reopen_guards closed_db) 1 (mkCloseBody (Some 9) None)
                 (mkClosePayload 9 None)
                 (mkBatch 1 7 "2026-02" 1 closed 15300%Q (Some 9) false)
                 eq_refl eq_refl eq_refl).
  - exact (proj1 (proj2 (settlement_close_reopen_guards closed_db)) 1
                 (mkReopenBody (Some 9) (Some "again")) (mkReopenPayload 9 "again")
                 (mkReopen 1 1 9 "late events" requested None false)
                 eq_refl (or_introl eq_refl) eq_refl eq_refl eq_refl).
Defined.

(* ------------------------------------------------------------------ *)
(** ** Marking events pending *)

Lemma filter_exists_nonempty {A : Type} (p : A -> bool) (t : list A) (a : A) :
  In a t -> p a = true -> filter p t <> [].
Proof.
  intros Hin Hp E. assert (H : In a (filter p t)) by (apply filter_In; now split).
  rewrite E in H. destruct H.
Qed.

Lemma filter_empty_all {A : Type} (p : A -> bool) (t : list A) (a : A) :
  filter p t = [] -> In a t -> p a = false.
Proof.
  intros E Hin. destruct (p a) eqn:Hp; [|reflexivity].
  exfalso. exact (filter_exists_nonempty p t a Hin Hp E).
Qed.



(* ------------------------------------------------------------------ *)
(** ** Strings of digits *)

Lemma digit_not_dash (c : ascii) : Schema.is_digit c = true -> Ascii.eqb c "-" = false.
Proof.
  destruct c as [[] [] [] [] [] [] [] []]; intros H; try reflexivity; discriminate H.
Qed.

Lemma digit_parses (c : ascii) (d : Decimal.uint) :
  Schema.is_digit c = true -> exists d', uint_of_char c (Some d) = Some d'.
Proof.
  destruct c as [[] [] [] [] [] [] [] []]; intros H; try discriminate H;
    eexists; reflexivity.
Qed.

Lemma digits_number (s : string) :
  forallb Schema.is_digit (list_ascii_of_string s) = true ->
  exists z, Js.Number s = Some z.
Proof.
  unfold Js.Number.
  assert (H : forallb Schema.is_digit (list_ascii_of_string s) = true ->
              exists u, NilEmpty.uint_of_string s = Some u).
  { induction s as [|c s IH]; simpl; [intros _; eexists; reflexivity|].
    intros H. apply andb_prop in H. destruct H as [Hc Hs].
    destruct (IH Hs) as [u ->]. exact (digit_parses c u Hc). }
  intros Hd. destruct (H Hd) as [u ->]. eexists. reflexivity.
Qed.

(** A string that passes [/^\d{4}-\d{2}-\d{2}$/] reads as a date. *)
Lemma digits_date_parses (s : string) :
  Schema.matches "dddd-dd-dd" s = true -> exists date, sql_date s = Some date.
Proof.
  destruct s as [|c1 [|c2 [|c3 [|c4 [|c5 [|c6 [|c7 [|c8 [|c9 [|c10 s]]]]]]]]]];
    simpl; intros H; try discriminate H;
    try (repeat (apply andb_prop in H; destruct H as [_ H]); discriminate H).
  apply andb_prop in H. destruct H as [H1 H]. apply andb_prop in H. destruct H as [H2 H].
  apply andb_prop in H. destruct H as [H3 H]. apply andb_prop in H. destruct H as [H4 H].
  apply andb_prop in H. destruct H as [H5 H]. apply andb_prop in H. destruct H as [H6 H].
  apply andb_prop in H. destruct H as [H7 H]. apply andb_prop in H. destruct H as [H8 H].
  apply andb_prop in H. destruct H as [H9 H]. apply andb_prop in H. destruct H as [H10 H].
  destruct s; [clear H | discriminate H].
  destruct c5 as [[] [] [] [] [] [] [] []]; try discriminate H5.
  destruct c8 as [[] [] [] [] [] [] [] []]; try discriminate H8.
  unfold sql_date. simpl.
  rewrite (digit_not_dash c1), (digit_not_dash c2), (digit_not_dash c3),
    (digit_not_dash c4), (digit_not_dash c6), (digit_not_dash c7),
    (digit_not_dash c9), (digit_not_dash c10) by assumption.
  destruct (digits_number (String c1 (String c2 (String c3 (String c4 EmptyString)))))
    as [y Hy]; [simpl; now rewrite H1, H2, H3, H4|].
  destruct (digits_number (String c6 (String c7 EmptyString)))
    as [m Hm]; [simpl; now rewrite H6, H7|].
  destruct (digits_number (String c9 (String c10 EmptyString)))
    as [d Hd]; [simpl; now rewrite H9, H10|].
  rewrite Hy, Hm, Hd. eexists. reflexivity.
Qed.

(* ------------------------------------------------------------------ *)
(** ** Exchange rates: the lock *)

Lemma usage_count_positive (db : Db) (id : Z) (row : ExchangeRate) :
  NoDup (map er_id (exchange_rates db)) ->
  live_rate id db = Some row ->
  (0 <? getExchangeRateUsageCount db id) = true <-> used_by_invoice db row.
Proof.
  intros Hnd Hrow. apply find_some in Hrow. destruct Hrow as [Hin Hid].
  apply andb_prop in Hid. destruct Hid as [Hid _]. apply Z.eqb_eq in Hid.
  unfold getExchangeRateUsageCount.
  set (cond := fun p : Invoice * ExchangeRate => _).
  split.
  - intros Hpos. apply Z.ltb_lt in Hpos.
    destruct (filter cond (list_prod (invoices db) (exchange_rates db))) as [|[inv er] rest] eqn:E;
      [simpl in Hpos; lia|].
    assert (Hp : In (inv, er) (filter cond (list_prod (invoices db) (exchange_rates db))))
      by (rewrite E; now left).
    apply filter_In in Hp. destruct Hp as [Hprod Hc].
    apply in_prod_iff in Hprod. destruct Hprod as [Hinv Her].
    unfold cond in Hc. simpl in Hc.
    apply andb_prop in Hc. destruct Hc as [Hc Hfx].
    apply andb_prop in Hc. destruct Hc as [Hc Hmonth].
    apply andb_prop in Hc. destruct Hc as [Heid Hlive].
    apply Z.eqb_eq in Heid.
    assert (er = row) by (apply (unique_key_row er_id (exchange_rates db)); congruence).
    subst er. exists inv. split; [exact Hinv|]. split; [|split].
    + now destruct (inv_deleted inv).
    + unfold has_month in Hmonth. destruct (inv_invoice_month inv); [discriminate|discriminate].
    + unfold fx_equals in Hfx. destruct (inv_fx_rate_thbkrw inv) as [fx|]; [|discriminate].
      exists fx. split; [reflexivity|]. now apply Qeq_bool_iff.
  - intros (inv & Hinv & Hlive & Hmonth & fx & Hfx & Heq).
    apply Z.ltb_lt.
    assert (Hp : In (inv, row) (filter cond (list_prod (invoices db) (exchange_rates db)))).
    { apply filter_In. split; [apply in_prod_iff; now split|].
      unfold cond. simpl. rewrite Hid, Z.eqb_refl, Hlive, Hfx. simpl.
      apply Qeq_bool_iff in Heq. rewrite Heq.
      unfold has_month. destruct (inv_invoice_month inv); [reflexivity | congruence]. }
    destruct (filter cond _); [destruct Hp | simpl; lia].
Qed.

(** The routes that write invoices keep [rate_implies_month]. *)
Lemma rate_implies_month_map (f : Invoice -> Invoice) (l t : list Invoice) :
  (forall i, inv_fx_rate_thbkrw (f i) = inv_fx_rate_thbkrw i
             /\ inv_invoice_month (f i) = inv_invoice_month i) ->
  (forall i, In i l -> inv_fx_rate_thbkrw i <> None -> inv_invoice_month i <> None) ->
  (forall i, In i t -> inv_invoice_month i <> None) ->
  forall inv,
    In inv (map f (l ++ t)%list) ->
    inv_fx_rate_thbkrw inv <> None -> inv_invoice_month inv <> None.
Proof.
  intros Hf Hl Ht inv Hin.
  apply in_map_iff in Hin. destruct Hin as (i & <- & Hi).
  destruct (Hf i) as [-> ->]. apply in_app_or in Hi. destruct Hi as [Hi|Hi].
  - now apply Hl.
  - intros _. now apply Ht.
Qed.

Lemma generate_keeps_rate_month (req : Request) (body : GenerateBody) (db : Db) :
  rate_implies_month db -> rate_implies_month (fst (generate req body db)).
Proof.
  intros Hdb. unfold generate, validate, respond, withTransaction.
  destruct (generateInvoiceSchema body) as [payload|]; [|exact Hdb].
  assert (Hfresh : forall s r s',
             generate_fresh (parseCreator req (created_by payload)) payload
                            (monthRange (invoice_month payload)) s = Return r s' ->
             rate_implies_month s -> rate_implies_month s').
  { intros s r s'. unfold generate_fresh. run_tx.
    destruct (rate_on_or_before _ s) as [fxRow|];
      [|intros H; injection H as _ <-; trivial].
    destruct (pending_events _ _ _);
      [intros H; injection H as _ <-; intros Hs inv Hin; exact (Hs inv Hin)|].
    rewrite resolveInvoiceSequence_run. unfold insert_invoice. cbn beta zeta.
    rewrite invoice_events_run, insert_items_run. unfold insert_item. run_tx.
    intros H. injection H as _ <-. intros Hs. unfold rate_implies_month. cbn.
    apply rate_implies_month_map.
    - intros i. destruct (inv_id i =? _); split; reflexivity.
    - exact Hs.
    - intros i [<-|[]]. discriminate. }
  destruct (generate_work req payload db) as [r db1|e] eqn:Hwork; [|exact Hdb].
  assert (rate_implies_month db1).
  { revert Hwork. unfold generate_work. run_tx.
    destruct (existing_invoice _ _ db) as [existing|];
      [|intros H; exact (Hfresh _ _ _ H Hdb)].
    destruct (negb _); [intros H; injection H as _ <-; exact Hdb|].
    destruct (_ =? 0); [intros H; injection H as _ <-; exact Hdb|].
    intros H. apply (Hfresh _ _ _ H). unfold rate_implies_month. cbn.
    rewrite <- (app_nil_r (invoices db)). apply rate_implies_month_map.
    - intros i. destruct (inv_id i =? _); split; reflexivity.
    - exact Hdb.
    - intros i []. }
  destruct r; assumption.
Qed.

Lemma issue_keeps_rate_month (body : IssueBody) (db : Db) :
  rate_implies_month db -> rate_implies_month (fst (issue body db)).
Proof.
  intros Hdb. unfold issue, validate, respond, withTransaction.
  destruct (issueInvoiceSchema body) as [payload|]; [|exact Hdb].
  destruct (issue_work payload db) as [r db1|e] eqn:Hwork; [|exact Hdb].
  assert (rate_implies_month db1).
  { revert Hwork. unfold issue_work. run_tx.
    destruct (live_batch _ db) as [batch|]; [|intros H; injection H as _ <-; exact Hdb].
    destruct (invoice_of_batch _ db); [intros H; injection H as _ <-; exact Hdb|].
    unfold insert_invoice.
    destruct (find _ (invoice_sequences db)); cbn beta zeta;
      rewrite copy_lines_run; intros H; injection H as _ <-;
      intros inv Hin; cbn in Hin; apply in_app_or in Hin;
      (destruct Hin as [Hin|[<-|[]]]; [now apply Hdb | intros Hfx; now elim Hfx]). }
  destruct r; assumption.
Qed.

(** C5. For an admin and a live rate (row ids being unique): updating and
    deleting the rate are answered with EXCHANGE_RATE_LOCKED, the state
    untouched, exactly when the rate has locked = 1 or a live invoice of the
    generator stores its value; otherwise the UPDATE runs (the row takes the
    new values unless the date collides with the unique key) and the DELETE
    tombstones the row. Where only invoices with a month store a rate, as in
    every state that the routes build, "a live invoice of the generator
    stores its value" is the same as "a live invoice stores its value". *)
Theorem exchange_rate_lock (rate_date_taken : Db -> Z -> Date -> bool)
        (req : Request) (id : Z) (body : RateBody) (payload : RatePayload)
        (db : Db) (row : ExchangeRate) :
  requireAdmin req = true ->
  exchangeRateSchema body = Some payload ->
  NoDup (map er_id (exchange_rates db)) ->
  live_rate id db = Some row ->
  (er_locked row = 1 \/ used_by_invoice db row ->
   put_exchange_rate rate_date_taken req id body db = (db, Failure 409 "EXCHANGE_RATE_LOCKED")
   /\ delete_exchange_rate req id db = (db, Failure 409 "EXCHANGE_RATE_LOCKED"))
  /\ (~ (er_locked row = 1 \/ used_by_invoice db row) ->
      (exists date,
          sql_date (rate_date payload) = Some date
          /\ put_exchange_rate rate_date_taken req id body db
             = if rate_date_taken db id date
               then (db, Failure 409 "Duplicate rate_date for THB/KRW")
               else
                 let db' :=
                   with_exchange_rates
                     (map (fun r => if (er_id r =? id) && negb (er_deleted r)
                                    then update_rate date payload r else r)) db in
                 (db', Success 200 (live_rate id db')))
      /\ delete_exchange_rate req id db
         = (with_exchange_rates
              (map (fun r => if (er_id r =? id) && negb (er_deleted r)
                             then delete_rate r else r)) db,
            Success 200 tt))
  /\ (snd (put_exchange_rate rate_date_taken req id body db)
      = Failure 409 "EXCHANGE_RATE_LOCKED"
      <-> er_locked row = 1 \/ used_by_invoice db row)
  /\ (snd (delete_exchange_rate req id db) = Failure 409 "EXCHANGE_RATE_LOCKED"
      <-> er_locked row = 1 \/ used_by_invoice db row)
  /\ (rate_implies_month db ->
      (used_by_invoice db row
       <-> exists inv fx,
            In inv (invoices db) /\ inv_deleted inv = false
            /\ inv_fx_rate_thbkrw inv = Some fx /\ (fx == er_rate row)%Q)).
Proof.
  intros Hadmin Hschema Hnd Hrow.
  pose proof (usage_count_positive db id row Hnd Hrow) as Hused.
  assert (Hguard : (er_locked row =? 1) || (0 <? getExchangeRateUsageCount db id) = true
                   <-> er_locked row = 1 \/ used_by_invoice db row).
  { rewrite orb_true_iff, Z.eqb_eq, Hused. reflexivity. }
  assert (Hdate : exists date, sql_date (rate_date payload) = Some date).
  { revert Hschema. unfold exchangeRateSchema, Schema.date_string.
    destruct (xb_rate_date body) as [d|]; [|discriminate].
    destruct (Schema.matches "dddd-dd-dd" d) eqn:Hm; [|discriminate].
    destruct (xb_rate body); [|discriminate].
    destruct (Schema.flag_default0 _); [|discriminate].
    destruct (Schema.optional_positive_int _); [|discriminate].
    destruct (match xb_status body with Some _ => _ | None => _ end); [|discriminate].
    destruct (_ && _); [|discriminate].
    intros H. injection H as <-. simpl.
    clear -Hm. apply digits_date_parses. exact Hm. }
  assert (Hmonth : rate_implies_month db ->
                   (used_by_invoice db row
                    <-> exists inv fx,
                         In inv (invoices db) /\ inv_deleted inv = false
                         /\ inv_fx_rate_thbkrw inv = Some fx /\ (fx == er_rate row)%Q)).
  { intros Hinv. split.
    - intros (inv & Hin & Hlive & _ & fx & Hfx & Heq). now exists inv, fx.
    - intros (inv & fx & Hin & Hlive & Hfx & Heq). exists inv. split; [exact Hin|].
      split; [exact Hlive|]. split; [apply (Hinv inv Hin); congruence|].
      now exists fx. }
  unfold put_exchange_rate, delete_exchange_rate, validate.
  rewrite Hschema, Hadmin, Hrow. cbn [negb].
  destruct ((er_locked row =? 1) || (0 <? getExchangeRateUsageCount db id)) eqn:G.
  - assert (Hyes : er_locked row = 1 \/ used_by_invoice db row) by (now apply Hguard).
    split; [intros _; split; reflexivity|].
    split; [intros Hno; contradiction|].
    split; [split; [intros _; exact Hyes | intros _; reflexivity]|].
    split; [split; [intros _; exact Hyes | intros _; reflexivity]|exact Hmonth].
  - assert (Hno : ~ (er_locked row = 1 \/ used_by_invoice db row)).
    { intros Hyes. apply Hguard in Hyes. discriminate. }
    destruct Hdate as [date Hdate]. rewrite Hdate.
    split; [intros Hyes; contradiction|].
    split; [intros _; split; [exists date; split; reflexivity | reflexivity]|].
    split; [split; [|intros Hyes; contradiction]|].
    { destruct (rate_date_taken db id date); simpl; discriminate. }
    split; [split; [|intros Hyes; contradiction]|exact Hmonth].
    simpl. discriminate.
Qed.

Lemma exchange_rate_lock_witness :
  put_exchange_rate (fun _ _ _ => false) admin 1 new_rate_body generated_db
  = (generated_db, Failure 409 "EXCHANGE_RATE_LOCKED")
  /\ delete_exchange_rate admin 1 generated_db
     = (generated_db, Failure 409 "EXCHANGE_RATE_LOCKED").
Proof.
  refine (proj1 (exchange_rate_lock (fun _ _ _ => false) admin 1 new_rate_body
                   (mkRatePayload "2026-02-01" 41%Q "manual" 0 rate_active None)
                   generated_db (lock_rate scenario_rate) eq_refl eq_refl _ eq_refl) _).
  - vm_compute. repeat constructor. intros [].
  - left. reflexivity.
Defined.

(* ------------------------------------------------------------------ *)
(** ** Who acts *)

Lemma schema_created_by (body : GenerateBody) (payload : GeneratePayload) :
  generateInvoiceSchema body = Some payload ->
  body_created_by body = None -> created_by payload = None.
Proof.
  unfold generateInvoiceSchema. intros H Hnone. rewrite Hnone in H. simpl in H.
  destruct (Schema.positive_int _); [|discriminate].
  destruct (Schema.month_string _); [|discriminate].
  destruct (Schema.date_string _); [|discriminate].
  destruct (Schema.flag_default0 _); [|discriminate].
  injection H as <-. reflexivity.
Qed.

(** C6 (amended). The settlement routes refuse a body without its actor
    (created_by, closed_by, requested_by, approved_by) with VALIDATION_ERROR
    and leave the state alone, whatever the route would do. The invoice
    generator accepts a body without created_by: the invoice it creates is
    recorded as created by the authenticated user, or by user 1. *)
Theorem actor_required_on_settlement_only (db : Db) :
  (forall (A : Type) (route : BatchGeneratePayload -> Db -> Db * Response A) body,
      gb_created_by body = None ->
      validate generateSchema route body db = (db, Failure 400 "VALIDATION_ERROR"))
  /\ (forall body,
         ib_created_by body = None ->
         issue body db = (db, Failure 400 "VALIDATION_ERROR"))
  /\ (forall batchId body,
         cb_closed_by body = None ->
         close batchId body db = (db, Failure 400 "VALIDATION_ERROR"))
  /\ (forall batchId body,
         rb_requested_by body = None ->
         reopen_request batchId body db = (db, Failure 400 "VALIDATION_ERROR"))
  /\ (forall requestId body,
         db_approved_by body = None ->
         approve requestId body db = (db, Failure 400 "VALIDATION_ERROR")
         /\ reject requestId body db = (db, Failure 400 "VALIDATION_ERROR"))
  /\ (forall req body db' o n fxid,
         body_created_by body = None ->
         generate req body db = (db', Success 200 (Generated o n fxid)) ->
         exists inv,
           o = Some inv
           /\ In inv (invoices db')
           /\ inv_created_by inv = authUserId req
           /\ 1 <= inv_created_by inv).
Proof.
  split; [|split; [|split; [|split; [|split]]]].
  - intros A route body Hnone. unfold validate, generateSchema. rewrite Hnone. simpl.
    destruct (Schema.positive_int _); [|reflexivity].
    destruct (Schema.month_string _); reflexivity.
  - intros body Hnone. unfold issue, validate, issueInvoiceSchema. rewrite Hnone. simpl.
    destruct (Schema.positive_int _); [|reflexivity].
    destruct (Schema.date_string (ib_issue_date body)); [|reflexivity].
    destruct (Schema.date_string (ib_due_date body)); reflexivity.
  - intros batchId body Hnone. unfold close, validate, closeBatchSchema.
    rewrite Hnone. reflexivity.
  - intros batchId body Hnone. unfold reopen_request, validate, reopenRequestSchema.
    rewrite Hnone. reflexivity.
  - intros requestId body Hnone. unfold approve, reject, validate, reopenDecisionSchema.
    rewrite Hnone. split; reflexivity.
  - intros req body db' o n fxid Hnone Hgen.
    destruct (generate_inv _ _ _ _ _ Hgen) as (payload & Hschema & Hwork).
    pose proof (schema_created_by body payload Hschema Hnone) as Hcb.
    destruct (generate_work_generated _ _ _ _ _ _ _ Hwork) as (db1 & Hfresh & _).
    destruct (generate_fresh_generated _ _ _ _ _ _ _ _ Hfresh)
      as (fxRow & events & _ & _ & _ & _ & _ & Hinv & _ & Ho & _).
    cbv zeta in Hinv, Ho.
    set (invoiceId := next_id (map inv_id (invoices db1))) in *.
    set (grouped := grouped_of (er_rate fxRow) events []) in *.
    set (row := draft_row _ _ _ _ invoiceId) in *.
    assert (Hrow : inv_id row = next_id (map inv_id (invoices db1))) by reflexivity.
    change invoiceId with (inv_id row) in Hinv at 1.
    rewrite (update_fresh_row _ _ _ Hrow) in Hinv.
    set (inv := set_totals (subtotal_of grouped) (vat_of grouped) (total_of grouped) row) in *.
    exists inv. split.
    { rewrite Ho. unfold invoice_by_id. rewrite Hinv.
      apply (find_fresh_row (invoices db1) inv). exact Hrow. }
    split; [rewrite Hinv; apply in_or_app; right; now left|].
    assert (Hby : inv_created_by inv = authUserId req).
    { unfold inv, row. simpl. rewrite Hcb. reflexivity. }
    split; [exact Hby|]. rewrite Hby. unfold authUserId.
    destruct (user req) as [u|]; [|lia]. destruct (sub u) as [a|]; [|lia].
    destruct (Z.ltb_spec 0 a); lia.
Qed.

Lemma actor_required_on_settlement_only_witness :
  issue (mkIssueBody (Some 1) (Some "2026-03-01") (Some "2026-03-31") None) batch_db
  = (batch_db, Failure 400 "VALIDATION_ERROR").
Proof.
  exact (proj1 (proj2 (actor_required_on_settlement_only batch_db))
               (mkIssueBody (Some 1) (Some "2026-03-01") (Some "2026-03-31") None)
               eq_refl).
Defined.

(** C6 as worded, on the invoice generator: the body of the scenario names
    no created_by, and the request is served: an invoice is created, recorded
    as created by user 1. *)
Lemma generate_accepts_missing_creator :
  exists db' inv,
    body_created_by scenario_body = None
    /\ user anonymous = None
    /\ generate anonymous scenario_body scenario_db
       = (db', Success 200 (Generated (Some inv) 1 1))
    /\ invoices scenario_db = []
    /\ invoices db' = [inv]
    /\ inv_created_by inv = 1.
Proof.
  eexists. eexists. split; [reflexivity|]. split; [reflexivity|].
  split; [vm_compute; reflexivity|]. split; [reflexivity|].
  split; vm_compute; reflexivity.
Qed.

(* ------------------------------------------------------------------ *)
(** ** Price resolution *)

Lemma date_compare_cases (a b : Date) :
  match date_compare a b with
  | Lt => date_before a b
  | Eq => year a = year b /\ month a = month b /\ day a = day b
  | Gt => date_before b a
  end.
Proof.
  unfold date_compare, date_before.
  destruct (Z.compare_spec (year a) (year b));
    destruct (Z.compare_spec (month a) (month b));
    destruct (Z.compare_spec (day a) (day b)); lia.
Qed.

Lemma policy_newer_total (a b : PricePolicy * ServiceCatalog) :
  policy_newer a b = true \/ policy_newer b a = true.
Proof.
  unfold policy_newer.
  pose proof (date_compare_cases (pp_effective_from (fst a)) (pp_effective_from (fst b))) as Hab.
  pose proof (date_compare_cases (pp_effective_from (fst b)) (pp_effective_from (fst a))) as Hba.
  unfold date_before in *.
  destruct (date_compare (pp_effective_from (fst a)) (pp_effective_from (fst b)));
    destruct (date_compare (pp_effective_from (fst b)) (pp_effective_from (fst a)));
    try (now left); try (now right); lia.
Qed.

Lemma policy_newer_trans (a b c : PricePolicy * ServiceCatalog) :
  policy_newer a b = true -> policy_newer b c = true -> policy_newer a c = true.
Proof.
  unfold policy_newer.
  pose proof (date_compare_cases (pp_effective_from (fst a)) (pp_effective_from (fst b))) as Hab.
  pose proof (date_compare_cases (pp_effective_from (fst b)) (pp_effective_from (fst c))) as Hbc.
  pose proof (date_compare_cases (pp_effective_from (fst a)) (pp_effective_from (fst c))) as Hac.
  unfold date_before in *.
  destruct (date_compare (pp_effective_from (fst a)) (pp_effective_from (fst b)));
    destruct (date_compare (pp_effective_from (fst b)) (pp_effective_from (fst c)));
    destruct (date_compare (pp_effective_from (fst a)) (pp_effective_from (fst c)));
    intros H1 H2; try reflexivity; try discriminate; lia.
Qed.

(** [ORDER BY ... LIMIT 1] under a total, transitive order: the row chosen
    is a row of the list and comes first against every row of the list. *)
Lemma last_by_first {A : Type} (better : A -> A -> bool) (rows : list A) (x : A) :
  (forall a b, better a b = true \/ better b a = true) ->
  (forall a b c, better a b = true -> better b c = true -> better a c = true) ->
  last_by better rows = Some x ->
  In x rows /\ forall y, In y rows -> better x y = true.
Proof.
  intros Htotal Htrans. revert x.
  induction rows as [|r rest IH]; intros x; simpl; [discriminate|].
  destruct (last_by better rest) as [r'|] eqn:Hrest.
  - destruct (IH r' eq_refl) as [Hin Hbest].
    destruct (better r' r) eqn:Hcmp; intros H; injection H as <-.
    + split; [now right|]. intros y [<-|Hy]; [exact Hcmp | now apply Hbest].
    + assert (Hr : better r r' = true)
        by (destruct (Htotal r r') as [H|H]; [exact H | congruence]).
      split; [now left|]. intros y [<-|Hy].
      * destruct (Htotal r r); assumption.
      * apply (Htrans r r' y Hr). now apply Hbest.
  - intros H. injection H as <-. split; [now left|].
    intros y [<-|Hy].
    + destruct (Htotal r r); assumption.
    + destruct rest as [|r0 rest']; [destruct Hy|].
      simpl in Hrest. destruct (last_by better rest'); [destruct (better a r0)|]; discriminate.
Qed.

Lemma last_by_none {A : Type} (better : A -> A -> bool) (rows : list A) :
  last_by better rows = None <-> rows = [].
Proof.
  split; [|intros ->; reflexivity].
  destruct rows as [|r rest]; [reflexivity|]. simpl.
  destruct (last_by better rest) as [r'|]; [destruct (better r' r)|]; discriminate.
Qed.

(** C7. The policy that price resolution returns is a live active policy of
    the client on a live active service, in force on the date
    (effective_from <= date, effective_to null or >= date), and no other such
    policy has a later effective_from, or the same effective_from and a higher
    id; it returns null exactly when there is no such policy. In that case
    upserting the service event of a movement returns null without touching
    the state and without throwing, so the enclosing transaction goes on as
    if the step were not there. *)
Theorem price_resolution (params : OutboundParams) (db : Db) :
  (forall row,
      resolveActivePricePolicy (clientId params) (orderDate params) db = Return (Some row) db ->
      exists pp sc,
        In pp (price_policies db) /\ In sc (service_catalog db)
        /\ row = policy_row (pp, sc)
        /\ sc_id sc = pp_service_id pp
        /\ pp_client_id pp = clientId params
        /\ pp_active pp = true /\ pp_deleted pp = false
        /\ sc_active sc = true /\ sc_deleted sc = false
        /\ date_leb (pp_effective_from pp) (orderDate params) = true
        /\ (forall t, pp_effective_to pp = Some t -> date_leb (orderDate params) t = true)
        /\ forall pp' sc',
            In pp' (price_policies db) -> In sc' (service_catalog db) ->
            eligible (clientId params) (orderDate params) (pp', sc') = true ->
            date_compare (pp_effective_from pp) (pp_effective_from pp') = Gt
            \/ (date_compare (pp_effective_from pp) (pp_effective_from pp') = Eq
                /\ pp_id pp' <= pp_id pp))
  /\ (exists o, resolveActivePricePolicy (clientId params) (orderDate params) db = Return o db
                /\ (o = None <-> active_policies (clientId params) (orderDate params) db = []))
  /\ (active_policies (clientId params) (orderDate params) db = [] ->
      upsertOutboundServiceEvent params db = Return None db
      /\ forall (A : Type) (rest : Tx A),
          withTransaction (upsertOutboundServiceEvent params ;;; rest) db
          = withTransaction rest db).
Proof.
  unfold resolveActivePricePolicy, query.
  split; [|split].
  - intros row H. injection H as H.
    destruct (last_by policy_newer (active_policies (clientId params) (orderDate params) db))
      as [[pp sc]|] eqn:Hbest; [|discriminate].
    injection H as <-.
    destruct (last_by_first _ _ _ policy_newer_total policy_newer_trans Hbest) as [Hin Hfirst].
    unfold active_policies in Hin. apply filter_In in Hin. destruct Hin as [Hprod Hel].
    apply in_prod_iff in Hprod. destruct Hprod as [Hpp Hsc].
    exists pp, sc. split; [exact Hpp|]. split; [exact Hsc|]. split; [reflexivity|].
    unfold eligible in Hel. simpl in Hel.
    repeat (apply andb_prop in Hel; let H := fresh "Hc" in destruct Hel as [Hel H]).
    apply Z.eqb_eq in Hel. apply Z.eqb_eq in Hc5.
    split; [exact Hel|]. split; [exact Hc5|]. split; [exact Hc4|].
    split; [now destruct (pp_deleted pp)|]. split; [exact Hc2|].
    split; [now destruct (sc_deleted sc)|]. split; [exact Hc0|].
    split; [intros t Ht; rewrite Ht in Hc; exact Hc|].
    intros pp' sc' Hpp' Hsc' Hel'.
    assert (Hin' : In (pp', sc') (active_policies (clientId params) (orderDate params) db)).
    { apply filter_In. split; [apply in_prod_iff; now split | exact Hel']. }
    specialize (Hfirst _ Hin'). unfold policy_newer in Hfirst. simpl in Hfirst.
    destruct (date_compare (pp_effective_from pp) (pp_effective_from pp'));
      [right; split; [reflexivity | now apply Z.leb_le] | discriminate | now left].
  - eexists. split; [reflexivity|].
    rewrite <- (last_by_none policy_newer).
    destruct (last_by policy_newer _); simpl; split; intros H; (reflexivity || discriminate).
  - intros Hnone.
    assert (Hrun : upsertOutboundServiceEvent params db = Return None db).
    { unfold upsertOutboundServiceEvent, resolveActivePricePolicy. run_tx.
      rewrite Hnone. reflexivity. }
    split; [exact Hrun|]. intros A rest. unfold withTransaction, bind.
    rewrite Hrun. reflexivity.
Qed.

Lemma price_resolution_witness :
  exists pp sc,
    In pp (price_policies priced_db) /\ In sc (service_catalog priced_db)
    /\ mkPolicyRow 2 3 12%Q "THB" "QTY" = policy_row (pp, sc)
    /\ sc_id sc = pp_service_id pp
    /\ pp_client_id pp = clientId shipment
    /\ pp_active pp = true /\ pp_deleted pp = false
    /\ sc_active sc = true /\ sc_deleted sc = false
    /\ date_leb (pp_effective_from pp) (orderDate shipment) = true
    /\ (forall t, pp_effective_to pp = Some t -> date_leb (orderDate shipment) t = true)
    /\ forall pp' sc',
        In pp' (price_policies priced_db) -> In sc' (service_catalog priced_db) ->
        eligible (clientId shipment) (orderDate shipment) (pp', sc') = true ->
        date_compare (pp_effective_from pp) (pp_effective_from pp') = Gt
        \/ (date_compare (pp_effective_from pp) (pp_effective_from pp') = Eq
            /\ pp_id pp' <= pp_id pp).
Proof.
  apply (proj1 (price_resolution shipment priced_db)). reflexivity.
Defined.

(* ------------------------------------------------------------------ *)
(** ** Printing and reading numbers *)

Lemma toString_digits (n : Z) :
  0 <= n -> Js.toString n = NilEmpty.string_of_uint (digits_of n).
Proof.
  intros Hn. unfold Js.toString, digits_of. destruct n as [|p|p]; [reflexivity| |lia].
  simpl. pose proof (DecimalPos.Unsigned.to_uint_nonnil p) as Hnil.
  destruct (Pos.to_uint p); [congruence | reflexivity ..].
Qed.

Lemma Number_toString (n : Z) : 0 <= n -> Js.Number (Js.toString n) = Some n.
Proof.
  intros Hn. rewrite (toString_digits n Hn). unfold Js.Number.
  rewrite NilEmpty.usu. simpl. f_equal. unfold digits_of.
  destruct n as [|p|p]; [reflexivity| |lia].
  unfold N.of_uint. rewrite DecimalPos.Unsigned.of_to. reflexivity.
Qed.

Lemma Number_zeros (k : nat) (s : string) : Js.Number (Js.zeros k ++ s) = Js.Number s.
Proof.
  unfold Js.Number. induction k as [|k IH]; [reflexivity|].
  rewrite <- IH. simpl.
  destruct (NilEmpty.uint_of_string (Js.zeros k ++ s)); reflexivity.
Qed.

Lemma Number_padStart (w : nat) (n : Z) :
  0 <= n -> Js.Number (Js.padStart w (Js.toString n)) = Some n.
Proof.
  intros Hn. unfold Js.padStart. rewrite Number_zeros. now apply Number_toString.
Qed.






Lemma append_assoc (a b c : string) : (a ++ b) ++ c = a ++ (b ++ c).
Proof.
  induction a as [|x a IH]; simpl; [reflexivity|]. now rewrite IH.
Qed.




(* ------------------------------------------------------------------ *)
(** ** The month window *)

Lemma every_year_four_digits : forallb four_digits all_years = true.
Proof. vm_compute. reflexivity. Qed.

Lemma in_count_up (n : nat) :
  forall z y, z <= y < z + Z.of_nat n -> In y (count_up n z).
Proof.
  induction n as [|n IH]; intros z y Hy; [lia|].
  simpl. destruct (Z.eq_dec z y) as [E|E]; [now left|].
  right. apply IH. lia.
Qed.

Lemma year_four_digits (y : Z) : 0 <= y <= 9999 -> four_digits y = true.
Proof.
  intros Hy. pose proof every_year_four_digits as Hall.
  rewrite forallb_forall in Hall. apply Hall.
  unfold all_years. apply in_count_up. lia.
Qed.




Lemma in_insert_by {A : Type} (key : A -> Z) (r x : A) (sorted : list A) :
  In x (insert_by key r sorted) <-> x = r \/ In x sorted.
Proof.
  induction sorted as [|r' rest IH]; simpl; [intuition|].
  destruct (key r <=? key r'); simpl; [intuition|]. rewrite IH. intuition.
Qed.

Lemma in_order_by {A : Type} (key : A -> Z) (x : A) (rows : list A) :
  In x (order_by key rows) <-> In x rows.
Proof.
  unfold order_by. induction rows as [|r rows IH]; simpl; [reflexivity|].
  rewrite in_insert_by, IH. intuition.
Qed.



Lemma trunc100_monotone (x y : Q) : (x <= y)%Q -> trunc100 x <= trunc100 y.
Proof.
  intros H. unfold trunc100.
  apply Z.mul_le_mono_nonneg_r; [lia|].
  apply Qfloor_resp_le. unfold Qdiv.
  apply Qmult_le_compat_r; [exact H|]. discriminate.
Qed.

(** X1 ([trunc100]). The result is the largest multiple of 100 that does not
    exceed the input: it divides by 100, lies within 100 below the input, no
    larger multiple of 100 fits under the input, truncating again changes
    nothing, and a larger input never gives a smaller result. *)
Theorem trunc100_largest_multiple (x : Q) :
  (100 | trunc100 x)
  /\ (inject_Z (trunc100 x) <= x)%Q
  /\ (x < inject_Z (trunc100 x + 100))%Q
  /\ (forall z, (100 | z) -> (inject_Z z <= x)%Q -> z <= trunc100 x)
  /\ trunc100 (inject_Z (trunc100 x)) = trunc100 x
  /\ (forall y, (x <= y)%Q -> trunc100 x <= trunc100 y).
Proof.
  destruct (trunc100_floor x) as [Hlo Hhi].
  split; [apply trunc100_divide|]. split; [exact Hlo|]. split; [exact Hhi|].
  split.
  - intros z [k Hk] Hz.
    assert (Hlt : (inject_Z z < inject_Z (trunc100 x + 100))%Q)
      by (eapply Qle_lt_trans; eassumption).
    rewrite <- Zlt_Qlt in Hlt.
    destruct (trunc100_divide x) as [j Hj]. lia.
  - split; [apply trunc100_fixed, trunc100_divide|].
    intros y. apply trunc100_monotone.
Qed.

Lemma append_inj_l (a b c : string) : a ++ b = a ++ c -> b = c.
Proof.
  induction a as [|x a IH]; simpl; intros H; [exact H|].
  injection H as H. now apply IH.
Qed.

(** X2 ([invoice_number], the numbering of the generator, the settlement
    route and duplicate-admin). Up to 9999 the sequence is printed as exactly
    four digits; beyond that the number grows instead of wrapping, so two
    sequence numbers of one client and month never print as the same invoice
    number. *)
Theorem invoice_number_injective (prefix : string) (clientId : Z) (yyyymm : string)
        (n n' : Z) :
  0 <= n -> 0 <= n' ->
  (n <= 9999 -> Schema.matches "dddd" (Js.padStart 4 (Js.toString n)) = true)
  /\ Js.Number (Js.padStart 4 (Js.toString n)) = Some n
  /\ (invoice_number prefix clientId yyyymm n = invoice_number prefix clientId yyyymm n'
      -> n = n').
Proof.
  intros Hn Hn'. split.
  - intros Hle. apply (year_four_digits n). lia.
  - split; [now apply Number_padStart|].
    unfold invoice_number. intros H.
    repeat apply append_inj_l in H.
    apply (f_equal Js.Number) in H.
    rewrite !Number_padStart in H by assumption. congruence.
Qed.

Lemma invoice_number_injective_witness :
  (7 <= 9999 -> Schema.matches "dddd" (Js.padStart 4 (Js.toString 7)) = true)
  /\ Js.Number (Js.padStart 4 (Js.toString 7)) = Some 7
  /\ (invoice_number "KRW" 7 "202602" 7 = invoice_number "KRW" 7 "202602" 12 -> 7 = 12).
Proof.
  apply (invoice_number_injective "KRW" 7 "202602" 7 12); lia.
Defined.

From Stdlib Require Import Lqa.

(** X3 ([resolveInvoiceSequence]). Numbers are handed out one by one: a
    call returns the counter's next value and the call after it the value
    after that, the first number of a client and month without a counter row
    being 1. An allocation writes invoice_sequences only, leaves the counter
    of every other client and month where it was, and after any run of
    allocations each counter has advanced by the number of allocations made
    for its own client and month. *)
Theorem sequence_is_gap_free (clientId : Z) (yyyymm : string) (db : Db) :
  NoDup (map seq_id (invoice_sequences db)) ->
  (exists db1 db2,
      resolveInvoiceSequence clientId yyyymm db
      = Return (next_sequence clientId yyyymm db) db1
      /\ resolveInvoiceSequence clientId yyyymm db1
         = Return (next_sequence clientId yyyymm db + 1) db2
      /\ db1 = with_invoice_sequences (bump_sequence clientId yyyymm) db
      /\ NoDup (map seq_id (invoice_sequences db1))
      /\ forall c' ym',
          key_eqb (c', ym') (clientId, yyyymm) = false ->
          next_sequence c' ym' db1 = next_sequence c' ym' db)
  /\ (find (same_key clientId yyyymm) (invoice_sequences db) = None ->
      next_sequence clientId yyyymm db = 1)
  /\ (forall keys k,
         next_in (fst k) (snd k) (allocate_all keys (invoice_sequences db))
         = next_sequence (fst k) (snd k) db + allocations_of k keys).
Proof.
  intros Hnd. split; [|split].
  - exists (with_invoice_sequences (bump_sequence clientId yyyymm) db).
    eexists. split; [apply resolveInvoiceSequence_run|].
    split.
    { rewrite resolveInvoiceSequence_run. unfold next_sequence. cbn.
      rewrite next_in_bumped. reflexivity. }
    split; [reflexivity|]. split.
    { cbn. now apply bump_sequence_unique. }
    intros c' ym' Hk. unfold next_sequence. cbn. now apply next_in_other.
  - intros Hnone. unfold next_sequence, next_in. now rewrite Hnone.
  - intros keys k. unfold next_sequence. now apply counter_after_allocations.
Qed.

Lemma sequence_is_gap_free_witness :
  (exists db1 db2,
      resolveInvoiceSequence 7 "202602" generated_db
      = Return (next_sequence 7 "202602" generated_db) db1
      /\ resolveInvoiceSequence 7 "202602" db1
         = Return (next_sequence 7 "202602" generated_db + 1) db2
      /\ db1 = with_invoice_sequences (bump_sequence 7 "202602") generated_db
      /\ NoDup (map seq_id (invoice_sequences db1))
      /\ forall c' ym',
          key_eqb (c', ym') (7, "202602") = false ->
          next_sequence c' ym' db1 = next_sequence c' ym' generated_db)
  /\ (find (same_key 7 "202602") (invoice_sequences generated_db) = None ->
      next_sequence 7 "202602" generated_db = 1)
  /\ (forall keys k,
         next_in (fst k) (snd k) (allocate_all keys (invoice_sequences generated_db))
         = next_sequence (fst k) (snd k) generated_db + allocations_of k keys).
Proof.
  apply (sequence_is_gap_free 7 "202602" generated_db).
  vm_compute. constructor; [intros []|constructor].
Defined.

(** X4 ([mapBillingBasisFromUnit] feeding [calcAmountByBasis]). A catalog
    service is charged per order, per box or per piece when its billing unit
    is ORDER, BOX or SKU. Every other unit, CBM, PALLET, EVENT and MONTH
    among them, is stored as the MANUAL basis, for which the pricing service
    counts no units: whatever the quantity, the box count and the unit price,
    the amount is zero. *)
Theorem manual_basis_bills_nothing (unit : string) (qty boxCount price : Q) :
  (unit = "ORDER" ->
   basisUnits (calcAmountByBasis (mapBillingBasisFromUnit unit) qty boxCount) = 1%Q)
  /\ (unit = "BOX" ->
      basisUnits (calcAmountByBasis (mapBillingBasisFromUnit unit) qty boxCount) = boxCount)
  /\ (unit = "SKU" ->
      basisUnits (calcAmountByBasis (mapBillingBasisFromUnit unit) qty boxCount) = qty)
  /\ (unit <> "ORDER" -> unit <> "BOX" -> unit <> "SKU" ->
      mapBillingBasisFromUnit unit = "MANUAL"
      /\ basisUnits (calcAmountByBasis (mapBillingBasisFromUnit unit) qty boxCount) = 0%Q
      /\ (toFixed4 (price * basisUnits (calcAmountByBasis (mapBillingBasisFromUnit unit)
                                                            qty boxCount)) == 0)%Q)
  /\ Forall (fun u =>
               In u ["ORDER"; "BOX"; "SKU"]
               \/ basisUnits (calcAmountByBasis (mapBillingBasisFromUnit u) qty boxCount) = 0%Q)
            BILLING_UNITS.
Proof.
  split; [intros ->; reflexivity|]. split; [intros ->; reflexivity|].
  split; [intros ->; reflexivity|]. split.
  - intros H1 H2 H3. unfold mapBillingBasisFromUnit.
    apply String.eqb_neq in H1, H2, H3. rewrite H1, H2, H3.
    split; [reflexivity|]. split; [reflexivity|].
    cbn [calcAmountByBasis String.eqb Ascii.eqb Bool.eqb basisUnits].
    unfold toFixed4.
    assert (E : (price * 0 * 10000 + (1 # 2) == 1 # 2)%Q) by ring.
    rewrite (Qfloor_comp _ _ E). reflexivity.
  - unfold BILLING_UNITS.
    repeat (apply Forall_cons;
            [first [left; cbn; tauto | right; reflexivity]|]).
    apply Forall_nil.
Qed.

(** X5 ([Number(x.toFixed(4))] in [upsertOutboundServiceEvent]). The amount
    written to a service event is a whole number of ten-thousandths, at most
    half a ten-thousandth away from price times units; an amount that
    already has four decimals is kept as it is. *)
Theorem toFixed4_rounds (x : Q) :
  (0 <= x)%Q ->
  (0 <= toFixed4 x)%Q
  /\ (toFixed4 x - x <= 1 # 20000)%Q
  /\ (x - toFixed4 x < 1 # 20000)%Q
  /\ (toFixed4 (toFixed4 x) == toFixed4 x)%Q
  /\ (forall k : Z, (x == k # 10000)%Q -> (toFixed4 x == x)%Q).
Proof.
  intros Hx.
  assert (Hexact : forall k : Z, Qfloor ((k # 10000) * 10000 + (1 # 2)) = k).
  { intros k.
    assert (E : ((k # 10000) * 10000 + (1 # 2) == inject_Z k + (1 # 2))%Q).
    { unfold Qeq, inject_Z. cbn. lia. }
    rewrite (Qfloor_comp _ _ E).
    apply Z.le_antisymm.
    - cut (Qfloor (inject_Z k + (1 # 2)) < k + 1); [lia|].
      rewrite Zlt_Qlt. eapply Qle_lt_trans; [apply Qfloor_le|].
      rewrite inject_Z_plus. change (inject_Z 1) with 1%Q. lra.
    - rewrite <- (Qfloor_Z k) at 1. apply Qfloor_resp_le. lra. }
  unfold toFixed4.
  set (n := Qfloor (x * 10000 + (1 # 2))).
  pose proof (Qfloor_le (x * 10000 + (1 # 2))) as Hlo.
  pose proof (Qlt_floor (x * 10000 + (1 # 2))) as Hhi.
  fold n in Hlo, Hhi. rewrite inject_Z_plus in Hhi. change (inject_Z 1) with 1%Q in Hhi.
  assert (En : (n # 10000 == inject_Z n * (1 # 10000))%Q).
  { unfold Qeq, inject_Z, Qmult. cbn. lia. }
  assert (Hn : 0 <= n).
  { unfold n. rewrite <- (Qfloor_Z 0). apply Qfloor_resp_le.
    change (inject_Z 0) with 0%Q. lra. }
  split.
  { unfold Qle. cbn [Qnum Qden]. lia. }
  split; [rewrite En; lra|]. split; [rewrite En; lra|].
  split.
  { rewrite Hexact. reflexivity. }
  intros k Hk. subst n. rewrite (Qfloor_comp _ ((k # 10000) * 10000 + (1 # 2))).
  - rewrite Hexact. symmetry. exact Hk.
  - rewrite Hk. reflexivity.
Qed.

Lemma toFixed4_rounds_witness :
  (0 <= toFixed4 (12 * 5))%Q
  /\ (toFixed4 (12 * 5) - 12 * 5 <= 1 # 20000)%Q
  /\ (12 * 5 - toFixed4 (12 * 5) < 1 # 20000)%Q
  /\ (toFixed4 (toFixed4 (12 * 5)) == toFixed4 (12 * 5))%Q
  /\ (forall k : Z, (12 * 5 == k # 10000)%Q -> (toFixed4 (12 * 5) == 12 * 5)%Q).
Proof.
  apply (toFixed4_rounds (12 * 5)). discriminate.
Defined.

(** X6 ([enforceWriteAccess] and [canWrite] against [requireAdmin]). The
    write guard lets every GET through and, for any other method, exactly
    the roles admin, manager and warehouse. So it never stops a request that
    an admin-only route would accept, and a request it refuses (always with
    403 FORBIDDEN) is one that the admin-only routes refuse too; a request
    without a user cannot write. *)
Theorem write_guard_roles (method : string) (req : Request) :
  (method = "GET" -> enforceWriteAccess method req = Next)
  /\ (requireAdmin req = true -> enforceWriteAccess method req = Next)
  /\ (enforceWriteAccess method req <> Next ->
      enforceWriteAccess method req = Refuse 403 "FORBIDDEN"
      /\ requireAdmin req = false)
  /\ (method <> "GET" ->
      (enforceWriteAccess method req = Next
       <-> exists u, user req = Some u
                     /\ (role u = "admin" \/ role u = "manager" \/ role u = "warehouse")))
  /\ (method <> "GET" -> user req = None ->
      enforceWriteAccess method req = Refuse 403 "FORBIDDEN").
Proof.
  unfold enforceWriteAccess, requireAdmin, canWrite.
  split; [intros ->; reflexivity|].
  destruct (String.eqb_spec method "GET") as [->|Hm].
  - split; [reflexivity|]. split; [congruence|]. split; congruence.
  - destruct (user req) as [u|]; cbn.
    + destruct (String.eqb_spec (role u) "admin") as [Ha|Ha]; cbn.
      * split; [reflexivity|]. split; [congruence|]. split; [|congruence].
        intros _. split; [|reflexivity]. intros _. exists u. auto.
      * destruct (String.eqb_spec (role u) "manager") as [Hb|Hb]; cbn.
        { split; [reflexivity|]. split; [congruence|]. split; [|congruence].
          intros _. split; [|reflexivity]. intros _. exists u. auto. }
        destruct (String.eqb_spec (role u) "warehouse") as [Hc|Hc]; cbn.
        { split; [reflexivity|]. split; [congruence|]. split; [|congruence].
          intros _. split; [|reflexivity]. intros _. exists u. auto. }
        split; [discriminate|]. split; [auto|]. split; [|congruence].
        intros _. split; [discriminate|].
        intros (u' & Hu & H). injection Hu as <-. tauto.
    + split; [discriminate|]. split; [auto|]. split; [|reflexivity].
      intros _. split; [discriminate|]. intros (u' & Hu & _). discriminate.
Qed.

Lemma placeholders_app (a b : string) :
  placeholders (a ++ b) = (placeholders a + placeholders b)%nat.
Proof.
  induction a as [|c a IH]; simpl; [reflexivity|]. rewrite IH. lia.
Qed.

Lemma and_where_binds (cond : bool) (clause : string) (value : SqlParam)
      (q : string * list SqlParam) :
  placeholders clause = 1%nat -> binds_all q -> binds_all (and_where cond clause value q).
Proof.
  unfold binds_all, and_where. intros Hc Hq. destruct cond; [|exact Hq].
  cbn [fst snd]. rewrite placeholders_app, length_app, Hc, Hq. reflexivity.
Qed.

Lemma and_where_prefix (cond : bool) (clause : string) (value : SqlParam)
      (base : string) (q : string * list SqlParam) :
  (exists rest, fst q = base ++ rest) ->
  exists rest, fst (and_where cond clause value q) = base ++ rest.
Proof.
  intros [rest H]. unfold and_where. destruct cond; [|now exists rest].
  exists (rest ++ clause). cbn [fst]. rewrite H. apply append_assoc.
Qed.

(** X7 ([buildBillingEventsWhere]). The clause always starts with the
    filter on live rows and carries exactly as many placeholders as there
    are parameters, whichever filters are given. A month that is not written
    YYYY-MM is not an error: the clause is the one built without a month, so
    the events of every month are listed; a month that is bound is written
    YYYY-MM. *)
Theorem events_where_binds_every_placeholder
        (toNumber : string -> option Q) (toUpperCase : string -> string)
        (query : EventsQuery) :
  let built := buildBillingEventsWhere toNumber toUpperCase query in
  placeholders (fst built) = List.length (snd built)
  /\ (exists rest, fst built = " WHERE be.deleted_at IS NULL" ++ rest)
  /\ (Schema.matches "dddd-dd" (text_of (q_invoice_month query)) = false ->
      built = buildBillingEventsWhere toNumber toUpperCase
                (mkEventsQuery (q_client_id query) (q_status query)
                               (q_service_code query) None))
  /\ (q_client_id query = None -> q_status query = None ->
      q_service_code query = None -> q_invoice_month query = None ->
      built = (" WHERE be.deleted_at IS NULL", []))
  /\ (forall m, q_invoice_month query = Some m -> Schema.matches "dddd-dd" m = true ->
      exists clause params,
        built = (clause ++ " AND DATE_FORMAT(be.event_date, '%Y-%m') = ?",
                 (params ++ [PString m])%list)).
Proof.
  cbv zeta. unfold buildBillingEventsWhere. split; [|split; [|split; [|split]]].
  - repeat (apply and_where_binds; [reflexivity|]). reflexivity.
  - repeat apply and_where_prefix. exists EmptyString. reflexivity.
  - intros Hm. cbn [q_client_id q_status q_service_code q_invoice_month truthy text_of].
    rewrite Hm, andb_false_r. reflexivity.
  - intros -> -> -> ->. reflexivity.
  - intros m Hm Hmatch. rewrite Hm. cbn [truthy text_of]. rewrite Hmatch.
    assert (Hne : negb (String.eqb m EmptyString) = true).
    { destruct m; [discriminate Hmatch | reflexivity]. }
    rewrite Hne. cbn [andb and_where fst snd]. eexists. eexists. reflexivity.
Qed.

(** X8 ([normalizeInvoiceStatus] in GET /billing/invoices). The listing
    never shows deleted invoices or invoices without a month, and binds a
    parameter for each placeholder. The status filter is applied only for
    draft, issued or paid in any letter case, and is bound in lower case; any
    other status is dropped without an error, which lists the invoices of
    every status. *)
Theorem invoices_listing_filters
        (toLowerCase : string -> string) (query : InvoicesQuery) :
  let built := invoices_listing toLowerCase query in
  placeholders (fst built) = List.length (snd built)
  /\ (exists rest,
         fst built
         = " WHERE i.deleted_at IS NULL AND i.invoice_month IS NOT NULL" ++ rest)
  /\ (forall s, normalizeInvoiceStatus toLowerCase (iq_status query) = Some s ->
      (s = "draft" \/ s = "issued" \/ s = "paid")
      /\ s = toLowerCase (text_of (iq_status query))
      /\ In (PString s) (snd built))
  /\ (normalizeInvoiceStatus toLowerCase (iq_status query) = None ->
      built = invoices_listing toLowerCase
                (mkInvoicesQuery (iq_client_id query) (iq_invoice_month query) None)).
Proof.
  cbv zeta. unfold invoices_listing. split; [|split; [|split]].
  - cbn [fst snd]. rewrite placeholders_app, Nat.add_0_r.
    repeat (apply and_where_binds; [reflexivity|]). reflexivity.
  - cbn [fst].
    match goal with
    | |- exists rest, fst ?q ++ ?tail = ?base ++ rest =>
        assert (H : exists rest, fst q = base ++ rest)
    end.
    { repeat apply and_where_prefix. exists EmptyString. reflexivity. }
    destruct H as [rest H]. eexists. rewrite H, append_assoc. reflexivity.
  - intros s Hs. rewrite Hs. cbn [truthy text_of snd].
    unfold normalizeInvoiceStatus in Hs.
    destruct (truthy (iq_status query)); [|discriminate].
    destruct (String.eqb_spec (toLowerCase (text_of (iq_status query))) "draft") as [E1|E1];
      [|destruct (String.eqb_spec (toLowerCase (text_of (iq_status query))) "issued")
          as [E2|E2];
        [|destruct (String.eqb_spec (toLowerCase (text_of (iq_status query))) "paid")
            as [E3|E3]]];
      cbn in Hs; try discriminate; injection Hs as <-.
    all: (split; [tauto|]); (split; [reflexivity|]).
    all: match goal with
         | |- context [negb (String.eqb ?v EmptyString)] =>
             replace (negb (String.eqb v EmptyString)) with true
               by (first [rewrite E1 | rewrite E2 | rewrite E3]; reflexivity)
         end.
    all: unfold and_where at 1; cbn [snd]; apply in_or_app; right; left; reflexivity.
  - intros Hs. rewrite Hs. cbn [iq_client_id iq_invoice_month iq_status].
    unfold normalizeInvoiceStatus. cbn [truthy]. reflexivity.
Qed.

(** X9 (GET /service-events). The listing always filters out deleted
    service events and binds one parameter per placeholder whichever of its
    six filters are given; a filter that is given as the empty string counts
    as not given; with no filter the statement is the plain listing in
    date order. *)
Theorem service_events_listing_binds (query : ServiceEventsQuery) :
  let built := service_events_listing query in
  placeholders (fst built) = List.length (snd built)
  /\ (exists rest, fst built = " WHERE deleted_at IS NULL" ++ rest)
  /\ (List.length (snd built) <= 6)%nat
  /\ (sq_client_id query = Some EmptyString ->
      built = service_events_listing
                (mkServiceEventsQuery None (sq_outbound_order_id query)
                   (sq_stock_transaction_id query) (sq_source_type query)
                   (sq_date_from query) (sq_date_to query)))
  /\ (forall v, sq_stock_transaction_id query = Some v -> v <> EmptyString ->
      In (PString v) (snd built))
  /\ (truthy (sq_client_id query) = false ->
      truthy (sq_outbound_order_id query) = false ->
      truthy (sq_stock_transaction_id query) = false ->
      truthy (sq_source_type query) = false ->
      truthy (sq_date_from query) = false ->
      truthy (sq_date_to query) = false ->
      built = (" WHERE deleted_at IS NULL ORDER BY event_date DESC, id DESC", [])).
Proof.
  cbv zeta. unfold service_events_listing. split; [|split; [|split; [|split; [|split]]]].
  - cbn [fst snd]. rewrite placeholders_app, Nat.add_0_r.
    repeat (apply and_where_binds; [reflexivity|]). reflexivity.
  - cbn [fst].
    match goal with
    | |- exists rest, fst ?q ++ ?tail = ?base ++ rest =>
        assert (H : exists rest, fst q = base ++ rest)
    end.
    { repeat apply and_where_prefix. exists EmptyString. reflexivity. }
    destruct H as [rest H]. eexists. rewrite H, append_assoc. reflexivity.
  - cbn [snd]. unfold and_where.
    destruct (truthy (sq_client_id query)), (truthy (sq_outbound_order_id query)),
      (truthy (sq_stock_transaction_id query)), (truthy (sq_source_type query)),
      (truthy (sq_date_from query)), (truthy (sq_date_to query));
      cbn; lia.
  - intros ->. reflexivity.
  - intros v Hv Hne. rewrite Hv. cbn [truthy text_of].
    apply String.eqb_neq in Hne. rewrite Hne. cbn [negb snd].
    unfold and_where at 1 2 3 4.
    destruct (truthy (sq_date_to query)), (truthy (sq_date_from query)),
      (truthy (sq_source_type query)); cbn [snd];
      repeat rewrite in_app_iff; cbn [In]; tauto.
  - intros -> -> -> -> -> ->. reflexivity.
Qed.

(* ------------------------------------------------------------------ *)
(** ** The generator, table by table *)

Lemma find_fresh {A : Type} (key : A -> Z) (t : list A) (x : A) :
  key x = next_id (map key t) ->
  find (fun a => key a =? key x) (t ++ [x])%list = Some x.
Proof.
  intros Hx.
  rewrite find_app_none.
  - now rewrite Z.eqb_refl.
  - destruct (find (fun a => key a =? key x) t) as [a|] eqn:E; [|reflexivity].
    apply find_some in E. destruct E as [Hin E].
    apply Z.eqb_eq in E.
    pose proof (next_id_gt (map key t) (key a) (in_map key t a Hin)). lia.
Qed.

Lemma update_fresh {A : Type} (key : A -> Z) (f : A -> A) (t : list A) (x : A) :
  key x = next_id (map key t) ->
  map (fun a => if key a =? key x then f a else a) (t ++ [x])%list = (t ++ [f x])%list.
Proof.
  intros Hx. rewrite map_app. cbn. rewrite Z.eqb_refl. f_equal.
  rewrite <- (map_id t) at 2. apply map_ext_in. intros a Hin.
  pose proof (next_id_gt (map key t) (key a) (in_map key t a Hin)).
  destruct (Z.eqb_spec (key a) (key x)); [lia | reflexivity].
Qed.

Lemma last_by_in {A : Type} (better : A -> A -> bool) (rows : list A) (x : A) :
  last_by better rows = Some x -> In x rows.
Proof.
  revert x. induction rows as [|r rows IH]; simpl; [discriminate|].
  intros x. destruct (last_by better rows) as [r'|].
  - destruct (better r' r); intros H; injection H as <-; [right; now apply IH | now left].
  - intros H. injection H as <-. now left.
Qed.

Lemma existing_invoice_in (c : Z) (m : string) (db : Db) (ex : Invoice) :
  existing_invoice c m db = Some ex ->
  In ex (invoices db) /\ inv_client_id ex = c /\ inv_invoice_month ex = Some m
  /\ inv_deleted ex = false.
Proof.
  unfold existing_invoice. intros H. apply last_by_in in H.
  apply filter_In in H. destruct H as [Hin H].
  apply andb_prop in H. destruct H as [H Hd]. apply andb_prop in H. destruct H as [Hc Hm].
  split; [exact Hin|]. split; [now apply Z.eqb_eq|].
  split.
  - unfold month_is in Hm. destruct (inv_invoice_month ex); [|discriminate].
    apply String.eqb_eq in Hm. now subst.
  - now destruct (inv_deleted ex).
Qed.

(** What a fresh generation leaves on the tables that the invoice itself is
    not stored in. *)
Lemma generate_fresh_tables (createdBy : Z) (payload : GeneratePayload)
      (range : MonthRange) (db db' : Db) (o : option Invoice) (n : nat) (fxid : Z) :
  generate_fresh createdBy payload range db = Return (Ok (Generated o n fxid)) db' ->
  exists fxRow,
    rate_on_or_before (invoice_date payload) db = Some fxRow
    /\ fxid = er_id fxRow
    /\ billing_events db'
       = mark_all (er_rate fxRow) (next_id (map inv_id (invoices db)))
                  (pending_events (client_id payload) range db) (billing_events db)
    /\ exchange_rates db'
       = map (fun r => if er_id r =? fxid then lock_rate r else r) (exchange_rates db)
    /\ service_catalog db' = service_catalog db
    /\ settlement_batches db' = settlement_batches db
    /\ settlement_reopen_logs db' = settlement_reopen_logs db.
Proof.
  unfold generate_fresh. run_tx.
  destruct (rate_on_or_before (invoice_date payload) db) as [fxRow|] eqn:Hfx; [|discriminate].
  assert (Hsame : pending_events (client_id payload) range (lock_rate_id (er_id fxRow) db)
                  = pending_events (client_id payload) range db) by reflexivity.
  destruct (pending_events (client_id payload) range (lock_rate_id (er_id fxRow) db))
    as [|e es] eqn:Hev; [discriminate|].
  rewrite resolveInvoiceSequence_run. unfold insert_invoice. cbn beta zeta.
  rewrite invoice_events_run. rewrite insert_items_run. unfold insert_item. run_tx.
  intros H. injection H as Ho Hn Hfxid Hdb.
  exists fxRow. subst fxid.
  split; [reflexivity|]. split; [reflexivity|].
  subst db'. rewrite <- Hsame. repeat split.
Qed.

(** A generation that succeeds is a fresh run on [regenerate_base]; an
    invoice that was in the way was a draft that the request asked to
    regenerate. *)
Lemma generate_work_base (req : Request) (payload : GeneratePayload)
      (db db' : Db) (o : option Invoice) (n : nat) (fxid : Z) :
  generate_work req payload db = Return (Ok (Generated o n fxid)) db' ->
  generate_fresh (parseCreator req (created_by payload)) payload
                 (monthRange (invoice_month payload)) (regenerate_base payload db)
  = Return (Ok (Generated o n fxid)) db'
  /\ forall ex,
      existing_invoice (client_id payload) (invoice_month payload) db = Some ex ->
      inv_status ex = draft /\ regenerate_draft payload <> 0.
Proof.
  unfold generate_work, regenerate_base. run_tx.
  destruct (existing_invoice (client_id payload) (invoice_month payload) db) as [existing|].
  - destruct (inv_status existing) eqn:Est; cbn; try discriminate.
    destruct (Z.eqb_spec (regenerate_draft payload) 0); [discriminate|].
    intros H. split; [exact H|]. intros ex Hex. injection Hex as <-. now split.
  - intros H. split; [exact H|]. discriminate.
Qed.

Lemma regenerate_base_tables (payload : GeneratePayload) (db : Db) :
  map inv_id (invoices (regenerate_base payload db)) = map inv_id (invoices db)
  /\ exchange_rates (regenerate_base payload db) = exchange_rates db
  /\ map be_id (billing_events (regenerate_base payload db)) = map be_id (billing_events db)
  /\ settlement_reopen_logs (regenerate_base payload db) = settlement_reopen_logs db.
Proof.
  unfold regenerate_base.
  destruct (existing_invoice (client_id payload) (invoice_month payload) db) as [ex|];
    [|repeat split].
  cbn. repeat split; rewrite map_map; apply map_ext; intros a.
  - destruct (inv_id a =? inv_id ex); reflexivity.
  - destruct (invoice_id_is (be_invoice_id a) (inv_id ex) && negb (be_deleted a)); reflexivity.
Qed.

(** The invoice table after a generation that succeeds: the rows of the
    base state followed by the new draft with its totals. *)
Lemma generate_invoice_row (req : Request) (payload : GeneratePayload)
      (db db' : Db) (o : option Invoice) (n : nat) (fxid : Z) :
  generate_work req payload db = Return (Ok (Generated o n fxid)) db' ->
  exists fxRow inv,
    rate_on_or_before (invoice_date payload) (regenerate_base payload db) = Some fxRow
    /\ fxid = er_id fxRow
    /\ o = Some inv
    /\ invoices db' = (invoices (regenerate_base payload db) ++ [inv])%list
    /\ inv_id inv = next_id (map inv_id (invoices db))
    /\ (let events := pending_events (client_id payload)
                                     (monthRange (invoice_month payload))
                                     (regenerate_base payload db) in
        let grouped := grouped_of (er_rate fxRow) events [] in
        inv = set_totals (subtotal_of grouped) (vat_of grouped) (total_of grouped)
                (draft_row (parseCreator req (created_by payload)) payload (er_rate fxRow)
                   (next_sequence (client_id payload)
                      (Js.replaceDash (invoice_month payload)) (regenerate_base payload db))
                   (next_id (map inv_id (invoices db))))
        /\ n = List.length events /\ events <> []).
Proof.
  intros Hwork.
  destruct (generate_work_base _ _ _ _ _ _ _ Hwork) as [Hfresh _].
  destruct (generate_fresh_generated _ _ _ _ _ _ _ _ Hfresh)
    as (fxRow & events & Hfx & Hid & Hev & Hne & Hn & Hinv & _ & Ho & _).
  cbv zeta in Hinv, Ho.
  destruct (regenerate_base_tables payload db) as (Hids & _).
  assert (Hev' : events = pending_events (client_id payload)
                            (monthRange (invoice_month payload)) (regenerate_base payload db))
    by (rewrite Hev; reflexivity).
  rewrite Hids in *.
  set (invoiceId := next_id (map inv_id (invoices db))) in *.
  set (row := draft_row _ _ _ _ invoiceId) in *.
  assert (Hrow : inv_id row = next_id (map inv_id (invoices (regenerate_base payload db))))
    by (rewrite Hids; reflexivity).
  change invoiceId with (inv_id row) in Hinv at 1.
  rewrite (update_fresh_row _ _ _ Hrow) in Hinv.
  set (inv := set_totals _ _ _ row) in Hinv.
  exists fxRow, inv. split; [exact Hfx|]. split; [exact Hid|].
  split.
  { rewrite Ho. unfold invoice_by_id. rewrite Hinv.
    apply (find_fresh_row (invoices (regenerate_base payload db)) inv). exact Hrow. }
  split; [exact Hinv|]. split; [reflexivity|].
  cbv zeta. rewrite <- Hev'. split; [reflexivity|]. split; assumption.
Qed.

(* ------------------------------------------------------------------ *)
(** ** Amounts: events, groups and lines *)










(* ------------------------------------------------------------------ *)
(** ** The events after a generation *)

Lemma mark_all_rows (fx : Q) (invoiceId : Z) (events : list BillingEvent) :
  forall t, mark_all fx invoiceId events t = map (mark_row fx invoiceId events) t.
Proof.
  induction events as [|ev rest IH]; intros t; simpl.
  - symmetry. apply map_id.
  - rewrite IH, map_map. reflexivity.
Qed.

Lemma mark_row_keeps (fx : Q) (invoiceId : Z) (events : list BillingEvent) :
  forall r,
    be_id (mark_row fx invoiceId events r) = be_id r
    /\ be_client_id (mark_row fx invoiceId events r) = be_client_id r
    /\ be_deleted (mark_row fx invoiceId events r) = be_deleted r
    /\ be_event_date (mark_row fx invoiceId events r) = be_event_date r.
Proof.
  induction events as [|ev rest IH]; intros r; [repeat split|].
  change (mark_row fx invoiceId (ev :: rest) r)
    with (mark_row fx invoiceId rest
            (if be_id r =? be_id ev
             then mark_invoiced (normalizedAmount fx ev) fx invoiceId r else r)).
  destruct (IH (if be_id r =? be_id ev
                then mark_invoiced (normalizedAmount fx ev) fx invoiceId r else r))
    as (H1 & H2 & H3 & H4).
  rewrite H1, H2, H3, H4. destruct (be_id r =? be_id ev); repeat split.
Qed.

Lemma mark_row_untouched (fx : Q) (invoiceId : Z) (events : list BillingEvent) :
  forall r,
    (forall ev, In ev events -> be_id ev <> be_id r) ->
    mark_row fx invoiceId events r = r.
Proof.
  induction events as [|ev rest IH]; intros r H; [reflexivity|].
  change (mark_row fx invoiceId (ev :: rest) r)
    with (mark_row fx invoiceId rest
            (if be_id r =? be_id ev
             then mark_invoiced (normalizedAmount fx ev) fx invoiceId r else r)).
  destruct (Z.eqb_spec (be_id r) (be_id ev)) as [E|E].
  - exfalso. apply (H ev); [now left | congruence].
  - apply IH. intros ev' Hin. apply H. now right.
Qed.

Lemma mark_row_stamped (fx : Q) (invoiceId : Z) (all events : list BillingEvent) :
  incl events all ->
  forall r,
    stamped fx invoiceId all r
    \/ (exists ev, In ev events /\ be_id ev = be_id r) ->
    stamped fx invoiceId all (mark_row fx invoiceId events r).
Proof.
  induction events as [|ev rest IH]; intros Hincl r H.
  - destruct H as [H|(ev & [] & _)]. exact H.
  - change (mark_row fx invoiceId (ev :: rest) r)
      with (mark_row fx invoiceId rest
              (if be_id r =? be_id ev
               then mark_invoiced (normalizedAmount fx ev) fx invoiceId r else r)).
    apply IH; [intros x Hx; apply Hincl; now right|].
    destruct (Z.eqb_spec (be_id r) (be_id ev)) as [E|E].
    + left. split; [reflexivity|]. split; [reflexivity|]. split; [reflexivity|].
      exists ev. split; [apply Hincl; now left|]. split; [cbn; congruence | reflexivity].
    + destruct H as [H|(ev' & [->|Hin] & Hid)]; [now left | congruence |].
      right. now exists ev'.
Qed.

Lemma mark_row_cases (fx : Q) (invoiceId : Z) (events : list BillingEvent) (r : BillingEvent) :
  (mark_row fx invoiceId events r = r
   /\ forall ev, In ev events -> be_id ev <> be_id r)
  \/ (stamped fx invoiceId events (mark_row fx invoiceId events r)
      /\ exists ev, In ev events /\ be_id ev = be_id r).
Proof.
  destruct (existsb (fun ev => be_id ev =? be_id r) events) eqn:E.
  - right. apply existsb_exists in E. destruct E as (ev & Hin & Hid).
    apply Z.eqb_eq in Hid. split; [|now exists ev].
    apply mark_row_stamped; [apply incl_refl|]. right. now exists ev.
  - left.
    assert (H : forall ev, In ev events -> be_id ev <> be_id r).
    { intros ev Hin Hid.
      assert (existsb (fun ev => be_id ev =? be_id r) events = true).
      { apply existsb_exists. exists ev. split; [exact Hin | now apply Z.eqb_eq]. }
      congruence. }
    split; [now apply mark_row_untouched | exact H].
Qed.



Lemma filter_none {A : Type} (p : A -> bool) (t : list A) :
  (forall a, In a t -> p a = false) -> filter p t = [].
Proof.
  induction t as [|a t IH]; intros H; [reflexivity|]. simpl.
  rewrite (H a (or_introl eq_refl)). apply IH. intros b Hb. apply H. now right.
Qed.

(** The events of the base state are live rows of the database, released
    where they were linked to the old draft. *)
Lemma regenerate_base_events (payload : GeneratePayload) (db : Db) (r : BillingEvent) :
  In r (billing_events (regenerate_base payload db)) ->
  exists r0,
    In r0 (billing_events db)
    /\ be_id r = be_id r0
    /\ (r = r0
        \/ (r = release_event r0
            /\ exists ex,
                existing_invoice (client_id payload) (invoice_month payload) db = Some ex
                /\ be_invoice_id r0 = Some (inv_id ex) /\ be_deleted r0 = false))
    /\ forall ex,
        existing_invoice (client_id payload) (invoice_month payload) db = Some ex ->
        be_invoice_id r = Some (inv_id ex) -> be_deleted r = true.
Proof.
  unfold regenerate_base.
  destruct (existing_invoice (client_id payload) (invoice_month payload) db) as [ex|].
  - cbn. intros Hin. apply in_map_iff in Hin. destruct Hin as (r0 & Hr & Hin).
    exists r0. split; [exact Hin|].
    destruct (invoice_id_is (be_invoice_id r0) (inv_id ex)) eqn:Elink;
      destruct (be_deleted r0) eqn:Edel; cbn in Hr; subst r.
    + split; [reflexivity|]. split; [now left|]. intros ex' _ _. exact Edel.
    + split; [reflexivity|]. split.
      * right. split; [reflexivity|]. exists ex. split; [reflexivity|].
        unfold invoice_id_is in Elink. destruct (be_invoice_id r0); [|discriminate].
        apply Z.eqb_eq in Elink. now subst.
      * intros ex' _ H. discriminate H.
    + split; [reflexivity|]. split; [now left|]. intros ex' _ _. exact Edel.
    + split; [reflexivity|]. split; [now left|].
      intros ex' Hex H. injection Hex as <-. rewrite H in Elink.
      cbn in Elink. rewrite Z.eqb_refl in Elink. discriminate.
  - intros Hin. exists r. split; [exact Hin|]. split; [reflexivity|].
    split; [now left|]. discriminate.
Qed.

(** A generation that succeeds, table by table. *)
Lemma generate_run (req : Request) (payload : GeneratePayload)
      (db db' : Db) (o : option Invoice) (n : nat) (fxid : Z) :
  generate_work req payload db = Return (Ok (Generated o n fxid)) db' ->
  exists fxRow inv,
    rate_on_or_before (invoice_date payload) (regenerate_base payload db) = Some fxRow
    /\ fxid = er_id fxRow
    /\ o = Some inv
    /\ inv_id inv = next_id (map inv_id (invoices db))
    /\ inv_fx_rate_thbkrw inv = Some (er_rate fxRow)
    /\ inv_status inv = draft
    /\ inv_deleted inv = false
    /\ invoices db' = (invoices (regenerate_base payload db) ++ [inv])%list
    /\ billing_events db'
       = map (mark_row (er_rate fxRow) (inv_id inv)
                (pending_events (client_id payload) (monthRange (invoice_month payload))
                                (regenerate_base payload db)))
             (billing_events (regenerate_base payload db))
    /\ exchange_rates db'
       = map (fun r => if er_id r =? fxid then lock_rate r else r) (exchange_rates db)
    /\ (exists rows,
           invoice_items db' = (invoice_items (regenerate_base payload db) ++ rows)%list
           /\ Forall (fun r => item_invoice_id r = inv_id inv) rows)
    /\ settlement_reopen_logs db' = settlement_reopen_logs db.
Proof.
  intros Hwork.
  destruct (generate_invoice_row _ _ _ _ _ _ _ Hwork)
    as (fxRow & inv & Hfx & Hid & Ho & Hinvs & Hinvid & Hrow).
  cbv zeta in Hrow. destruct Hrow as (Hinv & _ & _).
  destruct (generate_work_base _ _ _ _ _ _ _ Hwork) as [Hfresh _].
  destruct (generate_fresh_tables _ _ _ _ _ _ _ _ Hfresh)
    as (fxRow' & Hfx' & _ & Hev & Hrates & _ & _ & Hlogs).
  rewrite Hfx in Hfx'. injection Hfx' as <-.
  destruct (generate_fresh_generated _ _ _ _ _ _ _ _ Hfresh)
    as (fxRow' & events & Hfx' & _ & _ & _ & _ & _ & Hitems & _).
  rewrite Hfx in Hfx'. injection Hfx' as <-. cbv zeta in Hitems.
  destruct (regenerate_base_tables payload db) as (Hids & Hrt & _ & Hlg).
  exists fxRow, inv.
  split; [exact Hfx|]. split; [exact Hid|]. split; [exact Ho|]. split; [exact Hinvid|].
  split; [rewrite Hinv; reflexivity|]. split; [rewrite Hinv; reflexivity|].
  split; [rewrite Hinv; reflexivity|]. split; [exact Hinvs|].
  split.
  { rewrite Hev, mark_all_rows, Hids, Hinvid. reflexivity. }
  split; [rewrite Hrates, Hrt; reflexivity|].
  split; [|rewrite Hlogs; exact Hlg].
  rewrite Hids in Hitems. rewrite <- Hinvid in Hitems.
  destruct (append_items_rows (inv_id inv) (service_catalog (regenerate_base payload db))
              (grouped_of (er_rate fxRow) events [])
              (invoice_items (regenerate_base payload db)))
    as (rows & Happ & _ & _ & Hall).
  rewrite Happ in Hitems. rewrite <- app_assoc in Hitems.
  eexists. split; [exact Hitems|].
  apply Forall_app. split.
  - eapply Forall_impl; [|exact Hall]. intros a [Ha _]. exact Ha.
  - constructor; [reflexivity | constructor].
Qed.



Lemma find_all_false {A : Type} (p : A -> bool) (t : list A) :
  (forall a, In a t -> p a = false) -> find p t = None.
Proof.
  intros H. destruct (find p t) as [a|] eqn:E; [|reflexivity].
  apply find_some in E. destruct E as [Hin E]. rewrite (H a Hin) in E. discriminate.
Qed.

(** X12 (regeneration in POST /billing/invoices/generate). When a draft of
    the client and month was in the way and the generation succeeds, the
    request asked for regeneration and the old draft is taken apart: its
    invoice row and all its items are soft-deleted, no live event stays
    linked to it, and it can no longer be read as a live invoice. The new
    invoice has a larger id and is now the live invoice of the client and
    month. *)
Theorem regenerate_detaches_old_draft (req : Request) (body : GenerateBody)
        (payload : GeneratePayload) (db db' : Db) (ex : Invoice)
        (o : option Invoice) (n : nat) (fxid : Z) :
  generateInvoiceSchema body = Some payload ->
  existing_invoice (client_id payload) (invoice_month payload) db = Some ex ->
  generate req body db = (db', Success 200 (Generated o n fxid)) ->
  inv_status ex = draft
  /\ regenerate_draft payload = 1
  /\ (forall i, In i (invoices db') -> inv_id i = inv_id ex -> inv_deleted i = true)
  /\ (forall it,
         In it (invoice_items db') -> item_invoice_id it = inv_id ex ->
         item_deleted it = true)
  /\ (forall e,
         In e (billing_events db') -> be_invoice_id e = Some (inv_id ex) ->
         be_deleted e = true)
  /\ live_invoice (inv_id ex) db' = None
  /\ items_of (inv_id ex) db' = []
  /\ exists inv,
      o = Some inv /\ inv_id ex < inv_id inv
      /\ existing_invoice (client_id payload) (invoice_month payload) db' = Some inv.
Proof.
  intros Hschema Hex Hgen.
  destruct (generate_inv _ _ _ _ _ Hgen) as (payload' & Hschema' & Hwork).
  rewrite Hschema in Hschema'. injection Hschema' as <-.
  destruct (generate_work_base _ _ _ _ _ _ _ Hwork) as [_ Hst].
  destruct (Hst ex Hex) as [Hdraft Hflag].
  destruct (generate_run _ _ _ _ _ _ _ Hwork)
    as (fxRow & inv & _ & _ & Ho & Hid & _ & _ & _ & Hinvs & Hev & _ & Hitems & _).
  destruct Hitems as (rows & Hitems & Hrows).
  destruct (existing_invoice_in _ _ _ _ Hex) as (Hin & _).
  assert (Hlt : inv_id ex < inv_id inv).
  { rewrite Hid. apply next_id_gt. now apply in_map. }
  assert (Hbase_inv : invoices (regenerate_base payload db)
                      = map (fun i => if inv_id i =? inv_id ex then delete_invoice i else i)
                            (invoices db)).
  { unfold regenerate_base. rewrite Hex. reflexivity. }
  assert (Hbase_items : invoice_items (regenerate_base payload db)
                        = map (fun i => if (item_invoice_id i =? inv_id ex)
                                           && negb (item_deleted i)
                                        then delete_item i else i)
                              (invoice_items db)).
  { unfold regenerate_base. rewrite Hex. reflexivity. }
  assert (Hinvoices : forall i, In i (invoices db') -> inv_id i = inv_id ex ->
                                inv_deleted i = true).
  { intros i Hi E. rewrite Hinvs in Hi. apply in_app_iff in Hi.
    destruct Hi as [Hi|[<-|[]]]; [|lia].
    rewrite Hbase_inv in Hi. apply in_map_iff in Hi. destruct Hi as (i0 & <- & _).
    destruct (Z.eqb_spec (inv_id i0) (inv_id ex)) as [E0|E0]; [reflexivity|].
    contradiction. }
  assert (Hits : forall it, In it (invoice_items db') -> item_invoice_id it = inv_id ex ->
                            item_deleted it = true).
  { intros it Hi E. rewrite Hitems in Hi. apply in_app_iff in Hi.
    destruct Hi as [Hi|Hi].
    - rewrite Hbase_items in Hi. apply in_map_iff in Hi. destruct Hi as (i0 & <- & _).
      destruct (Z.eqb_spec (item_invoice_id i0) (inv_id ex)) as [E0|E0];
        destruct (item_deleted i0) eqn:Ed; cbn in *; try reflexivity; try assumption.
      contradiction.
    - rewrite Forall_forall in Hrows. specialize (Hrows it Hi). lia. }
  split; [exact Hdraft|].
  split.
  { unfold generateInvoiceSchema in Hschema.
    destruct (Schema.positive_int (body_client_id body)); [|discriminate].
    destruct (Schema.month_string (body_invoice_month body)); [|discriminate].
    destruct (Schema.date_string (body_invoice_date body)); [|discriminate].
    destruct (Schema.flag_default0 (body_regenerate_draft body)) as [r|] eqn:Er;
      [|discriminate].
    destruct (Schema.optional_positive_int (body_created_by body)); [|discriminate].
    injection Hschema as <-. cbn in *.
    unfold Schema.flag_default0 in Er.
    destruct (body_regenerate_draft body) as [v|]; [|injection Er as <-; contradiction].
    destruct ((0 <=? v) && (v <=? 1)) eqn:Ev; [|discriminate].
    injection Er as <-. apply andb_prop in Ev. lia. }
  split; [exact Hinvoices|]. split; [exact Hits|].
  split.
  { intros e He Hlink. rewrite Hev in He. apply in_map_iff in He.
    destruct He as (r & <- & Hr).
    match type of Hlink with
    | context [mark_row ?fx ?id ?evs r] =>
        destruct (mark_row_cases fx id evs r) as [[E _]|[(_ & Hst' & _) _]];
        destruct (mark_row_keeps fx id evs r) as (_ & _ & Hd & _)
    end.
    - rewrite E in *.
      destruct (regenerate_base_events payload db r Hr) as (_ & _ & _ & _ & H).
      now apply (H ex).
    - rewrite Hst' in Hlink. injection Hlink as Hlink. lia. }
  split.
  { unfold live_invoice. apply find_all_false. intros i Hi.
    destruct (Z.eqb_spec (inv_id i) (inv_id ex)) as [E|E]; [|reflexivity].
    now rewrite (Hinvoices i Hi E). }
  split.
  { unfold items_of. apply filter_none. intros it Hi.
    destruct (Z.eqb_spec (item_invoice_id it) (inv_id ex)) as [E|E]; [|reflexivity].
    now rewrite (Hits it Hi E). }
  destruct (generated_is_existing _ _ _ _ _ _ _ Hwork) as (inv' & Ho' & Hnew & _).
  rewrite Ho in Ho'. injection Ho' as <-.
  exists inv. split; [exact Ho|]. split; [exact Hlt | exact Hnew].
Qed.

Lemma regenerate_detaches_old_draft_witness :
  exists ex o db',
    existing_invoice 7 "2026-02" generated_db = Some ex
    /\ generate anonymous regenerate_body generated_db
       = (db', Success 200 (Generated o 1 1))
    /\ inv_status ex = draft
    /\ 1 = 1
    /\ (forall i, In i (invoices db') -> inv_id i = inv_id ex -> inv_deleted i = true)
    /\ (forall it,
           In it (invoice_items db') -> item_invoice_id it = inv_id ex ->
           item_deleted it = true)
    /\ (forall e,
           In e (billing_events db') -> be_invoice_id e = Some (inv_id ex) ->
           be_deleted e = true)
    /\ live_invoice (inv_id ex) db' = None
    /\ items_of (inv_id ex) db' = []
    /\ exists inv,
        o = Some inv /\ inv_id ex < inv_id inv
        /\ existing_invoice 7 "2026-02" db' = Some inv.
Proof.
  eexists. eexists. eexists.
  split; [vm_compute; reflexivity|]. split; [vm_compute; reflexivity|].
  eapply (regenerate_detaches_old_draft anonymous regenerate_body
            (mkGeneratePayload 7 "2026-02" "2026-02-28" 1 None) generated_db).
  - vm_compute. reflexivity.
  - vm_compute. reflexivity.
  - vm_compute. reflexivity.
Defined.

Lemma rate_newer_total (a b : ExchangeRate) :
  rate_newer a b = true \/ rate_newer b a = true.
Proof.
  unfold rate_newer.
  pose proof (date_compare_cases (er_rate_date a) (er_rate_date b)) as Hab.
  pose proof (date_compare_cases (er_rate_date b) (er_rate_date a)) as Hba.
  unfold date_before in *.
  destruct (date_compare (er_rate_date a) (er_rate_date b));
    destruct (date_compare (er_rate_date b) (er_rate_date a));
    try (now left); try (now right); lia.
Qed.

Lemma rate_newer_trans (a b c : ExchangeRate) :
  rate_newer a b = true -> rate_newer b c = true -> rate_newer a c = true.
Proof.
  unfold rate_newer.
  pose proof (date_compare_cases (er_rate_date a) (er_rate_date b)) as Hab.
  pose proof (date_compare_cases (er_rate_date b) (er_rate_date c)) as Hbc.
  pose proof (date_compare_cases (er_rate_date a) (er_rate_date c)) as Hac.
  unfold date_before in *.
  destruct (date_compare (er_rate_date a) (er_rate_date b));
    destruct (date_compare (er_rate_date b) (er_rate_date c));
    destruct (date_compare (er_rate_date a) (er_rate_date c));
    intros H1 H2; try reflexivity; try discriminate; lia.
Qed.

(** X13 (the exchange rate of POST /billing/invoices/generate). The rate a
    generated invoice stores is that of the latest active, live THB/KRW rate
    dated on or before the invoice date, the larger id deciding between
    rates of one date. The generation locks that rate and changes no other
    rate, so that afterwards an admin's PUT and DELETE on it are both
    refused with 409 EXCHANGE_RATE_LOCKED and leave the database as it is. *)
Theorem generate_locks_latest_rate (rate_date_taken : Db -> Z -> Date -> bool)
        (req : Request) (body : GenerateBody) (db db' : Db)
        (o : option Invoice) (n : nat) (fxid : Z) :
  generate req body db = (db', Success 200 (Generated o n fxid)) ->
  exists payload fxRow inv,
    generateInvoiceSchema body = Some payload
    /\ In fxRow (exchange_rates db)
    /\ er_id fxRow = fxid
    /\ rate_eligible (invoice_date payload) fxRow = true
    /\ (forall r,
           In r (exchange_rates db) -> rate_eligible (invoice_date payload) r = true ->
           date_compare (er_rate_date fxRow) (er_rate_date r) = Gt
           \/ (date_compare (er_rate_date fxRow) (er_rate_date r) = Eq
               /\ er_id r <= er_id fxRow))
    /\ o = Some inv
    /\ inv_fx_rate_thbkrw inv = Some (er_rate fxRow)
    /\ (forall r, In r (exchange_rates db') -> er_id r = fxid -> er_locked r = 1)
    /\ (forall r, In r (exchange_rates db') -> er_id r <> fxid -> In r (exchange_rates db))
    /\ (forall admin_req rate_body rate_payload,
           requireAdmin admin_req = true ->
           exchangeRateSchema rate_body = Some rate_payload ->
           put_exchange_rate rate_date_taken admin_req fxid rate_body db'
           = (db', Failure 409 "EXCHANGE_RATE_LOCKED")
           /\ delete_exchange_rate admin_req fxid db'
              = (db', Failure 409 "EXCHANGE_RATE_LOCKED")).
Proof.
  intros Hgen.
  destruct (generate_inv _ _ _ _ _ Hgen) as (payload & Hschema & Hwork).
  destruct (generate_run _ _ _ _ _ _ _ Hwork)
    as (fxRow & inv & Hfx & Hid & Ho & _ & Hrate & _ & _ & _ & _ & Hrates & _).
  destruct (regenerate_base_tables payload db) as (_ & Hrt & _).
  assert (Hsel : last_by rate_newer
                   (filter (rate_eligible (invoice_date payload)) (exchange_rates db))
                 = Some fxRow).
  { rewrite <- Hrt. exact Hfx. }
  destruct (last_by_first rate_newer _ fxRow rate_newer_total rate_newer_trans Hsel)
    as [Hin Hbest].
  apply filter_In in Hin. destruct Hin as [Hin Hel].
  assert (Hlocked : forall r, In r (exchange_rates db') -> er_id r = fxid -> er_locked r = 1).
  { intros r Hr E. rewrite Hrates in Hr. apply in_map_iff in Hr.
    destruct Hr as (r0 & <- & _).
    destruct (Z.eqb_spec (er_id r0) fxid) as [E0|E0]; [reflexivity | contradiction]. }
  assert (Hlive : exists row, live_rate fxid db' = Some row /\ er_locked row = 1).
  { unfold live_rate.
    destruct (find (fun r => (er_id r =? fxid) && negb (er_deleted r)) (exchange_rates db'))
      as [row|] eqn:E.
    - exists row. split; [reflexivity|]. apply find_some in E. destruct E as [Hr E].
      apply andb_prop in E. destruct E as [E _]. apply Z.eqb_eq in E. now apply Hlocked.
    - exfalso.
      assert (Hin' : In (lock_rate fxRow) (exchange_rates db')).
      { rewrite Hrates. apply in_map_iff. exists fxRow. split; [|exact Hin].
        rewrite <- Hid, Z.eqb_refl. reflexivity. }
      pose proof (find_none _ _ E _ Hin') as Hf. cbn in Hf.
      rewrite <- Hid, Z.eqb_refl in Hf.
      unfold rate_eligible in Hel. destruct (er_deleted fxRow); [|discriminate Hf].
      rewrite !andb_false_r in Hel. discriminate Hel. }
  exists payload, fxRow, inv.
  split; [exact Hschema|]. split; [exact Hin|]. split; [now symmetry|].
  split; [exact Hel|].
  split.
  { intros r Hr Her.
    assert (Hb : rate_newer fxRow r = true) by (apply Hbest; apply filter_In; now split).
    unfold rate_newer in Hb.
    destruct (date_compare (er_rate_date fxRow) (er_rate_date r));
      [right; split; [reflexivity | now apply Z.leb_le] | discriminate | now left]. }
  split; [exact Ho|]. split; [exact Hrate|]. split; [exact Hlocked|].
  split.
  { intros r Hr E. rewrite Hrates in Hr. apply in_map_iff in Hr.
    destruct Hr as (r0 & <- & Hr0).
    destruct (Z.eqb_spec (er_id r0) fxid) as [E0|E0]; [|exact Hr0].
    exfalso. apply E. exact E0. }
  intros admin_req rate_body rate_payload Hadmin Hrs.
  destruct Hlive as (row & Hrow & Hl).
  unfold put_exchange_rate, delete_exchange_rate, validate.
  rewrite Hrs, Hadmin, Hrow, Hl. cbn. split; reflexivity.
Qed.

Lemma generate_locks_latest_rate_witness :
  exists db' o,
    generate anonymous scenario_body scenario_db = (db', Success 200 (Generated o 1 1))
    /\ exists payload fxRow inv,
      generateInvoiceSchema scenario_body = Some payload
      /\ In fxRow (exchange_rates scenario_db)
      /\ er_id fxRow = 1
      /\ rate_eligible (invoice_date payload) fxRow = true
      /\ (forall r,
             In r (exchange_rates scenario_db) ->
             rate_eligible (invoice_date payload) r = true ->
             date_compare (er_rate_date fxRow) (er_rate_date r) = Gt
             \/ (date_compare (er_rate_date fxRow) (er_rate_date r) = Eq
                 /\ er_id r <= er_id fxRow))
      /\ o = Some inv
      /\ inv_fx_rate_thbkrw inv = Some (er_rate fxRow)
      /\ (forall r, In r (exchange_rates db') -> er_id r = 1 -> er_locked r = 1)
      /\ (forall r, In r (exchange_rates db') -> er_id r <> 1 ->
                    In r (exchange_rates scenario_db))
      /\ (forall admin_req rate_body rate_payload,
             requireAdmin admin_req = true ->
             exchangeRateSchema rate_body = Some rate_payload ->
             put_exchange_rate (fun _ _ _ => false) admin_req 1 rate_body db'
             = (db', Failure 409 "EXCHANGE_RATE_LOCKED")
             /\ delete_exchange_rate admin_req 1 db'
                = (db', Failure 409 "EXCHANGE_RATE_LOCKED")).
Proof.
  eexists. eexists. split; [vm_compute; reflexivity|].
  eapply (generate_locks_latest_rate (fun _ _ _ => false) anonymous scenario_body scenario_db).
  vm_compute. reflexivity.
Defined.







(* ------------------------------------------------------------------ *)
(** ** The invoice life cycle *)

Lemma live_invoice_after_status (invoiceId : Z) (status : InvoiceStatus) (db : Db) :
  live_invoice invoiceId (update_status invoiceId status db)
  = option_map (set_status status) (live_invoice invoiceId db).
Proof.
  unfold live_invoice, update_status. cbn.
  rewrite find_map_same.
  - destruct (find (fun i => (inv_id i =? invoiceId) && negb (inv_deleted i)) (invoices db))
      as [r|] eqn:E; [|reflexivity].
    apply find_some in E. destruct E as [_ E]. apply andb_prop in E. destruct E as [E _].
    cbn. now rewrite E.
  - intros a. destruct (inv_id a =? invoiceId) eqn:E; cbn; now rewrite E.
Qed.

Lemma issue_invoice_run (invoiceId : Z) (db : Db) :
  issue_invoice invoiceId db
  = match live_invoice invoiceId db with
    | None => (db, Failure 400 "NOT_FOUND")
    | Some row =>
        match inv_status row with
        | draft => (update_status invoiceId issued db, Success 200 (invoiceId, issued))
        | _ => (db, Failure 400 "INVALID_STATUS")
        end
    end.
Proof.
  unfold issue_invoice, issue_invoice_work, withTransaction, respond. run_tx.
  destruct (live_invoice invoiceId db) as [row|]; [|reflexivity].
  destruct (inv_status row); reflexivity.
Qed.

Lemma mark_paid_run (invoiceId : Z) (db : Db) :
  mark_paid invoiceId db
  = match live_invoice invoiceId db with
    | None => (db, Failure 400 "NOT_FOUND")
    | Some row =>
        match inv_status row with
        | issued => (update_status invoiceId paid db, Success 200 (invoiceId, paid))
        | _ => (db, Failure 400 "INVALID_STATUS")
        end
    end.
Proof.
  unfold mark_paid, mark_paid_work, withTransaction, respond. run_tx.
  destruct (live_invoice invoiceId db) as [row|]; [|reflexivity].
  destruct (inv_status row); reflexivity.
Qed.

(** X15 (POST /billing/invoices/:id/issue and /mark-paid). An invoice only
    moves forward, draft to issued to paid. Issuing succeeds on a draft
    only and marking paid on an issued invoice only; every other call is
    answered 400 (NOT_FOUND for a missing or deleted invoice, else
    INVALID_STATUS) and changes nothing. A success changes the status of the
    row and nothing else about it, so issuing twice fails the second time,
    an issued invoice can be paid once, and a paid invoice accepts neither
    call. *)
Theorem invoice_status_moves_forward (invoiceId : Z) (db : Db) :
  (live_invoice invoiceId db = None ->
   issue_invoice invoiceId db = (db, Failure 400 "NOT_FOUND")
   /\ mark_paid invoiceId db = (db, Failure 400 "NOT_FOUND"))
  /\ (forall row,
         live_invoice invoiceId db = Some row ->
         match inv_status row with
         | draft =>
             mark_paid invoiceId db = (db, Failure 400 "INVALID_STATUS")
             /\ exists db1,
                 issue_invoice invoiceId db = (db1, Success 200 (invoiceId, issued))
                 /\ live_invoice invoiceId db1 = Some (set_status issued row)
                 /\ issue_invoice invoiceId db1 = (db1, Failure 400 "INVALID_STATUS")
                 /\ exists db2,
                     mark_paid invoiceId db1 = (db2, Success 200 (invoiceId, paid))
                     /\ live_invoice invoiceId db2 = Some (set_status paid row)
                     /\ issue_invoice invoiceId db2 = (db2, Failure 400 "INVALID_STATUS")
                     /\ mark_paid invoiceId db2 = (db2, Failure 400 "INVALID_STATUS")
         | issued =>
             issue_invoice invoiceId db = (db, Failure 400 "INVALID_STATUS")
             /\ exists db1,
                 mark_paid invoiceId db = (db1, Success 200 (invoiceId, paid))
                 /\ live_invoice invoiceId db1 = Some (set_status paid row)
                 /\ mark_paid invoiceId db1 = (db1, Failure 400 "INVALID_STATUS")
         | paid =>
             issue_invoice invoiceId db = (db, Failure 400 "INVALID_STATUS")
             /\ mark_paid invoiceId db = (db, Failure 400 "INVALID_STATUS")
         end)
  /\ (forall db' data,
         issue_invoice invoiceId db = (db', Success 200 data)
         \/ mark_paid invoiceId db = (db', Success 200 data) ->
         map (set_status draft) (invoices db') = map (set_status draft) (invoices db)
         /\ invoice_items db' = invoice_items db
         /\ billing_events db' = billing_events db).
Proof.
  split; [|split].
  - intros H. rewrite issue_invoice_run, mark_paid_run, H. now split.
  - intros row H.
    destruct (inv_status row) eqn:Est.
    + split; [rewrite mark_paid_run, H, Est; reflexivity|].
      exists (update_status invoiceId issued db).
      assert (H1 : live_invoice invoiceId (update_status invoiceId issued db)
                   = Some (set_status issued row))
        by (rewrite live_invoice_after_status, H; reflexivity).
      split; [rewrite issue_invoice_run, H, Est; reflexivity|].
      split; [exact H1|].
      split; [rewrite issue_invoice_run, H1; reflexivity|].
      exists (update_status invoiceId paid (update_status invoiceId issued db)).
      assert (H2 : live_invoice invoiceId
                     (update_status invoiceId paid (update_status invoiceId issued db))
                   = Some (set_status paid row))
        by (rewrite live_invoice_after_status, H1; reflexivity).
      split; [rewrite mark_paid_run, H1; reflexivity|].
      split; [exact H2|].
      split; [rewrite issue_invoice_run, H2 | rewrite mark_paid_run, H2]; reflexivity.
    + split; [rewrite issue_invoice_run, H, Est; reflexivity|].
      exists (update_status invoiceId paid db).
      assert (H1 : live_invoice invoiceId (update_status invoiceId paid db)
                   = Some (set_status paid row))
        by (rewrite live_invoice_after_status, H; reflexivity).
      split; [rewrite mark_paid_run, H, Est; reflexivity|].
      split; [exact H1|]. rewrite mark_paid_run, H1. reflexivity.
    + split; [rewrite issue_invoice_run | rewrite mark_paid_run];
        rewrite H, Est; reflexivity.
  - intros db' data Hs.
    assert (Hdb : db' = db \/ exists st, db' = update_status invoiceId st db).
    { rewrite issue_invoice_run, mark_paid_run in Hs.
      destruct (live_invoice invoiceId db) as [row|].
      - destruct (inv_status row); destruct Hs as [Hs|Hs]; try discriminate;
          injection Hs as <- _; right; eexists; reflexivity.
      - destruct Hs as [Hs|Hs]; discriminate. }
    destruct Hdb as [->|[st ->]]; [repeat split|].
    cbn. split; [|split; reflexivity].
    rewrite map_map. apply map_ext. intros i.
    destruct (inv_id i =? invoiceId); reflexivity.
Qed.





(* ------------------------------------------------------------------ *)
(** ** duplicate-admin *)

Lemma filter_unique {A : Type} (key : A -> Z) (t : list A) (x : A) :
  NoDup (map key t) -> In x t -> filter (fun a => key a =? key x) t = [x].
Proof.
  induction t as [|a t IH]; intros Hnd Hin; [contradiction|].
  cbn in Hnd. inversion Hnd as [|k l Hk Hl]; subst. cbn.
  destruct Hin as [->|Hin].
  - rewrite Z.eqb_refl. f_equal. apply filter_none. intros b Hb.
    destruct (Z.eqb_spec (key b) (key x)) as [E|E]; [|reflexivity].
    exfalso. apply Hk. rewrite <- E. now apply in_map.
  - destruct (Z.eqb_spec (key a) (key x)) as [E|E].
    + exfalso. apply Hk. rewrite E. now apply in_map.
    + now apply IH.
Qed.

Lemma append_copies_items (newInvoiceId : Z) (rows : list InvoiceItem) :
  forall t, exists copies,
    append_copies item_id (copy_item newInvoiceId) rows t = (t ++ copies)%list
    /\ map item_amount_krw copies = map item_amount_krw rows
    /\ map item_service_code copies = map item_service_code rows
    /\ map item_qty copies = map item_qty rows
    /\ Forall (fun r => item_invoice_id r = newInvoiceId /\ item_deleted r = false) copies.
Proof.
  induction rows as [|r rows IH]; intros t; cbn.
  - exists []. rewrite app_nil_r. repeat split. constructor.
  - destruct (IH (t ++ [copy_item newInvoiceId r (next_id (map item_id t))])%list)
      as (copies & Happ & H1 & H2 & H3 & Hall).
    exists (copy_item newInvoiceId r (next_id (map item_id t)) :: copies).
    rewrite Happ, <- app_assoc. cbn. rewrite H1, H2, H3.
    repeat split. constructor; [now split | exact Hall].
Qed.

Lemma sum_amounts_map (a b : list InvoiceItem) :
  map item_amount_krw a = map item_amount_krw b -> sum_amounts a = sum_amounts b.
Proof.
  revert b. induction a as [|x a IH]; intros [|y b] H; try discriminate; [reflexivity|].
  cbn in H. injection H as Hxy H. unfold sum_amounts in *. cbn.
  rewrite Hxy. f_equal. now apply IH.
Qed.

Lemma existing_newest (c : Z) (m : string) (t : list Invoice) (x : Invoice) (db : Db) :
  invoices db = (t ++ [x])%list ->
  inv_id x = next_id (map inv_id t) ->
  inv_client_id x = c -> inv_invoice_month x = Some m -> inv_deleted x = false ->
  existing_invoice c m db = Some x.
Proof.
  intros Hinv Hid Hc Hm Hd.
  unfold existing_invoice. rewrite Hinv, filter_app. cbn.
  rewrite Hc, Z.eqb_refl, Hm, Hd. cbn. rewrite String.eqb_refl. cbn.
  apply (last_by_newest inv_id _ x).
  intros a Ha. apply filter_In in Ha. destruct Ha as [Ha _].
  rewrite Hid. apply next_id_gt. now apply in_map.
Qed.

Lemma live_invoice_in (invoiceId : Z) (db : Db) (row : Invoice) :
  live_invoice invoiceId db = Some row ->
  In row (invoices db) /\ inv_id row = invoiceId /\ inv_deleted row = false.
Proof.
  unfold live_invoice. intros H. apply find_some in H. destruct H as [Hin H].
  apply andb_prop in H. destruct H as [H1 H2].
  split; [exact Hin|]. split; [now apply Z.eqb_eq | now destruct (inv_deleted row)].
Qed.

(** The callback of duplicate-admin on a live invoice that is not a draft. *)
Lemma duplicate_admin_work_run (null_total_amount : Q) (sourceInvoiceId : Z) (db : Db)
      (source : Invoice) :
  NoDup (map inv_id (invoices db)) ->
  live_invoice sourceInvoiceId db = Some source ->
  inv_status source <> draft ->
  let newInvoiceId := next_id (map inv_id (invoices db)) in
  let copy :=
    copy_invoice null_total_amount
      (invoice_number "KRW" (inv_client_id source) (duplicate_yyyymm source)
         (next_sequence (inv_client_id source) (duplicate_yyyymm source) db))
      source newInvoiceId in
  duplicate_admin_work null_total_amount sourceInvoiceId db
  = Return (Ok (Some copy))
      (insert_item_copies newInvoiceId sourceInvoiceId
         (with_invoices (fun t => (t ++ [copy])%list)
            (with_invoice_sequences
               (bump_sequence (inv_client_id source) (duplicate_yyyymm source)) db))).
Proof.
  intros Hnd Hlive Hst. cbv zeta.
  destruct (live_invoice_in _ _ _ Hlive) as (Hin & Hid & _).
  unfold duplicate_admin_work. run_tx. rewrite Hlive.
  destruct (inv_status source) eqn:Est; [contradiction| |];
    cbn [InvoiceStatus_eqb]; fold (duplicate_yyyymm source);
    rewrite resolveInvoiceSequence_run; unfold insert_invoice_copy;
    cbn [invoices with_invoice_sequences]; rewrite <- Hid;
    rewrite (filter_unique inv_id (invoices db) source Hnd Hin);
    cbn [append_copies];
    unfold invoice_by_id, insert_item_copies;
    cbn [invoices with_invoices with_invoice_items with_invoice_sequences];
    match goal with
    | |- context [find _ (invoices db ++ [?x])%list] =>
        change (next_id (map inv_id (invoices db))) with (inv_id x) at 1;
        rewrite (find_fresh inv_id (invoices db) x eq_refl)
    end; reflexivity.
Qed.

(** X17 (POST /billing/invoices/:id/duplicate-admin). Only an admin may
    duplicate (403 otherwise), and only a live invoice that is not a draft
    (400 NOT_FOUND or INVALID_STATUS otherwise); a refusal changes nothing.
    With unique invoice ids and every item naming an invoice row, a
    duplication appends one new draft in KRW that takes the next sequence
    number of the source's client and month, carries the source's totals and
    rate, and owns a copy of each live item of the source with the same
    service code, quantity and amount. The source and its items stay as
    they were and no billing event changes hands. For a source of the
    invoice generator the copy becomes the live invoice of the client and
    month, so that a later generation without the regenerate flag reuses
    it. *)
Theorem duplicate_admin_copies (null_total_amount : Q) (req : Request)
        (sourceInvoiceId : Z) (db : Db) :
  (requireAdmin req = false ->
   duplicate_admin null_total_amount req sourceInvoiceId db = (db, Failure 403 "ADMIN_ONLY"))
  /\ (requireAdmin req = true -> live_invoice sourceInvoiceId db = None ->
      duplicate_admin null_total_amount req sourceInvoiceId db
      = (db, Failure 400 "NOT_FOUND"))
  /\ (forall source,
         requireAdmin req = true -> live_invoice sourceInvoiceId db = Some source ->
         inv_status source = draft ->
         duplicate_admin null_total_amount req sourceInvoiceId db
         = (db, Failure 400 "INVALID_STATUS"))
  /\ (forall source,
         requireAdmin req = true -> live_invoice sourceInvoiceId db = Some source ->
         inv_status source <> draft ->
         NoDup (map inv_id (invoices db)) -> items_belong db ->
         exists db' copy,
           duplicate_admin null_total_amount req sourceInvoiceId db
           = (db', Success 200 (Some copy))
           /\ invoices db' = (invoices db ++ [copy])%list
           /\ inv_id copy = next_id (map inv_id (invoices db))
           /\ inv_status copy = draft
           /\ inv_currency copy = "KRW"
           /\ inv_settlement_batch_id copy = None
           /\ inv_invoice_no copy
              = invoice_number "KRW" (inv_client_id source) (duplicate_yyyymm source)
                  (next_sequence (inv_client_id source) (duplicate_yyyymm source) db)
           /\ next_sequence (inv_client_id source) (duplicate_yyyymm source) db'
              = next_sequence (inv_client_id source) (duplicate_yyyymm source) db + 1
           /\ inv_client_id copy = inv_client_id source
           /\ inv_invoice_month copy = inv_invoice_month source
           /\ inv_fx_rate_thbkrw copy = inv_fx_rate_thbkrw source
           /\ inv_subtotal_krw copy = inv_subtotal_krw source
           /\ inv_vat_krw copy = inv_vat_krw source
           /\ inv_total_krw copy = inv_total_krw source
           /\ live_invoice sourceInvoiceId db' = Some source
           /\ items_of sourceInvoiceId db' = items_of sourceInvoiceId db
           /\ map item_service_code (items_of (inv_id copy) db')
              = map item_service_code (items_of sourceInvoiceId db)
           /\ map item_qty (items_of (inv_id copy) db')
              = map item_qty (items_of sourceInvoiceId db)
           /\ map item_amount_krw (items_of (inv_id copy) db')
              = map item_amount_krw (items_of sourceInvoiceId db)
           /\ sum_amounts (items_of (inv_id copy) db')
              = sum_amounts (items_of sourceInvoiceId db)
           /\ billing_events db' = billing_events db
           /\ forall m,
               inv_invoice_month source = Some m ->
               existing_invoice (inv_client_id source) m db' = Some copy
               /\ forall req' body' payload',
                   generateInvoiceSchema body' = Some payload' ->
                   client_id payload' = inv_client_id source ->
                   invoice_month payload' = m ->
                   regenerate_draft payload' = 0 ->
                   generate req' body' db' = (db', Success 200 (Reused (inv_id copy)))).
Proof.
  unfold duplicate_admin. split; [intros ->; reflexivity|].
  split.
  { intros -> Hnone. cbn. unfold duplicate_admin_work, withTransaction, respond. run_tx.
    now rewrite Hnone. }
  split.
  { intros source -> Hlive Hst. cbn.
    unfold duplicate_admin_work, withTransaction, respond. run_tx.
    now rewrite Hlive, Hst. }
  intros source -> Hlive Hst Hnd Hfk. cbn [negb].
  pose proof (duplicate_admin_work_run null_total_amount _ _ _ Hnd Hlive Hst) as Hrun.
  cbv zeta in Hrun. unfold withTransaction, respond. rewrite Hrun. clear Hrun.
  destruct (live_invoice_in _ _ _ Hlive) as (Hin & Hid & Hdel).
  set (newId := next_id (map inv_id (invoices db))).
  set (copy := copy_invoice _ _ source newId).
  assert (Hlt : sourceInvoiceId < newId).
  { rewrite <- Hid. apply next_id_gt. now apply in_map. }
  destruct (append_copies_items newId (items_of sourceInvoiceId db) (invoice_items db))
    as (copies & Happ & Hamt & Hcode & Hqty & Hall).
  eexists. exists copy. split; [reflexivity|].
  assert (Hitems : invoice_items
                     (insert_item_copies newId sourceInvoiceId
                        (with_invoices (fun t => (t ++ [copy])%list)
                           (with_invoice_sequences
                              (bump_sequence (inv_client_id source)
                                 (duplicate_yyyymm source)) db)))
                   = (invoice_items db ++ copies)%list) by exact Happ.
  assert (Hnew : filter (fun i => (item_invoice_id i =? newId) && negb (item_deleted i))
                        (invoice_items db ++ copies)%list = copies).
  { apply items_of_fresh; [|exact Hall].
    intros i Hi E.
    assert (Hin' : In (item_invoice_id i) (map inv_id (invoices db)))
      by (apply Hfk; now apply in_map).
    apply next_id_gt in Hin'. fold newId in Hin'. lia. }
  assert (Hold : filter (fun i => (item_invoice_id i =? sourceInvoiceId)
                                  && negb (item_deleted i))
                        (invoice_items db ++ copies)%list
                 = items_of sourceInvoiceId db).
  { rewrite filter_app. unfold items_of.
    rewrite (filter_none _ copies); [apply app_nil_r|].
    intros i Hi. rewrite Forall_forall in Hall. destruct (Hall i Hi) as [E _].
    destruct (Z.eqb_spec (item_invoice_id i) sourceInvoiceId); [lia | reflexivity]. }
  split; [reflexivity|]. split; [reflexivity|]. split; [reflexivity|].
  split; [reflexivity|]. split; [reflexivity|]. split; [reflexivity|].
  split.
  { unfold next_sequence. cbn. apply next_in_bumped. }
  do 6 (split; [reflexivity|]).
  split.
  { unfold live_invoice. cbn [invoices insert_item_copies with_invoice_items with_invoices
                                       with_invoice_sequences].
    now apply find_app_some. }
  split; [unfold items_of at 1; rewrite Hitems; exact Hold|].
  change (inv_id copy) with newId.
  split; [unfold items_of at 1; rewrite Hitems, Hnew; exact Hcode|].
  split; [unfold items_of at 1; rewrite Hitems, Hnew; exact Hqty|].
  split; [unfold items_of at 1; rewrite Hitems, Hnew; exact Hamt|].
  split; [unfold items_of at 1; rewrite Hitems, Hnew; now apply sum_amounts_map|].
  split; [reflexivity|].
  intros m Hm.
  assert (Hex : existing_invoice (inv_client_id source) m
                  (insert_item_copies newId sourceInvoiceId
                     (with_invoices (fun t => (t ++ [copy])%list)
                        (with_invoice_sequences
                           (bump_sequence (inv_client_id source)
                              (duplicate_yyyymm source)) db)))
                = Some copy).
  { apply (existing_newest _ _ (invoices db) copy); try reflexivity. exact Hm. }
  split; [exact Hex|].
  intros req' body' payload' Hs Hc Hmonth Hflag.
  unfold generate, validate. rewrite Hs. unfold withTransaction, respond.
  match goal with
  | |- context [generate_work _ _ ?d] =>
      pose proof (generate_reuses_draft req' payload' d copy Hflag) as Hr
  end.
  rewrite Hc, Hmonth in Hr. rewrite (Hr Hex eq_refl). reflexivity.
Qed.

Lemma duplicate_admin_copies_witness :
  exists db' copy,
    duplicate_admin 0 admin 1 issued_db = (db', Success 200 (Some copy))
    /\ invoices db' = (invoices issued_db ++ [copy])%list
    /\ inv_id copy = 2
    /\ inv_status copy = draft
    /\ inv_invoice_no copy = "KRW-7-202602-0002"
    /\ map item_amount_krw (items_of (inv_id copy) db') = [4800; 300]
    /\ existing_invoice 7 "2026-02" db' = Some copy.
Proof.
  destruct (proj2 (proj2 (proj2 (duplicate_admin_copies 0 admin 1 issued_db)))
              (set_status issued
                 (mkInvoice 1 None 7 (Some "2026-02") "KRW-7-202602-0001" draft
                    (Some "2026-02-28") (Some "2026-02-28") (Some "2026-02-28") "KRW"
                    (Some 40%Q) (Some 4800) (Some 300) (Some 5100) 5100%Q 1 false))
              eq_refl eq_refl)
    as (db' & copy & Hrun & Hinv & Hid & Hst & _ & _ & Hno & _ & _ & _ & _ & _ & _ & _
        & _ & _ & _ & _ & Hamt & _ & _ & Hex).
  - discriminate.
  - vm_compute. constructor; [intros []|constructor].
  - intros x Hx. vm_compute in Hx. vm_compute. tauto.
  - exists db', copy. split; [exact Hrun|]. split; [exact Hinv|].
    split; [exact Hid|]. split; [exact Hst|]. split; [exact Hno|].
    split; [exact Hamt|]. exact (proj1 (Hex "2026-02" eq_refl)).
Defined.

(* ------------------------------------------------------------------ *)
(** ** The settlement routes, outcome by outcome *)

Lemma live_batch_id (batchId : Z) (db : Db) (batch : SettlementBatch) :
  live_batch batchId db = Some batch ->
  In batch (settlement_batches db) /\ sb_id batch = batchId /\ sb_deleted batch = false.
Proof.
  unfold live_batch. intros H. apply find_some in H. destruct H as [Hin H].
  apply andb_prop in H. destruct H as [H1 H2].
  split; [exact Hin|]. split; [now apply Z.eqb_eq | now destruct (sb_deleted batch)].
Qed.

Lemma issue_work_run (payload : IssuePayload) (db : Db) :
  issue_work payload db
  = match live_batch (settlement_batch_id payload) db with
    | None => Return (Fail "BATCH_NOT_FOUND") db
    | Some batch =>
        match invoice_of_batch (sb_id batch) db with
        | Some existing => Return (Ok (mkIssueData (Some existing) 0 true)) db
        | None =>
            Return (Ok (mkIssueData
                          (invoice_by_id (next_id (map inv_id (invoices db)))
                                         (issued_state payload batch db))
                          (List.length (lines_of_batch (sb_id batch) db)) false))
                   (issued_state payload batch db)
        end
    end.
Proof.
  unfold issue_work. run_tx.
  destruct (live_batch (settlement_batch_id payload) db) as [batch|]; [|reflexivity].
  destruct (invoice_of_batch (sb_id batch) db); [reflexivity|].
  unfold issued_state, next_sequence, next_in, bump_sequence, insert_invoice.
  destruct (find _ (invoice_sequences db)) as [row|] eqn:Ef; cbn beta zeta;
    rewrite copy_lines_run;
    unfold with_invoice_lines, with_invoices, with_invoice_sequences;
    cbn [invoices invoice_items billing_events exchange_rates invoice_sequences
         service_catalog settlement_batches settlement_lines invoice_lines
         settlement_reopen_requests settlement_reopen_logs price_policies service_events];
    rewrite Ef; reflexivity.
Qed.

Lemma issue_run (body : IssueBody) (payload : IssuePayload) (db : Db) :
  issueInvoiceSchema body = Some payload ->
  issue body db
  = match live_batch (settlement_batch_id payload) db with
    | None => (db, Failure 400 "BATCH_NOT_FOUND")
    | Some batch =>
        match invoice_of_batch (sb_id batch) db with
        | Some existing => (db, Success 200 (mkIssueData (Some existing) 0 true))
        | None =>
            (issued_state payload batch db,
             Success 200
               (mkIssueData
                  (Some (issued_row payload batch
                           (next_sequence (sb_client_id batch)
                              (Js.replaceDash (sb_billing_month batch)) db)
                           (next_id (map inv_id (invoices db)))))
                  (List.length (lines_of_batch (sb_id batch) db)) false))
        end
    end.
Proof.
  intros Hs. unfold issue, validate. rewrite Hs.
  unfold withTransaction, respond. rewrite issue_work_run.
  destruct (live_batch (settlement_batch_id payload) db) as [batch|]; [|reflexivity].
  destruct (invoice_of_batch (sb_id batch) db); [reflexivity|].
  set (row := issued_row _ _ _ _).
  assert (Hf : invoice_by_id (next_id (map inv_id (invoices db)))
                 (issued_state payload batch db) = Some row)
    by apply (find_fresh inv_id (invoices db) row eq_refl).
  rewrite Hf. reflexivity.
Qed.

Lemma close_run (batchId : Z) (body : CloseBody) (payload : ClosePayload) (db : Db) :
  closeBatchSchema body = Some payload ->
  close batchId body db
  = match live_batch batchId db with
    | None => (db, Failure 400 "BATCH_NOT_FOUND")
    | Some row =>
        match sb_status row with
        | closed => (db, Failure 400 "ALREADY_CLOSED")
        | calculating => (db, Failure 400 "INVALID_STATUS")
        | _ => (closed_state batchId payload db,
                Success 200 (batch_by_id batchId (closed_state batchId payload db)))
        end
    end.
Proof.
  intros Hs. unfold close, validate. rewrite Hs.
  unfold withTransaction, respond, close_work, insert_log. run_tx.
  destruct (live_batch batchId db) as [row|]; [|reflexivity].
  destruct (sb_status row); reflexivity.
Qed.

Lemma reopen_request_run (batchId : Z) (body : ReopenBody) (payload : ReopenPayload)
      (db : Db) :
  reopenRequestSchema body = Some payload ->
  reopen_request batchId body db
  = match live_batch batchId db with
    | None => (db, Failure 400 "BATCH_NOT_FOUND")
    | Some batch =>
        match sb_status batch with
        | closed =>
            match outstanding batchId db with
            | _ :: _ => (db, Failure 400 "REQUEST_EXISTS")
            | [] => (requested_state batchId payload db,
                     Success 201 (Some (new_request batchId payload db)))
            end
        | _ => (db, Failure 400 "INVALID_STATUS")
        end
    end.
Proof.
  intros Hs. unfold reopen_request, validate. rewrite Hs.
  unfold withTransaction, respond, reopen_request_work. run_tx.
  destruct (live_batch batchId db) as [batch|]; [|reflexivity].
  destruct (sb_status batch); try reflexivity.
  unfold outstanding.
  destruct (find _ (settlement_reopen_requests db)) as [r|] eqn:E.
  - apply find_some in E. destruct E as [Hin E].
    destruct (filter _ (settlement_reopen_requests db)) as [|x l] eqn:F; [|reflexivity].
    exfalso. exact (filter_exists_nonempty _ _ _ Hin E F).
  - rewrite (find_none_filter _ _ E).
    assert (Hf : request_by_id (next_id (map rr_id (settlement_reopen_requests db)))
                   (requested_state batchId payload db)
                 = Some (new_request batchId payload db))
      by apply (find_fresh rr_id (settlement_reopen_requests db)
                  (new_request batchId payload db) eq_refl).
    rewrite <- Hf. reflexivity.
Qed.

Lemma live_request_in (requestId : Z) (db : Db) (r : ReopenRequest) :
  live_request requestId db = Some r ->
  In r (settlement_reopen_requests db) /\ rr_id r = requestId /\ rr_deleted r = false.
Proof.
  unfold live_request. intros H. apply find_some in H. destruct H as [Hin H].
  apply andb_prop in H. destruct H as [H1 H2].
  split; [exact Hin|]. split; [now apply Z.eqb_eq | now destruct (rr_deleted r)].
Qed.

Lemma approve_run (requestId : Z) (body : DecisionBody) (payload : DecisionPayload)
      (db : Db) :
  reopenDecisionSchema body = Some payload ->
  approve requestId body db
  = match live_request requestId db with
    | None => (db, Failure 400 "REQUEST_NOT_FOUND")
    | Some reqRow =>
        match rr_status reqRow with
        | requested =>
            (approved_state reqRow payload db,
             Success 200 (request_by_id requestId (approved_state reqRow payload db)))
        | _ => (db, Failure 400 "INVALID_STATUS")
        end
    end.
Proof.
  intros Hs. unfold approve, validate. rewrite Hs.
  unfold withTransaction, respond, approve_work, insert_log. run_tx.
  destruct (live_request requestId db) as [reqRow|] eqn:E; [|reflexivity].
  destruct (live_request_in _ _ _ E) as (_ & <- & _).
  unfold is_requested. destruct (rr_status reqRow); reflexivity.
Qed.

Lemma reject_run (requestId : Z) (body : DecisionBody) (payload : DecisionPayload)
      (db : Db) :
  reopenDecisionSchema body = Some payload ->
  reject requestId body db
  = match live_request requestId db with
    | None => (db, Failure 400 "REQUEST_NOT_FOUND")
    | Some reqRow =>
        match rr_status reqRow with
        | requested =>
            (decided_state rejected requestId payload db,
             Success 200 (request_by_id requestId
                            (decided_state rejected requestId payload db)))
        | _ => (db, Failure 400 "INVALID_STATUS")
        end
    end.
Proof.
  intros Hs. unfold reject, validate. rewrite Hs.
  unfold withTransaction, respond, reject_work. run_tx.
  destruct (live_request requestId db) as [reqRow|]; [|reflexivity].
  unfold is_requested. destruct (rr_status reqRow); reflexivity.
Qed.

(** X18 (the settlement routes when they refuse). POST /invoices/issue,
    /settlement-batches/:id/close, /settlement-batches/:id/reopen-requests
    and the approval and rejection of a reopen request check before they
    write: whenever one of them answers with an error, whichever it is, the
    database is exactly as it was before the call. *)
Theorem settlement_refusals_write_nothing (db db' : Db) (http : Z) (code : string) :
  (forall body, issue body db = (db', Failure http code) -> db' = db)
  /\ (forall batchId body, close batchId body db = (db', Failure http code) -> db' = db)
  /\ (forall batchId body,
         reopen_request batchId body db = (db', Failure http code) -> db' = db)
  /\ (forall requestId body,
         approve requestId body db = (db', Failure http code) -> db' = db)
  /\ (forall requestId body,
         reject requestId body db = (db', Failure http code) -> db' = db).
Proof.
  split; [|split; [|split; [|split]]].
  - intros body. destruct (issueInvoiceSchema body) as [p|] eqn:Hs.
    + rewrite (issue_run _ _ _ Hs).
      destruct (live_batch (settlement_batch_id p) db) as [b|]; [|congruence].
      destruct (invoice_of_batch (sb_id b) db); discriminate.
    + unfold issue, validate. rewrite Hs. congruence.
  - intros batchId body. destruct (closeBatchSchema body) as [p|] eqn:Hs.
    + rewrite (close_run _ _ _ _ Hs).
      destruct (live_batch batchId db) as [b|]; [|congruence].
      destruct (sb_status b); congruence.
    + unfold close, validate. rewrite Hs. congruence.
  - intros batchId body. destruct (reopenRequestSchema body) as [p|] eqn:Hs.
    + rewrite (reopen_request_run _ _ _ _ Hs).
      destruct (live_batch batchId db) as [b|]; [|congruence].
      destruct (sb_status b); try congruence.
      destruct (outstanding batchId db); congruence.
    + unfold reopen_request, validate. rewrite Hs. congruence.
  - intros requestId body. destruct (reopenDecisionSchema body) as [p|] eqn:Hs.
    + rewrite (approve_run _ _ _ _ Hs).
      destruct (live_request requestId db) as [r|]; [|congruence].
      destruct (rr_status r); congruence.
    + unfold approve, validate. rewrite Hs. congruence.
  - intros requestId body. destruct (reopenDecisionSchema body) as [p|] eqn:Hs.
    + rewrite (reject_run _ _ _ _ Hs).
      destruct (live_request requestId db) as [r|]; [|congruence].
      destruct (rr_status r); congruence.
    + unfold reject, validate. rewrite Hs. congruence.
Qed.

Lemma append_lines_rows (invoiceId : Z) (settlementLines : list SettlementLine) :
  forall t, exists copies,
    append_lines invoiceId settlementLines t = (t ++ copies)%list
    /\ List.length copies = List.length settlementLines
    /\ map il_settlement_line_id copies = map sl_id settlementLines
    /\ map il_service_id copies = map sl_service_id settlementLines
    /\ map il_qty copies = map sl_qty settlementLines
    /\ map il_unit_price copies = map sl_unit_price settlementLines
    /\ map il_amount copies = map sl_amount settlementLines
    /\ Forall (fun l => il_invoice_id l = invoiceId) copies.
Proof.
  induction settlementLines as [|line rest IH]; intros t; cbn.
  - exists []. rewrite app_nil_r. repeat split. constructor.
  - destruct (IH (t ++ [invoice_line invoiceId line (next_id (map il_id t))])%list)
      as (copies & Happ & Hlen & H1 & H2 & H3 & H4 & H5 & Hall).
    exists (invoice_line invoiceId line (next_id (map il_id t)) :: copies).
    rewrite Happ, <- app_assoc. cbn. rewrite Hlen, H1, H2, H3, H4, H5.
    repeat split. constructor; [reflexivity | exact Hall].
Qed.

(** X19 (POST /invoices/issue, one invoice per batch). A settlement batch
    gets its invoice once. The first issue that succeeds appends one issued
    invoice linked to the batch, for the batch's client and with the batch's
    stored KRW total as its amount; from then on every issue for that batch,
    whatever its dates and actor, answers with that same invoice, marked
    reused with no lines, and writes nothing. *)
Theorem settlement_issue_once (body : IssueBody) (db db1 : Db) (d : IssueData) :
  issue body db = (db1, Success 200 d) ->
  exists payload batch inv,
    issueInvoiceSchema body = Some payload
    /\ live_batch (settlement_batch_id payload) db = Some batch
    /\ issued_invoice d = Some inv
    /\ inv_settlement_batch_id inv = Some (settlement_batch_id payload)
    /\ inv_deleted inv = false
    /\ invoice_of_batch (settlement_batch_id payload) db1 = Some inv
    /\ (reused d = true ->
        db1 = db /\ lines_count d = 0%nat
        /\ invoice_of_batch (settlement_batch_id payload) db = Some inv)
    /\ (reused d = false ->
        invoice_of_batch (settlement_batch_id payload) db = None
        /\ invoices db1 = (invoices db ++ [inv])%list
        /\ inv_status inv = issued
        /\ inv_client_id inv = sb_client_id batch
        /\ inv_total_amount inv = sb_total_krw batch
        /\ inv_issue_date inv = Some (issue_date payload)
        /\ inv_due_date inv = Some (due_date payload)
        /\ inv_created_by inv = issue_created_by payload)
    /\ forall body' payload',
        issueInvoiceSchema body' = Some payload' ->
        settlement_batch_id payload' = settlement_batch_id payload ->
        issue body' db1 = (db1, Success 200 (mkIssueData (Some inv) 0 true)).
Proof.
  intros Hissue.
  destruct (issue_inv _ _ _ _ Hissue) as (payload & Hs & _).
  rewrite (issue_run _ _ _ Hs) in Hissue.
  destruct (live_batch (settlement_batch_id payload) db) as [batch|] eqn:Hb; [|discriminate].
  destruct (live_batch_id _ _ _ Hb) as (_ & Hbid & _).
  exists payload, batch. rewrite Hbid in Hissue.
  destruct (invoice_of_batch (settlement_batch_id payload) db) as [ex|] eqn:Hex;
    injection Hissue as <- <-.
  - assert (Hlink : inv_settlement_batch_id ex = Some (settlement_batch_id payload)
                    /\ inv_deleted ex = false).
    { unfold invoice_of_batch in Hex. apply find_some in Hex. destruct Hex as [_ H].
      apply andb_prop in H. destruct H as [H1 H2]. unfold invoice_id_is in H1.
      destruct (inv_settlement_batch_id ex) as [b|]; [|discriminate].
      apply Z.eqb_eq in H1. subst b. split; [reflexivity | now destruct (inv_deleted ex)]. }
    exists ex. split; [exact Hs|]. split; [exact Hb|]. split; [reflexivity|].
    split; [apply Hlink|]. split; [apply Hlink|]. split; [exact Hex|].
    split; [intros _; repeat split; exact Hex|]. split; [discriminate|].
    intros body' payload' Hs' Hid'. rewrite (issue_run _ _ _ Hs'), Hid', Hb, Hbid, Hex.
    reflexivity.
  - set (row := issued_row payload batch _ _).
    assert (Hnew : invoice_of_batch (settlement_batch_id payload) (issued_state payload batch db)
                   = Some row).
    { unfold invoice_of_batch, issued_state.
      cbn [invoices with_invoice_lines with_invoices with_invoice_sequences].
      fold row. rewrite (find_app_none _ _ row Hex). cbn.
      now rewrite Hbid, Z.eqb_refl. }
    exists row. split; [exact Hs|]. split; [exact Hb|]. split; [reflexivity|].
    split; [cbn; now rewrite Hbid|]. split; [reflexivity|]. split; [exact Hnew|].
    split; [discriminate|]. split; [intros _; repeat split|].
    intros body' payload' Hs' Hid'. rewrite (issue_run _ _ _ Hs'), Hid'.
    assert (Hb' : live_batch (settlement_batch_id payload) (issued_state payload batch db)
                  = Some batch) by exact Hb.
    rewrite Hb', Hbid, Hnew. reflexivity.
Qed.

Lemma settlement_issue_once_witness :
  exists db1 d payload batch inv,
    issue batch_issue_body batch_db = (db1, Success 200 d)
    /\ issueInvoiceSchema batch_issue_body = Some payload
    /\ live_batch (settlement_batch_id payload) batch_db = Some batch
    /\ issued_invoice d = Some inv
    /\ inv_settlement_batch_id inv = Some (settlement_batch_id payload)
    /\ inv_deleted inv = false
    /\ invoice_of_batch (settlement_batch_id payload) db1 = Some inv
    /\ (reused d = true ->
        db1 = batch_db /\ lines_count d = 0%nat
        /\ invoice_of_batch (settlement_batch_id payload) batch_db = Some inv)
    /\ (reused d = false ->
        invoice_of_batch (settlement_batch_id payload) batch_db = None
        /\ invoices db1 = (invoices batch_db ++ [inv])%list
        /\ inv_status inv = issued
        /\ inv_client_id inv = sb_client_id batch
        /\ inv_total_amount inv = sb_total_krw batch
        /\ inv_issue_date inv = Some (issue_date payload)
        /\ inv_due_date inv = Some (due_date payload)
        /\ inv_created_by inv = issue_created_by payload)
    /\ forall body' payload',
        issueInvoiceSchema body' = Some payload' ->
        settlement_batch_id payload' = settlement_batch_id payload ->
        issue body' db1 = (db1, Success 200 (mkIssueData (Some inv) 0 true)).
Proof.
  destruct (settlement_issue_once batch_issue_body batch_db
              (fst (issue batch_issue_body batch_db))
              (mkIssueData (invoice_by_id 1 (fst (issue batch_issue_body batch_db))) 0 false)
              eq_refl)
    as (payload & batch & inv & H).
  eexists. eexists. exists payload, batch, inv. split; [reflexivity | exact H].
Defined.

(** X20 (the lines of POST /invoices/issue). An issue that creates the
    invoice copies the live settlement lines of the batch, in id order, into
    invoice lines of the new invoice: one invoice line per settlement line,
    with the line's service, quantity, unit price and amount and a link back
    to it. The answer counts exactly these lines; deleted settlement lines
    and lines of other batches are not copied, and the batch and its
    settlement lines are left as they were. *)
Theorem settlement_issue_copies_lines (body : IssueBody) (db db1 : Db)
        (o : option Invoice) (k : nat) :
  issue body db = (db1, Success 200 (mkIssueData o k false)) ->
  exists payload inv copies,
    issueInvoiceSchema body = Some payload
    /\ o = Some inv
    /\ invoice_lines db1 = (invoice_lines db ++ copies)%list
    /\ k = List.length copies
    /\ k = List.length (lines_of_batch (settlement_batch_id payload) db)
    /\ map il_settlement_line_id copies
       = map sl_id (lines_of_batch (settlement_batch_id payload) db)
    /\ map il_service_id copies
       = map sl_service_id (lines_of_batch (settlement_batch_id payload) db)
    /\ map il_qty copies = map sl_qty (lines_of_batch (settlement_batch_id payload) db)
    /\ map il_unit_price copies
       = map sl_unit_price (lines_of_batch (settlement_batch_id payload) db)
    /\ map il_amount copies
       = map sl_amount (lines_of_batch (settlement_batch_id payload) db)
    /\ Forall (fun l => il_invoice_id l = inv_id inv) copies
    /\ (forall line,
           In line (lines_of_batch (settlement_batch_id payload) db)
           <-> In line (settlement_lines db)
               /\ sl_settlement_batch_id line = settlement_batch_id payload
               /\ sl_deleted line = false)
    /\ settlement_lines db1 = settlement_lines db
    /\ settlement_batches db1 = settlement_batches db.
Proof.
  intros Hissue.
  destruct (issue_inv _ _ _ _ Hissue) as (payload & Hs & _).
  rewrite (issue_run _ _ _ Hs) in Hissue.
  destruct (live_batch (settlement_batch_id payload) db) as [batch|] eqn:Hb; [|discriminate].
  destruct (live_batch_id _ _ _ Hb) as (_ & Hbid & _).
  rewrite Hbid in Hissue.
  destruct (invoice_of_batch (settlement_batch_id payload) db) as [ex|]; [discriminate|].
  injection Hissue as <- <- <-.
  destruct (append_lines_rows (next_id (map inv_id (invoices db)))
              (lines_of_batch (settlement_batch_id payload) db) (invoice_lines db))
    as (copies & Happ & Hlen & H1 & H2 & H3 & H4 & H5 & Hall).
  eexists payload, _, copies.
  split; [exact Hs|]. split; [reflexivity|].
  split. { unfold issued_state. cbn [invoice_lines with_invoice_lines]. rewrite Hbid.
           exact Happ. }
  split; [now symmetry|]. split; [reflexivity|].
  do 5 (split; [assumption|]). split; [exact Hall|].
  split.
  { intros line. unfold lines_of_batch. rewrite in_order_by, filter_In, andb_true_iff,
      Z.eqb_eq, negb_true_iff. tauto. }
  split; reflexivity.
Qed.

Lemma settlement_issue_copies_lines_witness :
  exists db1 inv copies,
    issue batch_issue_body lines_db = (db1, Success 200 (mkIssueData (Some inv) 2 false))
    /\ invoice_lines db1 = (invoice_lines lines_db ++ copies)%list
    /\ map il_settlement_line_id copies = [1; 2]
    /\ map il_amount copies = [12000%Q; 3300%Q]
    /\ Forall (fun l => il_invoice_id l = inv_id inv) copies.
Proof.
  destruct (settlement_issue_copies_lines batch_issue_body lines_db
              (fst (issue batch_issue_body lines_db))
              (invoice_by_id 1 (fst (issue batch_issue_body lines_db))) 2 eq_refl)
    as (payload & inv & copies & Hs & Ho & Hl & _ & _ & H1 & _ & _ & _ & H5 & Hall & _).
  injection Hs as <-. injection Ho as <-.
  eexists. eexists. exists copies.
  split; [reflexivity|]. split; [exact Hl|]. split; [exact H1|]. split; [exact H5 | exact Hall].
Defined.

Lemma generate_keeps_settlement (req : Request) (body : GenerateBody) (db : Db) :
  settlement_reopen_logs (fst (generate req body db)) = settlement_reopen_logs db
  /\ settlement_batches (fst (generate req body db)) = settlement_batches db
  /\ settlement_lines (fst (generate req body db)) = settlement_lines db.
Proof.
  unfold generate, validate, respond, withTransaction.
  destruct (generateInvoiceSchema body) as [payload|]; [|repeat split].
  assert (Hfresh : forall s r s',
             generate_fresh (parseCreator req (created_by payload)) payload
                            (monthRange (invoice_month payload)) s = Return r s' ->
             settlement_reopen_logs s' = settlement_reopen_logs s
             /\ settlement_batches s' = settlement_batches s
             /\ settlement_lines s' = settlement_lines s).
  { intros s r s'. unfold generate_fresh. run_tx.
    destruct (rate_on_or_before _ s); [|intros H; injection H as _ <-; repeat split].
    destruct (pending_events _ _ _); [intros H; injection H as _ <-; repeat split|].
    rewrite resolveInvoiceSequence_run. unfold insert_invoice. cbn beta zeta.
    rewrite invoice_events_run, insert_items_run. unfold insert_item. run_tx.
    intros H. injection H as _ <-. repeat split. }
  destruct (generate_work req payload db) as [r db1|e] eqn:Hwork; [|repeat split].
  assert (settlement_reopen_logs db1 = settlement_reopen_logs db
          /\ settlement_batches db1 = settlement_batches db
          /\ settlement_lines db1 = settlement_lines db).
  { revert Hwork. unfold generate_work. run_tx.
    destruct (existing_invoice _ _ db) as [existing|]; [|apply Hfresh].
    destruct (negb _); [intros H; injection H as _ <-; repeat split|].
    destruct (_ =? 0); [intros H; injection H as _ <-; repeat split|].
    intros H. destruct (Hfresh _ _ _ H) as (H1 & H2 & H3). rewrite H1, H2, H3.
    repeat split. }
  destruct r; assumption.
Qed.

(** X21 (settlement_reopen_logs). The audit log only grows: no route
    changes or removes a log row. A close that succeeds appends one row
    with action close, the closing actor and no request; an approval that
    succeeds appends one row with action reopen that names the request and
    the approver and falls back to the request's reason when the decision
    gives none. A rejection and a new reopen request write no log row, nor
    do refused calls, the settlement issue and the invoice generator. *)
Theorem audit_log_is_append_only (db : Db) :
  (forall batchId body,
      exists added,
        settlement_reopen_logs (fst (close batchId body db))
        = (settlement_reopen_logs db ++ added)%list
        /\ (forall b,
               snd (close batchId body db) = Success 200 b ->
               exists payload,
                 closeBatchSchema body = Some payload
                 /\ added = [close_log batchId payload db])
        /\ (forall http code,
               snd (close batchId body db) = Failure http code -> added = []))
  /\ (forall requestId body,
         exists added,
           settlement_reopen_logs (fst (approve requestId body db))
           = (settlement_reopen_logs db ++ added)%list
           /\ (forall r,
                  snd (approve requestId body db) = Success 200 r ->
                  exists payload reqRow,
                    reopenDecisionSchema body = Some payload
                    /\ live_request requestId db = Some reqRow
                    /\ added = [reopen_log reqRow payload db]
                    /\ log_request_id (reopen_log reqRow payload db) = Some requestId
                    /\ (or_null (decision_reason payload) = None ->
                        log_reason (reopen_log reqRow payload db)
                        = or_null (Some (rr_reason reqRow))))
           /\ (forall http code,
                  snd (approve requestId body db) = Failure http code -> added = []))
  /\ (forall requestId body,
         settlement_reopen_logs (fst (reject requestId body db)) = settlement_reopen_logs db)
  /\ (forall batchId body,
         settlement_reopen_logs (fst (reopen_request batchId body db))
         = settlement_reopen_logs db)
  /\ (forall body,
         settlement_reopen_logs (fst (issue body db)) = settlement_reopen_logs db)
  /\ (forall req body,
         settlement_reopen_logs (fst (generate req body db)) = settlement_reopen_logs db).
Proof.
  split; [|split; [|split; [|split; [|split]]]].
  - intros batchId body. destruct (closeBatchSchema body) as [p|] eqn:Hs.
    + rewrite (close_run _ _ _ _ Hs).
      destruct (live_batch batchId db) as [b|];
        [|exists []; cbn; rewrite app_nil_r; repeat split; discriminate].
      destruct (sb_status b);
        try (exists []; cbn; rewrite app_nil_r; repeat split; discriminate);
        (exists [close_log batchId p db]; split; [reflexivity|];
         split; [intros _ _; exists p; now split | discriminate]).
    + unfold close, validate. rewrite Hs.
      exists []. cbn. rewrite app_nil_r. repeat split. discriminate.
  - intros requestId body. destruct (reopenDecisionSchema body) as [p|] eqn:Hs.
    + rewrite (approve_run _ _ _ _ Hs).
      destruct (live_request requestId db) as [r|] eqn:Hr;
        [|exists []; cbn; rewrite app_nil_r; repeat split; discriminate].
      destruct (live_request_in _ _ _ Hr) as (_ & Hid & _).
      destruct (rr_status r);
        try (exists []; cbn; rewrite app_nil_r; repeat split; discriminate).
      exists [reopen_log r p db]. split; [reflexivity|].
      split; [|discriminate].
      intros _ _. exists p, r. split; [reflexivity|]. split; [reflexivity|].
      split; [reflexivity|]. split; [cbn; now rewrite Hid|].
      intros Hn. cbn. now rewrite Hn.
    + unfold approve, validate. rewrite Hs.
      exists []. cbn. rewrite app_nil_r. repeat split. discriminate.
  - intros requestId body. destruct (reopenDecisionSchema body) as [p|] eqn:Hs.
    + rewrite (reject_run _ _ _ _ Hs).
      destruct (live_request requestId db) as [r|]; [|reflexivity].
      destruct (rr_status r); reflexivity.
    + unfold reject, validate. now rewrite Hs.
  - intros batchId body. destruct (reopenRequestSchema body) as [p|] eqn:Hs.
    + rewrite (reopen_request_run _ _ _ _ Hs).
      destruct (live_batch batchId db) as [b|]; [|reflexivity].
      destruct (sb_status b); try reflexivity.
      destruct (outstanding batchId db); reflexivity.
    + unfold reopen_request, validate. now rewrite Hs.
  - intros body. destruct (issueInvoiceSchema body) as [p|] eqn:Hs.
    + rewrite (issue_run _ _ _ Hs).
      destruct (live_batch (settlement_batch_id p) db) as [b|]; [|reflexivity].
      destruct (invoice_of_batch (sb_id b) db); reflexivity.
    + unfold issue, validate. now rewrite Hs.
  - intros req body. apply generate_keeps_settlement.
Qed.

(* ------------------------------------------------------------------ *)
(** ** Close, reopen request, decision *)

Lemma find_update {A : Type} (key : A -> Z) (live : A -> bool) (f : A -> A)
      (id : Z) (t : list A) :
  (forall a, key (f a) = key a) -> (forall a, live (f a) = live a) ->
  find (fun a => (key a =? id) && live a) (map (fun a => if key a =? id then f a else a) t)
  = option_map f (find (fun a => (key a =? id) && live a) t).
Proof.
  intros Hk Hl. rewrite find_map_same.
  - destruct (find (fun a => (key a =? id) && live a) t) as [r|] eqn:E; [|reflexivity].
    apply find_some in E. destruct E as [_ E]. apply andb_prop in E. destruct E as [E _].
    cbn. now rewrite E.
  - intros a. destruct (key a =? id) eqn:E; [|now rewrite E].
    now rewrite Hk, Hl, E.
Qed.

Lemma find_fresh_live {A : Type} (key : A -> Z) (live : A -> bool) (t : list A) (x : A) :
  key x = next_id (map key t) -> live x = true ->
  find (fun a => (key a =? key x) && live a) (t ++ [x])%list = Some x.
Proof.
  intros Hx Hl. rewrite find_app_none.
  - now rewrite Z.eqb_refl, Hl.
  - apply find_all_false. intros a Ha.
    pose proof (next_id_gt (map key t) (key a) (in_map key t a Ha)).
    destruct (Z.eqb_spec (key a) (key x)); [lia | reflexivity].
Qed.

Lemma outstanding_nil_find (batchId : Z) (db : Db) :
  outstanding batchId db = [] ->
  forall r, In r (settlement_reopen_requests db) ->
            (rr_settlement_batch_id r =? batchId) && is_requested r && negb (rr_deleted r)
            = false.
Proof.
  intros H r Hin. exact (filter_empty_all _ _ r H Hin).
Qed.

(** A request that has just been filed, and the state once it is decided. *)
Lemma filed_request (batchId : Z) (payload : ReopenPayload) (db : Db) :
  outstanding batchId db = [] ->
  let r := new_request batchId payload db in
  let db' := requested_state batchId payload db in
  outstanding batchId db' = [r]
  /\ live_request (rr_id r) db' = Some r
  /\ forall status decision,
      status <> requested ->
      let db'' := decided_state status (rr_id r) decision db' in
      settlement_reopen_requests db''
      = (settlement_reopen_requests db
           ++ [decide_request status (approved_by decision) r])%list
      /\ outstanding batchId db'' = []
      /\ live_request (rr_id r) db''
         = Some (decide_request status (approved_by decision) r)
      /\ request_by_id (rr_id r) db''
         = Some (decide_request status (approved_by decision) r).
Proof.
  intros Hnone. cbv zeta.
  set (r := new_request batchId payload db).
  assert (Hid : rr_id r = next_id (map rr_id (settlement_reopen_requests db)))
    by reflexivity.
  split.
  { unfold outstanding, requested_state.
    cbn [settlement_reopen_requests with_reopen_requests]. rewrite filter_app.
    fold (outstanding batchId db). rewrite Hnone. cbn. now rewrite Z.eqb_refl. }
  split.
  { unfold live_request, requested_state.
    cbn [settlement_reopen_requests with_reopen_requests].
    apply (find_fresh_live rr_id (fun a => negb (rr_deleted a))); reflexivity. }
  intros status decision Hst.
  assert (Hreqs : settlement_reopen_requests
                    (decided_state status (rr_id r) decision
                       (requested_state batchId payload db))
                  = (settlement_reopen_requests db
                       ++ [decide_request status (approved_by decision) r])%list).
  { unfold decided_state, requested_state.
    cbn [settlement_reopen_requests with_reopen_requests].
    now apply (update_fresh rr_id). }
  split; [exact Hreqs|]. split.
  { unfold outstanding. rewrite Hreqs, filter_app.
    fold (outstanding batchId db). rewrite Hnone. cbn.
    unfold is_requested. cbn. destruct status; [contradiction | |];
      rewrite andb_false_r; reflexivity. }
  split.
  { unfold live_request. rewrite Hreqs.
    apply (find_fresh_live rr_id (fun a => negb (rr_deleted a)) _
             (decide_request status (approved_by decision) r)); reflexivity. }
  unfold request_by_id. rewrite Hreqs.
  apply (find_fresh rr_id _ (decide_request status (approved_by decision) r)). reflexivity.
Qed.

(** X22 (close, reopen request, approval). From a reviewed or open batch
    with no request waiting, the documented round goes through step by
    step: the close succeeds and records who closed; closing again is
    refused; a reopen request is filed and is then the one outstanding
    request, a second one being refused; its approval puts the batch back to
    reviewed with no closer, settles the request (approving or rejecting it
    again is refused), and the audit log has gained exactly the close row
    and the reopen row; after that the batch can be closed again. *)
Theorem reopen_cycle (batchId : Z) (closeBody : CloseBody) (reopenBody : ReopenBody)
        (decisionBody : DecisionBody) (cp : ClosePayload) (rp : ReopenPayload)
        (dp : DecisionPayload) (db : Db) (batch : SettlementBatch) :
  closeBatchSchema closeBody = Some cp ->
  reopenRequestSchema reopenBody = Some rp ->
  reopenDecisionSchema decisionBody = Some dp ->
  live_batch batchId db = Some batch ->
  sb_status batch = reviewed \/ sb_status batch = open ->
  outstanding batchId db = [] ->
  exists db1 db2 db3 db4 b1 b4 r,
    close batchId closeBody db = (db1, Success 200 b1)
    /\ live_batch batchId db1
       = Some (set_batch_status closed (Some (closed_by cp)) batch)
    /\ close batchId closeBody db1 = (db1, Failure 400 "ALREADY_CLOSED")
    /\ reopen_request batchId reopenBody db1 = (db2, Success 201 (Some r))
    /\ rr_status r = requested
    /\ rr_settlement_batch_id r = batchId
    /\ outstanding batchId db2 = [r]
    /\ reopen_request batchId reopenBody db2 = (db2, Failure 400 "REQUEST_EXISTS")
    /\ approve (rr_id r) decisionBody db2
       = (db3, Success 200 (Some (decide_request approved (approved_by dp) r)))
    /\ live_batch batchId db3 = Some (set_batch_status reviewed None batch)
    /\ outstanding batchId db3 = []
    /\ approve (rr_id r) decisionBody db3 = (db3, Failure 400 "INVALID_STATUS")
    /\ reject (rr_id r) decisionBody db3 = (db3, Failure 400 "INVALID_STATUS")
    /\ settlement_reopen_logs db3
       = (settlement_reopen_logs db ++ [close_log batchId cp db; reopen_log r dp db1])%list
    /\ close batchId closeBody db3 = (db4, Success 200 b4)
    /\ live_batch batchId db4
       = Some (set_batch_status closed (Some (closed_by cp)) batch).
Proof.
  intros Hcs Hrs Hds Hb Hst Hnone.
  set (db1 := closed_state batchId cp db).
  assert (Hb1 : live_batch batchId db1
                = Some (set_batch_status closed (Some (closed_by cp)) batch)).
  { unfold live_batch, db1, closed_state.
    cbn [settlement_batches with_reopen_logs with_settlement_batches].
    rewrite (find_update sb_id (fun b => negb (sb_deleted b))) by reflexivity.
    fold (live_batch batchId db). now rewrite Hb. }
  assert (Hnone1 : outstanding batchId db1 = []) by exact Hnone.
  destruct (filed_request batchId rp db1 Hnone1) as (Hout2 & Hlive2 & Hdec).
  cbv zeta in Hout2, Hlive2, Hdec.
  set (r := new_request batchId rp db1) in *.
  set (db2 := requested_state batchId rp db1) in *.
  destruct (Hdec approved dp ltac:(discriminate)) as (Hreqs3 & Hout3 & Hlive3 & Hby3).
  set (db3 := approved_state r dp db2).
  assert (Hb2 : live_batch batchId db2
                = Some (set_batch_status closed (Some (closed_by cp)) batch)) by exact Hb1.
  assert (Hb3 : live_batch batchId db3 = Some (set_batch_status reviewed None batch)).
  { unfold live_batch, db3, approved_state.
    cbn [settlement_batches with_reopen_logs with_settlement_batches].
    change (rr_settlement_batch_id r) with batchId.
    rewrite (find_update sb_id (fun b => negb (sb_deleted b))) by reflexivity.
    change (find (fun a => (sb_id a =? batchId) && negb (sb_deleted a))
                 (settlement_batches (decided_state approved (rr_id r) dp db2)))
      with (live_batch batchId db2).
    now rewrite Hb2. }
  assert (Hout3' : outstanding batchId db3 = []) by exact Hout3.
  assert (Hlive3' : live_request (rr_id r) db3
                    = Some (decide_request approved (approved_by dp) r)) by exact Hlive3.
  assert (Hby3' : request_by_id (rr_id r) db3
                  = Some (decide_request approved (approved_by dp) r)) by exact Hby3.
  set (db4 := closed_state batchId cp db3).
  exists db1, db2, db3, db4. eexists. eexists. exists r.
  split.
  { rewrite (close_run _ _ _ _ Hcs), Hb.
    destruct Hst as [-> | ->]; reflexivity. }
  split; [exact Hb1|].
  split; [rewrite (close_run _ _ _ _ Hcs), Hb1; reflexivity|].
  split; [rewrite (reopen_request_run _ _ _ _ Hrs), Hb1; cbn [sb_status set_batch_status];
          rewrite Hnone1; reflexivity|].
  split; [reflexivity|]. split; [reflexivity|]. split; [exact Hout2|].
  split; [rewrite (reopen_request_run _ _ _ _ Hrs), Hb2; cbn [sb_status set_batch_status];
          rewrite Hout2; reflexivity|].
  split; [rewrite (approve_run _ _ _ _ Hds), Hlive2; cbn [rr_status r new_request];
          fold r; fold db3; rewrite Hby3'; reflexivity|].
  split; [exact Hb3|]. split; [exact Hout3'|].
  split; [rewrite (approve_run _ _ _ _ Hds), Hlive3'; reflexivity|].
  split; [rewrite (reject_run _ _ _ _ Hds), Hlive3'; reflexivity|].
  split.
  { change (settlement_reopen_logs db3)
      with ((settlement_reopen_logs db ++ [close_log batchId cp db])
              ++ [reopen_log r dp db1])%list.
    rewrite <- app_assoc. reflexivity. }
  split; [rewrite (close_run _ _ _ _ Hcs), Hb3; reflexivity|].
  unfold live_batch, db4, closed_state.
  cbn [settlement_batches with_reopen_logs with_settlement_batches].
  rewrite (find_update sb_id (fun b => negb (sb_deleted b))) by reflexivity.
  fold (live_batch batchId db3). now rewrite Hb3.
Qed.

Lemma reopen_cycle_witness :
  exists db1 db2 db3 db4 b1 b4 r,
    close 1 close_body lines_db = (db1, Success 200 b1)
    /\ live_batch 1 db1
       = Some (set_batch_status closed (Some 9)
                 (mkBatch 1 7 "2026-02" 1 reviewed 15300%Q None false))
    /\ close 1 close_body db1 = (db1, Failure 400 "ALREADY_CLOSED")
    /\ reopen_request 1 reopen_body db1 = (db2, Success 201 (Some r))
    /\ rr_status r = requested
    /\ rr_settlement_batch_id r = 1
    /\ outstanding 1 db2 = [r]
    /\ reopen_request 1 reopen_body db2 = (db2, Failure 400 "REQUEST_EXISTS")
    /\ approve (rr_id r) decision_body db2
       = (db3, Success 200 (Some (decide_request approved 2 r)))
    /\ live_batch 1 db3
       = Some (set_batch_status reviewed None
                 (mkBatch 1 7 "2026-02" 1 reviewed 15300%Q None false))
    /\ outstanding 1 db3 = []
    /\ approve (rr_id r) decision_body db3 = (db3, Failure 400 "INVALID_STATUS")
    /\ reject (rr_id r) decision_body db3 = (db3, Failure 400 "INVALID_STATUS")
    /\ settlement_reopen_logs db3
       = (settlement_reopen_logs lines_db
            ++ [close_log 1 (mkClosePayload 9 (Some "month end")) lines_db;
                reopen_log r (mkDecisionPayload 2 None) db1])%list
    /\ close 1 close_body db3 = (db4, Success 200 b4)
    /\ live_batch 1 db4
       = Some (set_batch_status closed (Some 9)
                 (mkBatch 1 7 "2026-02" 1 reviewed 15300%Q None false)).
Proof.
  apply (reopen_cycle 1 close_body reopen_body decision_body
           (mkClosePayload 9 (Some "month end")) (mkReopenPayload 9 "late events")
           (mkDecisionPayload 2 None) lines_db
           (mkBatch 1 7 "2026-02" 1 reviewed 15300%Q None false));
    try reflexivity.
  now left.
Defined.

(** X23 (rejection of a reopen request). On a closed batch with no request
    waiting, a reopen request can be filed and rejected: the rejection
    settles the request and records who decided, but the batch stays closed,
    no batch row and no audit log row is written for the request or for its
    rejection, the rejected request can no longer be approved, and a new
    request can be filed for the batch. *)
Theorem rejected_reopen_keeps_batch_closed (batchId : Z) (reopenBody : ReopenBody)
        (decisionBody : DecisionBody) (rp : ReopenPayload) (dp : DecisionPayload)
        (db : Db) (batch : SettlementBatch) :
  reopenRequestSchema reopenBody = Some rp ->
  reopenDecisionSchema decisionBody = Some dp ->
  live_batch batchId db = Some batch ->
  sb_status batch = closed ->
  outstanding batchId db = [] ->
  exists db1 db2 db3 r r',
    reopen_request batchId reopenBody db = (db1, Success 201 (Some r))
    /\ reject (rr_id r) decisionBody db1
       = (db2, Success 200 (Some (decide_request rejected (approved_by dp) r)))
    /\ live_batch batchId db2 = Some batch
    /\ settlement_batches db2 = settlement_batches db
    /\ settlement_reopen_logs db2 = settlement_reopen_logs db
    /\ outstanding batchId db2 = []
    /\ approve (rr_id r) decisionBody db2 = (db2, Failure 400 "INVALID_STATUS")
    /\ reject (rr_id r) decisionBody db2 = (db2, Failure 400 "INVALID_STATUS")
    /\ reopen_request batchId reopenBody db2 = (db3, Success 201 (Some r'))
    /\ rr_id r < rr_id r'
    /\ outstanding batchId db3 = [r'].
Proof.
  intros Hrs Hds Hb Hst Hnone.
  destruct (filed_request batchId rp db Hnone) as (Hout1 & Hlive1 & Hdec).
  cbv zeta in Hout1, Hlive1, Hdec.
  set (r := new_request batchId rp db) in *.
  set (db1 := requested_state batchId rp db) in *.
  destruct (Hdec rejected dp ltac:(discriminate)) as (Hreqs2 & Hout2 & Hlive2 & Hby2).
  set (db2 := decided_state rejected (rr_id r) dp db1) in *.
  assert (Hb2 : live_batch batchId db2 = Some batch) by exact Hb.
  destruct (filed_request batchId rp db2 Hout2) as (Hout3 & _).
  cbv zeta in Hout3.
  exists db1, db2, (requested_state batchId rp db2), r, (new_request batchId rp db2).
  split; [rewrite (reopen_request_run _ _ _ _ Hrs), Hb, Hst, Hnone; reflexivity|].
  split; [rewrite (reject_run _ _ _ _ Hds), Hlive1; cbn [rr_status r new_request];
          fold r; fold db2; rewrite Hby2; reflexivity|].
  split; [exact Hb2|]. split; [reflexivity|]. split; [reflexivity|].
  split; [exact Hout2|].
  split; [rewrite (approve_run _ _ _ _ Hds), Hlive2; reflexivity|].
  split; [rewrite (reject_run _ _ _ _ Hds), Hlive2; reflexivity|].
  split; [rewrite (reopen_request_run _ _ _ _ Hrs), Hb2, Hst, Hout2; reflexivity|].
  split; [|exact Hout3].
  cbn [rr_id new_request]. rewrite Hreqs2. apply next_id_gt.
  rewrite map_app. apply in_or_app. right. now left.
Qed.

Lemma rejected_reopen_keeps_batch_closed_witness :
  let db := fst (close 1 close_body lines_db) in
  exists db1 db2 db3 r r',
    reopen_request 1 reopen_body db = (db1, Success 201 (Some r))
    /\ reject (rr_id r) decision_body db1
       = (db2, Success 200 (Some (decide_request rejected 2 r)))
    /\ live_batch 1 db2
       = Some (mkBatch 1 7 "2026-02" 1 closed 15300%Q (Some 9) false)
    /\ settlement_batches db2 = settlement_batches db
    /\ settlement_reopen_logs db2 = settlement_reopen_logs db
    /\ outstanding 1 db2 = []
    /\ approve (rr_id r) decision_body db2 = (db2, Failure 400 "INVALID_STATUS")
    /\ reject (rr_id r) decision_body db2 = (db2, Failure 400 "INVALID_STATUS")
    /\ reopen_request 1 reopen_body db2 = (db3, Success 201 (Some r'))
    /\ rr_id r < rr_id r'
    /\ outstanding 1 db3 = [r'].
Proof.
  apply (rejected_reopen_keeps_batch_closed 1 reopen_body decision_body
           (mkReopenPayload 9 "late events") (mkDecisionPayload 2 None)
           (fst (close 1 close_body lines_db))
           (mkBatch 1 7 "2026-02" 1 closed 15300%Q (Some 9) false));
    reflexivity.
Defined.

(* ------------------------------------------------------------------ *)
(** ** The service event of a movement *)

Lemma resolve_policy_inv (c : Z) (d : Date) (db db' : Db) (o : option PolicyRow) :
  resolveActivePricePolicy c d db = Return o db' ->
  db' = db /\ o = option_map policy_row (last_by policy_newer (active_policies c d db)).
Proof.
  unfold resolveActivePricePolicy, query. intros H. injection H as <- <-. now split.
Qed.

Lemma resolve_policy_frame (c : Z) (d : Date) (db : Db) (o : option PolicyRow)
      (f : list ServiceEvent -> list ServiceEvent) :
  resolveActivePricePolicy c d db = Return o db ->
  resolveActivePricePolicy c d (with_service_events f db)
  = Return o (with_service_events f db).
Proof.
  intros H. destruct (resolve_policy_inv _ _ _ _ _ H) as [_ ->]. reflexivity.
Qed.

(** An upsert on a table whose last row is the one event of the movement. *)
Lemma upsert_existing (params : OutboundParams) (policy : PolicyRow) (db : Db)
      (t : list ServiceEvent) (x : ServiceEvent) :
  resolveActivePricePolicy (clientId params) (orderDate params) db
  = Return (Some policy) db ->
  service_events db = (t ++ [x])%list ->
  se_id x = next_id (map se_id t) ->
  find (event_of_movement (stockTransactionId params)) t = None ->
  event_of_movement (stockTransactionId params) x = true ->
  upsertOutboundServiceEvent params db
  = Return (Some (se_id x))
           (with_service_events (fun _ => (t ++ [priced_event params policy (se_id x)])%list)
                                db).
Proof.
  intros Hp Ht Hid Hnone Hx.
  destruct (resolve_policy_inv _ _ _ _ _ Hp) as [_ Hpol].
  unfold upsertOutboundServiceEvent. run_tx.
  unfold resolveActivePricePolicy, query. rewrite <- Hpol.
  rewrite Ht, (find_app_none _ _ x Hnone), Hx.
  f_equal. unfold with_service_events. rewrite Ht. f_equal.
  rewrite (update_fresh se_id _ t x Hid). f_equal. f_equal.
  unfold priced_event, event_of_movement in *.
  apply andb_prop in Hx. destruct Hx as [Hs Htxn].
  apply String.eqb_eq in Hs. apply Z.eqb_eq in Htxn. now rewrite Hs, Htxn.
Qed.

Lemma upsert_new (params : OutboundParams) (policy : PolicyRow) (db : Db) :
  resolveActivePricePolicy (clientId params) (orderDate params) db
  = Return (Some policy) db ->
  find (event_of_movement (stockTransactionId params)) (service_events db) = None ->
  upsertOutboundServiceEvent params db
  = Return (Some (next_id (map se_id (service_events db))))
           (with_service_events
              (fun _ => (service_events db
                           ++ [priced_event params policy
                                 (next_id (map se_id (service_events db)))])%list)
              db).
Proof.
  intros Hp Hnone.
  destruct (resolve_policy_inv _ _ _ _ _ Hp) as [_ Hpol].
  unfold upsertOutboundServiceEvent. run_tx.
  unfold resolveActivePricePolicy, query. rewrite <- Hpol, Hnone. reflexivity.
Qed.

(** X24 ([upsertOutboundServiceEvent] and [softDeleteOutboundServiceEvent]).
    A stock movement has one service event. The first upsert for a movement
    inserts the event; an upsert for the same movement afterwards rewrites
    that row and adds none, so what is stored is what the last upsert alone
    would have stored, priced by the policy of the last call. That also holds
    when the event was soft-deleted in between, which the upsert revives
    under its old id, and repeating the last upsert changes nothing. *)
Theorem upsert_last_write_wins (p1 p2 : OutboundParams) (db : Db)
        (policy1 policy2 : PolicyRow) :
  stockTransactionId p2 = stockTransactionId p1 ->
  find (event_of_movement (stockTransactionId p1)) (service_events db) = None ->
  resolveActivePricePolicy (clientId p1) (orderDate p1) db = Return (Some policy1) db ->
  resolveActivePricePolicy (clientId p2) (orderDate p2) db = Return (Some policy2) db ->
  exists id db1 db2 db1',
    id = next_id (map se_id (service_events db))
    /\ upsertOutboundServiceEvent p1 db = Return (Some id) db1
    /\ service_events db1 = (service_events db ++ [priced_event p1 policy1 id])%list
    /\ upsertOutboundServiceEvent p2 db1 = Return (Some id) db2
    /\ upsertOutboundServiceEvent p2 db = Return (Some id) db2
    /\ service_events db2 = (service_events db ++ [priced_event p2 policy2 id])%list
    /\ softDeleteOutboundServiceEvent (stockTransactionId p1) db1 = Return tt db1'
    /\ (exists e, service_events db1' = (service_events db ++ [e])%list
                  /\ se_id e = id /\ se_deleted e = true)
    /\ upsertOutboundServiceEvent p2 db1' = Return (Some id) db2
    /\ upsertOutboundServiceEvent p2 db2 = Return (Some id) db2.
Proof.
  intros Htxn Hnone Hp1 Hp2.
  set (t := service_events db). set (id := next_id (map se_id t)).
  assert (Hnone2 : find (event_of_movement (stockTransactionId p2)) t = None)
    by (rewrite Htxn; exact Hnone).
  assert (Hmov : forall pol p, stockTransactionId p = stockTransactionId p1 ->
                               event_of_movement (stockTransactionId p2)
                                 (priced_event p pol id) = true).
  { intros pol p Hp. unfold event_of_movement, priced_event. cbn.
    rewrite Hp, Htxn. apply Z.eqb_refl. }
  set (db1 := with_service_events (fun _ => (t ++ [priced_event p1 policy1 id])%list) db).
  set (db2 := with_service_events (fun _ => (t ++ [priced_event p2 policy2 id])%list) db).
  set (gone := mkServiceEvent id (clientId p1) (policy_service_id policy1)
                 (outboundOrderId p1) (stockTransactionId p1) "outbound_shipped"
                 (policy_billing_basis policy1)
                 (qtyApplied (calcAmountByBasis (policy_billing_basis policy1)
                                                (qty p1) (boxCount p1)))
                 (boxApplied (calcAmountByBasis (policy_billing_basis policy1)
                                                (qty p1) (boxCount p1)))
                 (policy_unit_price policy1)
                 (toFixed4 (policy_unit_price policy1
                            * basisUnits (calcAmountByBasis (policy_billing_basis policy1)
                                                            (qty p1) (boxCount p1))))
                 (policy_currency policy1) true).
  set (db1' := with_service_events (fun _ => (t ++ [gone])%list) db).
  assert (Hstate : forall l l', with_service_events (fun _ => l') 
                                  (with_service_events (fun _ => l) db)
                                = with_service_events (fun _ => l') db) by reflexivity.
  exists id, db1, db2, db1'.
  split; [reflexivity|].
  split; [exact (upsert_new p1 policy1 db Hp1 Hnone)|].
  split; [reflexivity|].
  split.
  { rewrite (upsert_existing p2 policy2 db1 t (priced_event p1 policy1 id));
      [reflexivity | exact (resolve_policy_frame _ _ _ _ _ Hp2) | reflexivity
       | reflexivity | exact Hnone2 | now apply Hmov]. }
  split; [exact (upsert_new p2 policy2 db Hp2 Hnone2)|].
  split; [reflexivity|].
  split.
  { unfold softDeleteOutboundServiceEvent, exec, db1, db1', with_service_events.
    cbn [service_events invoices invoice_items billing_events exchange_rates
         invoice_sequences service_catalog settlement_batches settlement_lines
         invoice_lines settlement_reopen_requests settlement_reopen_logs price_policies].
    f_equal. f_equal. rewrite map_app. f_equal.
    - rewrite <- (map_id t) at 2. apply map_ext_in. intros e He.
      rewrite (find_none _ _ Hnone e He). reflexivity.
    - cbn [map]. rewrite <- Htxn, (Hmov policy1 p1 eq_refl). reflexivity. }
  split; [exists gone; repeat split|].
  split.
  { rewrite (upsert_existing p2 policy2 db1' t gone);
      [reflexivity | exact (resolve_policy_frame _ _ _ _ _ Hp2) | reflexivity
       | reflexivity | exact Hnone2|].
    unfold event_of_movement, gone. cbn. rewrite Htxn. apply Z.eqb_refl. }
  rewrite (upsert_existing p2 policy2 db2 t (priced_event p2 policy2 id));
    [reflexivity | exact (resolve_policy_frame _ _ _ _ _ Hp2) | reflexivity
     | reflexivity | exact Hnone2 | now apply Hmov].
Qed.

Lemma upsert_last_write_wins_witness :
  exists id db1 db2 db1',
    id = next_id (map se_id (service_events priced_db))
    /\ upsertOutboundServiceEvent shipment priced_db = Return (Some id) db1
    /\ service_events db1
       = (service_events priced_db
            ++ [priced_event shipment (mkPolicyRow 2 3 12%Q "THB" "QTY") id])%list
    /\ upsertOutboundServiceEvent reshipment db1 = Return (Some id) db2
    /\ upsertOutboundServiceEvent reshipment priced_db = Return (Some id) db2
    /\ service_events db2
       = (service_events priced_db
            ++ [priced_event reshipment (mkPolicyRow 2 3 12%Q "THB" "QTY") id])%list
    /\ softDeleteOutboundServiceEvent (stockTransactionId shipment) db1 = Return tt db1'
    /\ (exists e, service_events db1' = (service_events priced_db ++ [e])%list
                  /\ se_id e = id /\ se_deleted e = true)
    /\ upsertOutboundServiceEvent reshipment db1' = Return (Some id) db2
    /\ upsertOutboundServiceEvent reshipment db2 = Return (Some id) db2.
Proof.
  apply (upsert_last_write_wins shipment reshipment priced_db); reflexivity.
Defined.

(** X25 ([softDeleteOutboundServiceEvent]). Soft-deleting the service event
    of a movement leaves no live outbound event for that movement, keeps
    every row (ids and amounts stay readable), touches no event of another
    movement or source type, revives nothing, and is idempotent. *)
Theorem soft_delete_outbound_event (stockTxnId : Z) (db : Db) :
  exists db',
    softDeleteOutboundServiceEvent stockTxnId db = Return tt db'
    /\ map se_id (service_events db') = map se_id (service_events db)
    /\ map se_amount (service_events db') = map se_amount (service_events db)
    /\ (forall e,
           In e (service_events db') -> event_of_movement stockTxnId e = true ->
           se_deleted e = true)
    /\ (forall e,
           In e (service_events db) -> event_of_movement stockTxnId e = false ->
           In e (service_events db'))
    /\ (forall e,
           In e (service_events db') -> se_deleted e = false ->
           In e (service_events db))
    /\ find (fun e => event_of_movement stockTxnId e && negb (se_deleted e))
            (service_events db') = None
    /\ softDeleteOutboundServiceEvent stockTxnId db' = Return tt db'.
Proof.
  eexists. split; [reflexivity|].
  set (del := fun e => if event_of_movement stockTxnId e && negb (se_deleted e)
                       then mkServiceEvent (se_id e) (se_client_id e) (se_service_id e)
                              (se_outbound_order_id e) (se_stock_transaction_id e)
                              (se_source_type e) (se_basis_applied e) (se_qty e)
                              (se_box_count e) (se_unit_price e) (se_amount e)
                              (se_currency e) true
                       else e).
  assert (Hev : forall e, event_of_movement stockTxnId (del e)
                          = event_of_movement stockTxnId e).
  { intros e. unfold del.
    destruct (event_of_movement stockTxnId e && negb (se_deleted e)); reflexivity. }
  assert (Hdel : forall e, event_of_movement stockTxnId e = true -> se_deleted (del e) = true).
  { intros e He. unfold del. rewrite He. cbn.
    destruct (se_deleted e) eqn:Ed; [exact Ed | reflexivity]. }
  assert (Hkeep : forall e, event_of_movement stockTxnId e = false -> del e = e).
  { intros e He. unfold del. now rewrite He. }
  assert (Hlive : forall e, se_deleted (del e) = false -> del e = e).
  { intros e. unfold del.
    destruct (event_of_movement stockTxnId e && negb (se_deleted e)); [discriminate|].
    reflexivity. }
  change (service_events (with_service_events (map _) db))
    with (map del (service_events db)).
  split; [rewrite map_map; apply map_ext; intros e; unfold del;
          destruct (_ && _); reflexivity|].
  split; [rewrite map_map; apply map_ext; intros e; unfold del;
          destruct (_ && _); reflexivity|].
  split.
  { intros e He Hmov. apply in_map_iff in He. destruct He as (e0 & <- & _).
    apply Hdel. now rewrite <- Hev. }
  split.
  { intros e He Hmov. apply in_map_iff. exists e. split; [now apply Hkeep | exact He]. }
  split.
  { intros e He Hd. apply in_map_iff in He. destruct He as (e0 & <- & He0).
    now rewrite (Hlive e0 Hd). }
  split.
  { apply find_all_false. intros e He. apply in_map_iff in He.
    destruct He as (e0 & <- & _).
    destruct (event_of_movement stockTxnId (del e0)) eqn:E; [|reflexivity].
    rewrite Hev in E. now rewrite (Hdel e0 E). }
  unfold softDeleteOutboundServiceEvent, exec. f_equal.
  unfold with_service_events.
  cbn [service_events invoices invoice_items billing_events exchange_rates
       invoice_sequences service_catalog settlement_batches settlement_lines
       invoice_lines settlement_reopen_requests settlement_reopen_logs price_policies].
  f_equal. fold del. rewrite map_map. apply map_ext. intros e.
  destruct (event_of_movement stockTxnId (del e)) eqn:E.
  - unfold del at 1. rewrite E. rewrite Hev in E. rewrite (Hdel e E). reflexivity.
  - now apply Hkeep.
Qed.

(* ------------------------------------------------------------------ *)
(** ** Invoices that are no longer drafts *)

Lemma kept_refl (i : Invoice) : kept_invoice i i.
Proof. split; [reflexivity | lia]. Qed.

Lemma invoices_kept_same (db db' : Db) :
  invoices db' = invoices db -> invoice_items db' = invoice_items db ->
  invoices_kept db db'.
Proof.
  intros Hi Ht i Hin _. rewrite Hi, Ht. split; [|tauto].
  exists i. split; [exact Hin | apply kept_refl].
Qed.

Lemma nodup_fresh (ids : list Z) : NoDup ids -> NoDup (ids ++ [next_id ids])%list.
Proof.
  intros H. apply NoDup_app; [exact H | constructor; [intros [] | constructor] |].
  intros x Hx [<-|[]]. pose proof (next_id_gt ids _ Hx). lia.
Qed.

(** Rows appended after the table, items appended after theirs: everything
    from before is still there. *)
Lemma invoices_kept_appended (db db' : Db) (tail : list Invoice) (rows : list InvoiceItem) :
  invoices db' = (invoices db ++ tail)%list ->
  invoice_items db' = (invoice_items db ++ rows)%list ->
  invoices_kept db db'.
Proof.
  intros Hi Ht i Hin _. rewrite Hi, Ht. split.
  - exists i. split; [apply in_or_app; now left | apply kept_refl].
  - intros it Hit _. apply in_or_app. now left.
Qed.

Lemma invoices_kept_trans (a b c : Db) :
  invoices_kept a b -> invoices_kept b c -> invoices_kept a c.
Proof.
  intros Hab Hbc i Hin Hst.
  destruct (Hab i Hin Hst) as [(i1 & Hin1 & Hk1 & Hr1) Hit1].
  assert (Hst1 : inv_status i1 <> draft).
  { intros E. rewrite E in Hr1. destruct (inv_status i); cbn in Hr1; [contradiction|lia|lia]. }
  destruct (Hbc i1 Hin1 Hst1) as [(i2 & Hin2 & Hk2 & Hr2) Hit2].
  assert (Hid : inv_id i1 = inv_id i).
  { apply (f_equal inv_id) in Hk1. exact Hk1. }
  split.
  - exists i2. split; [exact Hin2|]. split; [congruence | lia].
  - intros it Hit E. apply Hit2; [now apply Hit1 | congruence].
Qed.

(** The base state of a regeneration keeps what is not the draft. *)
Lemma regenerate_base_kept (payload : GeneratePayload) (db : Db) :
  NoDup (map inv_id (invoices db)) ->
  (forall ex, existing_invoice (client_id payload) (invoice_month payload) db = Some ex ->
              inv_status ex = draft) ->
  invoices_kept db (regenerate_base payload db).
Proof.
  intros Hnd Hdraft. unfold regenerate_base.
  destruct (existing_invoice (client_id payload) (invoice_month payload) db) as [ex|] eqn:Hex;
    [|now apply invoices_kept_same].
  destruct (existing_invoice_in _ _ _ _ Hex) as (Hin & _).
  specialize (Hdraft ex eq_refl).
  intros i Hi Hst.
  assert (Hne : inv_id i <> inv_id ex).
  { intros E. apply Hst. rewrite (unique_key_row inv_id _ i ex Hnd Hi Hin E). exact Hdraft. }
  split.
  - exists i. split; [|apply kept_refl]. cbn. apply in_map_iff. exists i.
    split; [|exact Hi]. destruct (Z.eqb_spec (inv_id i) (inv_id ex)); [contradiction|reflexivity].
  - intros it Hit E. cbn. apply in_map_iff. exists it. split; [|exact Hit].
    destruct (Z.eqb_spec (item_invoice_id it) (inv_id ex)); [lia | reflexivity].
Qed.

(** The invoice and item tables after a fresh run, whatever its answer. *)
Lemma generate_fresh_appends (createdBy : Z) (payload : GeneratePayload)
      (range : MonthRange) (s s' : Db) (r : Result GenerateData) :
  generate_fresh createdBy payload range s = Return r s' ->
  exists tail rows,
    invoices s' = (invoices s ++ tail)%list
    /\ invoice_items s' = (invoice_items s ++ rows)%list
    /\ (map inv_id tail = [] \/ map inv_id tail = [next_id (map inv_id (invoices s))]).
Proof.
  intros H.
  assert (Hcases : (invoices s' = invoices s /\ invoice_items s' = invoice_items s)
                   \/ exists o n fxid, r = Ok (Generated o n fxid)).
  { revert H. unfold generate_fresh. run_tx.
    destruct (rate_on_or_before _ s); [|intros H; injection H as _ <-; left; now split].
    destruct (pending_events _ _ _); [intros H; injection H as _ <-; left; now split|].
    rewrite resolveInvoiceSequence_run. unfold insert_invoice. cbn beta zeta.
    rewrite invoice_events_run, insert_items_run. unfold insert_item. run_tx.
    intros H. injection H as <- _. right. eauto. }
  destruct Hcases as [[Hi Ht]|(o & n & fxid & ->)].
  - exists [], []. rewrite !app_nil_r. repeat split; try assumption. now left.
  - destruct (generate_fresh_generated _ _ _ _ _ _ _ _ H)
      as (fxRow & events & _ & _ & _ & _ & _ & Hinv & Hitems & _).
    cbv zeta in Hinv, Hitems.
    set (row := draft_row _ _ _ _ _) in Hinv.
    assert (Hrow : inv_id row = next_id (map inv_id (invoices s))) by reflexivity.
    change (next_id (map inv_id (invoices s))) with (inv_id row) in Hinv at 1.
    rewrite (update_fresh_row _ _ _ Hrow) in Hinv.
    destruct (append_items_rows (next_id (map inv_id (invoices s))) (service_catalog s)
                (grouped_of (er_rate fxRow) events []) (invoice_items s))
      as (rows & Happ & _).
    rewrite Happ, <- app_assoc in Hitems.
    eexists. eexists. split; [exact Hinv|]. split; [exact Hitems|]. right. reflexivity.
Qed.

Lemma appended_nodup (ids : list Z) (tail : list Z) :
  NoDup ids -> tail = [] \/ tail = [next_id ids] -> NoDup (ids ++ tail)%list.
Proof.
  intros H [->| ->]; [now rewrite app_nil_r | now apply nodup_fresh].
Qed.

Lemma generate_kept (req : Request) (body : GenerateBody) (db : Db) :
  NoDup (map inv_id (invoices db)) ->
  invoices_kept db (fst (generate req body db))
  /\ NoDup (map inv_id (invoices (fst (generate req body db)))).
Proof.
  intros Hnd.
  assert (Hsame : invoices_kept db db /\ NoDup (map inv_id (invoices db)))
    by (split; [now apply invoices_kept_same | exact Hnd]).
  unfold generate, validate, respond, withTransaction.
  destruct (generateInvoiceSchema body) as [payload|]; [|exact Hsame].
  destruct (generate_work req payload db) as [r db1|e] eqn:Hwork; [|exact Hsame].
  assert (invoices_kept db db1 /\ NoDup (map inv_id (invoices db1))).
  { revert Hwork. unfold generate_work. run_tx.
    destruct (existing_invoice (client_id payload) (invoice_month payload) db)
      as [ex|] eqn:Hex.
    - destruct (inv_status ex) eqn:Est; cbn [negb InvoiceStatus_eqb];
        try (intros H; injection H as _ <-; exact Hsame).
      destruct (regenerate_draft payload =? 0); [intros H; injection H as _ <-; exact Hsame|].
      intros H.
      assert (Hbase : tombstone_invoice (inv_id ex)
                        (tombstone_items_of (inv_id ex) (release_events_of (inv_id ex) db))
                      = regenerate_base payload db)
        by (unfold regenerate_base; now rewrite Hex).
      rewrite Hbase in H.
      destruct (generate_fresh_appends _ _ _ _ _ _ H) as (tail & rows & Hi & Ht & Htail).
      destruct (regenerate_base_tables payload db) as (Hids & _).
      split.
      + apply (invoices_kept_trans db (regenerate_base payload db) db1).
        * apply regenerate_base_kept; [exact Hnd|].
          intros ex' Hex'. rewrite Hex in Hex'. injection Hex' as <-. exact Est.
        * now apply (invoices_kept_appended _ _ tail rows).
      + rewrite Hi, map_app, Hids. apply appended_nodup; [exact Hnd|].
        rewrite Hids in Htail. exact Htail.
    - intros H.
      destruct (generate_fresh_appends _ _ _ _ _ _ H) as (tail & rows & Hi & Ht & Htail).
      split; [now apply (invoices_kept_appended _ _ tail rows)|].
      rewrite Hi, map_app. now apply appended_nodup. }
  destruct r; assumption.
Qed.

Lemma update_status_kept (invoiceId : Z) (status : InvoiceStatus) (db : Db) (row : Invoice) :
  NoDup (map inv_id (invoices db)) ->
  live_invoice invoiceId db = Some row ->
  status_rank (inv_status row) <= status_rank status ->
  invoices_kept db (update_status invoiceId status db)
  /\ NoDup (map inv_id (invoices (update_status invoiceId status db))).
Proof.
  intros Hnd Hlive Hrank.
  destruct (live_invoice_in _ _ _ Hlive) as (Hin & Hid & _).
  split.
  - intros i Hi Hst. split; [|tauto].
    destruct (Z.eqb_spec (inv_id i) invoiceId) as [E|E].
    + assert (i = row) by (apply (unique_key_row inv_id _ i row Hnd Hi Hin); congruence).
      subst i. exists (set_status status row). split.
      * cbn. apply in_map_iff. exists row. split; [|exact Hin].
        now rewrite Hid, Z.eqb_refl.
      * split; [reflexivity | exact Hrank].
    + exists i. split; [|apply kept_refl]. cbn. apply in_map_iff. exists i.
      split; [|exact Hi]. destruct (Z.eqb_spec (inv_id i) invoiceId); [contradiction|reflexivity].
  - cbn. rewrite map_map.
    rewrite (map_ext _ inv_id); [exact Hnd|].
    intros a. destruct (inv_id a =? invoiceId); reflexivity.
Qed.

Lemma mark_pending_keeps_invoices (req : Request) (ids : list Z) (db : Db) :
  invoices (fst (mark_pending req ids db)) = invoices db
  /\ invoice_items (fst (mark_pending req ids db)) = invoice_items db.
Proof.
  unfold mark_pending, validate, respond, withTransaction, mark_pending_work. run_tx.
  destruct (markPendingSchema ids); [|now split].
  destruct (requireAdmin req); [|now split].
  destruct (map _ (filter (selected l) (billing_events db))); [now split|].
  destruct (filter _ (p :: l0)); now split.
Qed.

(** One call keeps the invoices that are not drafts, and the uniqueness of
    the invoice ids. *)
Lemma billing_step_kept (null_total_amount : Q) (default_status : EventStatus)
      (stored_date : string -> Date + string)
      (rate_date_taken : Db -> Z -> Date -> bool) (db db' : Db) :
  billing_step null_total_amount default_status stored_date rate_date_taken db db' ->
  NoDup (map inv_id (invoices db)) ->
  invoices_kept db db' /\ NoDup (map inv_id (invoices db')).
Proof.
  intros Hstep Hnd.
  assert (Hsame : forall d, invoices d = invoices db -> invoice_items d = invoice_items db ->
                            invoices_kept db d /\ NoDup (map inv_id (invoices d))).
  { intros d Hi Ht. split; [now apply invoices_kept_same | now rewrite Hi]. }
  destruct Hstep.
  - now apply generate_kept.
  - rewrite issue_invoice_run.
    destruct (live_invoice invoiceId db) as [row|] eqn:Hl; [|now apply Hsame].
    destruct (inv_status row) eqn:Est; try (now apply Hsame).
    apply (update_status_kept _ _ _ row Hnd Hl). rewrite Est. cbn. lia.
  - rewrite mark_paid_run.
    destruct (live_invoice invoiceId db) as [row|] eqn:Hl; [|now apply Hsame].
    destruct (inv_status row) eqn:Est; try (now apply Hsame).
    apply (update_status_kept _ _ _ row Hnd Hl). rewrite Est. cbn. lia.
  - unfold duplicate_admin.
    destruct (requireAdmin req); [|now apply Hsame]. cbn [negb].
    destruct (live_invoice sourceInvoiceId db) as [source|] eqn:Hl.
    + destruct (inv_status source) eqn:Est.
      * unfold withTransaction, respond, duplicate_admin_work. run_tx.
        rewrite Hl, Est. now apply Hsame.
      * pose proof (duplicate_admin_work_run null_total_amount _ _ _ Hnd Hl
                      ltac:(rewrite Est; discriminate)) as Hrun.
        cbv zeta in Hrun. unfold withTransaction, respond. rewrite Hrun. cbn [fst].
        destruct (append_copies_items (next_id (map inv_id (invoices db)))
                    (items_of sourceInvoiceId db) (invoice_items db))
          as (copies & Happ & _).
        split; [eapply invoices_kept_appended; [reflexivity | exact Happ]|].
        cbn. rewrite map_app. now apply nodup_fresh.
      * pose proof (duplicate_admin_work_run null_total_amount _ _ _ Hnd Hl
                      ltac:(rewrite Est; discriminate)) as Hrun.
        cbv zeta in Hrun. unfold withTransaction, respond. rewrite Hrun. cbn [fst].
        destruct (append_copies_items (next_id (map inv_id (invoices db)))
                    (items_of sourceInvoiceId db) (invoice_items db))
          as (copies & Happ & _).
        split; [eapply invoices_kept_appended; [reflexivity | exact Happ]|].
        cbn. rewrite map_app. now apply nodup_fresh.
    + unfold withTransaction, respond, duplicate_admin_work. run_tx.
      rewrite Hl. now apply Hsame.
  - destruct (mark_pending_keeps_invoices req ids db). now apply Hsame.
  - unfold create_event, validate.
    destruct (billingEventSchema body) as [p|]; [|now apply Hsame].
    destruct (stored_date (ev_event_date p)) as [d|message];
      now apply Hsame.
  - unfold put_exchange_rate, validate.
    destruct (exchangeRateSchema body) as [p|]; [|now apply Hsame].
    destruct (negb (requireAdmin req)); [now apply Hsame|].
    destruct (live_rate id db); [|now apply Hsame].
    destruct (_ || _); [now apply Hsame|].
    destruct (sql_date (rate_date p)); [|now apply Hsame].
    destruct (rate_date_taken db id d); now apply Hsame.
  - unfold delete_exchange_rate.
    destruct (negb (requireAdmin req)); [now apply Hsame|].
    destruct (live_rate id db); [|now apply Hsame].
    destruct (_ || _); now apply Hsame.
  - destruct (issueInvoiceSchema body) as [p|] eqn:Hs.
    + rewrite (issue_run _ _ _ Hs).
      destruct (live_batch (settlement_batch_id p) db) as [b|]; [|now apply Hsame].
      destruct (invoice_of_batch (sb_id b) db); [now apply Hsame|].
      cbn [fst]. split.
      * apply (invoices_kept_appended _ _
                 [issued_row p b (next_sequence (sb_client_id b)
                                    (Js.replaceDash (sb_billing_month b)) db)
                             (next_id (map inv_id (invoices db)))] []);
          [reflexivity | now rewrite app_nil_r].
      * cbn. rewrite map_app. now apply nodup_fresh.
    + unfold issue, validate. rewrite Hs. now apply Hsame.
  - destruct (closeBatchSchema body) as [p|] eqn:Hs.
    + rewrite (close_run _ _ _ _ Hs).
      destruct (live_batch batchId db) as [b|]; [|now apply Hsame].
      destruct (sb_status b); now apply Hsame.
    + unfold close, validate. rewrite Hs. now apply Hsame.
  - destruct (reopenRequestSchema body) as [p|] eqn:Hs.
    + rewrite (reopen_request_run _ _ _ _ Hs).
      destruct (live_batch batchId db) as [b|]; [|now apply Hsame].
      destruct (sb_status b); try (now apply Hsame).
      destruct (outstanding batchId db); now apply Hsame.
    + unfold reopen_request, validate. rewrite Hs. now apply Hsame.
  - destruct (reopenDecisionSchema body) as [p|] eqn:Hs.
    + rewrite (approve_run _ _ _ _ Hs).
      destruct (live_request requestId db) as [r|]; [|now apply Hsame].
      destruct (rr_status r); now apply Hsame.
    + unfold approve, validate. rewrite Hs. now apply Hsame.
  - destruct (reopenDecisionSchema body) as [p|] eqn:Hs.
    + rewrite (reject_run _ _ _ _ Hs).
      destruct (live_request requestId db) as [r|]; [|now apply Hsame].
      destruct (rr_status r); now apply Hsame.
    + unfold reject, validate. rewrite Hs. now apply Hsame.
Qed.

(** X26 (issued and paid invoices across all calls). Invoice ids being
    unique, no sequence of calls to the modelled routes (generation and
    regeneration, issue, mark-paid, duplicate-admin, mark-pending, event
    creation, exchange-rate changes, settlement issue, close, reopen request,
    approval, rejection) alters an invoice that is issued or paid: its row
    is still there with the same id, number, client, month, dates, rate and
    totals and not deleted, its status has stayed or moved forward (never
    back to draft), and every item it had is still there unchanged. Invoice
    ids stay unique. *)
Theorem issued_invoices_are_immutable (null_total_amount : Q)
        (default_status : EventStatus) (stored_date : string -> Date + string)
        (rate_date_taken : Db -> Z -> Date -> bool) (db db' : Db) :
  NoDup (map inv_id (invoices db)) ->
  billing_steps null_total_amount default_status stored_date rate_date_taken db db' ->
  NoDup (map inv_id (invoices db'))
  /\ forall i,
      In i (invoices db) -> inv_status i <> draft ->
      (exists i',
          In i' (invoices db')
          /\ set_status draft i' = set_status draft i
          /\ inv_status i' <> draft
          /\ status_rank (inv_status i) <= status_rank (inv_status i'))
      /\ forall it,
          In it (invoice_items db) -> item_invoice_id it = inv_id i ->
          In it (invoice_items db').
Proof.
  intros Hnd Hsteps.
  assert (H : invoices_kept db db' /\ NoDup (map inv_id (invoices db'))).
  { induction Hsteps as [db|db db1 db2 Hsteps IH Hstep].
    - split; [now apply invoices_kept_same | exact Hnd].
    - destruct (IH Hnd) as [Hk1 Hnd1].
      destruct (billing_step_kept _ _ _ _ _ _ Hstep Hnd1) as [Hk2 Hnd2].
      split; [now apply (invoices_kept_trans db db1 db2) | exact Hnd2]. }
  destruct H as [Hk Hnd']. split; [exact Hnd'|].
  intros i Hi Hst. destruct (Hk i Hi Hst) as [(i' & Hi' & Hkeep & Hrank) Hitems].
  split; [|exact Hitems].
  exists i'. split; [exact Hi'|]. split; [exact Hkeep|]. split; [|exact Hrank].
  intros E. rewrite E in Hrank. destruct (inv_status i); cbn in Hrank; [contradiction|lia|lia].
Qed.

Lemma issued_invoices_are_immutable_witness :
  let db' := fst (generate anonymous regenerate_body
                    (fst (duplicate_admin 0 admin 1 issued_db))) in
  NoDup (map inv_id (invoices db'))
  /\ forall i,
      In i (invoices issued_db) -> inv_status i <> draft ->
      (exists i',
          In i' (invoices db')
          /\ set_status draft i' = set_status draft i
          /\ inv_status i' <> draft
          /\ status_rank (inv_status i) <= status_rank (inv_status i'))
      /\ forall it,
          In it (invoice_items issued_db) -> item_invoice_id it = inv_id i ->
          In it (invoice_items db').
Proof.
  apply (issued_invoices_are_immutable 0 PENDING stores_parsed (fun _ _ _ => false) issued_db).
  - vm_compute. constructor; [intros []|constructor].
  - eapply calls_more; [eapply calls_more; [apply calls_none|]|].
    + apply (call_duplicate_admin 0 PENDING stores_parsed (fun _ _ _ => false) admin 1 issued_db).
    + apply (call_generate 0 PENDING stores_parsed (fun _ _ _ => false) anonymous regenerate_body).
Defined.

(** X27 ([resolveFx] of the settlement batches). Without an explicit rate
    the batch takes the latest active, live THB/KRW rate dated before the
    end of the window, the larger id deciding between rates of one date, and
    none when there is no such rate. An explicit exchange_rate_id is looked
    up by id alone: the rate must be active and live, but neither its date
    nor its currency pair is checked, and when the id does not name an
    active live rate the answer is none, with no fallback to the default. *)
Theorem settlement_rate_selection (payload : BatchGeneratePayload) (rangeTo : string)
        (db : Db) :
  (exchange_rate_id payload = None ->
   exists o,
     resolveFx payload rangeTo db = Return o db
     /\ (forall r,
            o = Some r ->
            In r (exchange_rates db)
            /\ settlement_rate_eligible rangeTo r = true
            /\ forall r',
                In r' (exchange_rates db) -> settlement_rate_eligible rangeTo r' = true ->
                date_compare (er_rate_date r) (er_rate_date r') = Gt
                \/ (date_compare (er_rate_date r) (er_rate_date r') = Eq
                    /\ er_id r' <= er_id r))
     /\ (o = None <->
         forall r, In r (exchange_rates db) -> settlement_rate_eligible rangeTo r = false))
  /\ (forall id,
         exchange_rate_id payload = Some id -> id <> 0 ->
         exists o,
           resolveFx payload rangeTo db = Return o db
           /\ (forall r,
                  o = Some r ->
                  In r (exchange_rates db) /\ er_id r = id
                  /\ er_status r = rate_active /\ er_deleted r = false)
           /\ (o = None <->
               forall r,
                 In r (exchange_rates db) -> er_id r = id ->
                 er_status r <> rate_active \/ er_deleted r = true)
           /\ (forall r,
                  NoDup (map er_id (exchange_rates db)) ->
                  In r (exchange_rates db) -> er_id r = id ->
                  er_status r = rate_active -> er_deleted r = false ->
                  o = Some r)).
Proof.
  split.
  - intros Hnone. unfold resolveFx, query. rewrite Hnone.
    eexists. split; [reflexivity|]. split.
    + intros r Hr.
      destruct (last_by_first rate_newer _ r rate_newer_total rate_newer_trans Hr)
        as [Hin Hbest].
      apply filter_In in Hin. destruct Hin as [Hin Hel].
      split; [exact Hin|]. split; [exact Hel|].
      intros r' Hin' Hel'.
      assert (Hb : rate_newer r r' = true) by (apply Hbest; apply filter_In; now split).
      unfold rate_newer in Hb.
      destruct (date_compare (er_rate_date r) (er_rate_date r'));
        [right; split; [reflexivity | now apply Z.leb_le] | discriminate | now left].
    + rewrite last_by_none. split.
      * intros H r Hin. exact (filter_empty_all _ _ r H Hin).
      * intros H. now apply filter_none.
  - intros id Hid Hnz. unfold resolveFx, query. rewrite Hid.
    destruct (Z.eqb_spec id 0) as [E|_]; [contradiction|].
    set (p := fun r => (er_id r =? id)
                       && match er_status r with rate_active => true | _ => false end
                       && negb (er_deleted r)).
    assert (Hp : forall r, p r = true <->
                           er_id r = id /\ er_status r = rate_active /\ er_deleted r = false).
    { intros r. unfold p. rewrite !andb_true_iff, Z.eqb_eq, negb_true_iff.
      destruct (er_status r); intuition congruence. }
    eexists. split; [reflexivity|]. split; [|split].
    + intros r Hr. apply find_some in Hr. destruct Hr as [Hin Hr].
      apply Hp in Hr. tauto.
    + split.
      * intros H r Hin Heq.
        pose proof (find_none _ _ H r Hin) as Hf.
        destruct (er_status r) eqn:Es; try (left; discriminate).
        destruct (er_deleted r) eqn:Ed; [now right|].
        exfalso. assert (p r = true) by (apply Hp; auto). congruence.
      * intros H. apply find_all_false. intros r Hin.
        destruct (p r) eqn:E; [|reflexivity].
        apply Hp in E. destruct E as (E1 & E2 & E3).
        destruct (H r Hin E1); congruence.
    + intros r Hnd Hin Heq Hact Hlive.
      destruct (find p (exchange_rates db)) as [r'|] eqn:E.
      * apply find_some in E. destruct E as [Hin' E]. apply Hp in E.
        f_equal. apply (unique_key_row er_id (exchange_rates db)); try assumption.
        destruct E as [E _]. congruence.
      * pose proof (find_none _ _ E r Hin) as Hf.
        assert (p r = true) by (apply Hp; auto). congruence.
Qed.
